(** * Face-overlay demo: synthetic geometry generator and canvas compositor

    A shallow embedding of [src/hooks/useMediaPipe.ts]
    ([generateSimpleFaceDetection]) and [src/lib/faceswap/FaceSwapEngine.ts]
    (the [FaceSwapEngine] class), together with the properties the
    specification states about them, and of the part of
    [src/hooks/useFaceSwap.ts] that drives the engine (selecting,
    clearing and toggling a face, and the render loop).

    Conventions of the embedding.
    - A JavaScript [number] is an exact rational ([Q]); the rounding of
      binary64 arithmetic is not modelled.  Numbers are compared with
      [==] ([Qeq]); integers stored in byte arrays are [Z].  A division
      by zero gives 0 in [Q] where JavaScript gives an infinity or NaN;
      the only divisions the code does not guard are the two aspect
      ratios of [processFrame], and they only move the rectangle the
      target is drawn into.
    - A canvas, a decoded image and a video frame are bitmaps of
      straight RGBA bytes; the exceptions the canvas calls can throw
      ([IndexSizeError], [SecurityError], [InvalidStateError]) are
      completions of the calls.
    - What the browser leaves to the implementation is an interface:
      [MathLib] for [Math.sin], [Math.cos], [Math.sqrt] and [Math.PI],
      [Rasterizer] for the resampling of an image into a destination
      rectangle and for the coverage of an elliptical clip region.
    - A JavaScript array that is written by index is a list of optional
      entries, [None] standing for [undefined] (a hole); writing past the
      end extends the array as JavaScript does. *)

From Stdlib Require Import ZArith QArith Qround Qminmax Lia Lqa String.
From stdpp Require Import base list gmap strings.

Local Open Scope Q_scope.

(** ** JavaScript values *)

Module JS.

(** A loop counter used as a [number]. *)
Definition num (n : nat) : Q := inject_Z (Z.of_nat n).

(** [a <= b], [a < b] and [a > b] on numbers. *)
Definition le (a b : Q) : bool := Qle_bool a b.
Definition lt (a b : Q) : bool := negb (Qle_bool b a).
Definition gt (a b : Q) : bool := lt b a.

(** Conversion of a finite [number] to a WebIDL [long]: truncation
    toward zero. *)
Definition toLong (q : Q) : Z := Z.quot (Qnum q) (Zpos (Qden q)).

(** [ToUint8Clamp], the conversion applied by every store into a
    [Uint8ClampedArray]: clamp to [0, 255], then round to the nearest
    integer, ties to even. *)
Definition ToUint8Clamp (v : Q) : Z :=
  let clamped := Qmin (Qmax v 0) 255 in
  let f := Qfloor clamped in
  if lt clamped (inject_Z f + 0.5) then f
  else if gt clamped (inject_Z f + 0.5) then (f + 1)%Z
  else if Z.even f then f else (f + 1)%Z.

(** [a || b] on numbers: [b] when [a] is zero. *)
Definition or_else (a b : Q) : Q := if Qeq_bool a 0 then b else a.

(** [for (let i = from; i < from + n; i++) body] over a state. *)
Fixpoint for_range {S : Type} (from n : nat) (body : nat -> S -> S) (s : S) : S :=
  match n with
  | O => s
  | Datatypes.S n' => for_range (Datatypes.S from) n' body (body from s)
  end.

(** [for (let i = from; i < limit; i += step) body] over a state; the
    fuel bounds the number of iterations. *)
Fixpoint for_step {S : Type} (fuel i limit step : nat)
         (body : nat -> S -> S) (s : S) : S :=
  match fuel with
  | O => s
  | Datatypes.S fuel' =>
      if (i <? limit)%nat
      then for_step fuel' (i + step) limit step body (body i s)
      else s
  end.

(** With a positive step the loop from [from] runs fewer than
    [limit - from + 1] times. *)
Definition for_by {S : Type} (from limit step : nat)
           (body : nat -> S -> S) (s : S) : S :=
  for_step (limit - from) from limit step body s.

(** [xs.forEach((v, i) => body)] over a state, [i] counting from [i0]. *)
Fixpoint forEach_from {A S : Type} (i0 : nat) (xs : list A)
         (body : A -> nat -> S -> S) (s : S) : S :=
  match xs with
  | [] => s
  | v :: rest => forEach_from (Datatypes.S i0) rest body (body v i0 s)
  end.

Definition forEach {A S : Type} (xs : list A) (body : A -> nat -> S -> S) (s : S) : S :=
  forEach_from 0 xs body s.

End JS.

(** Arrays written by index: [None] is [undefined]. *)
Module JsArray.

Definition t (A : Type) : Type := list (option A).

(** [a[i]] *)
Definition get {A : Type} (a : t A) (i : nat) : option A :=
  match a !! i with
  | Some v => v
  | None => None
  end.

(** [a[i] = v]: in range the slot is replaced, past the end the array
    grows and the slots in between are holes. *)
Definition set {A : Type} (a : t A) (i : nat) (v : option A) : t A :=
  if (i <? length a)%nat then <[i := v]> a
  else a ++ replicate (i - length a) None ++ [v].

(** [a.push(v)] *)
Definition push {A : Type} (a : t A) (v : A) : t A := a ++ [Some v].

(** [idx.map(i => a[i])] *)
Definition gather {A : Type} (a : t A) (idx : list nat) : t A :=
  List.map (get a) idx.

(** Every entry is defined; then the array is an ordinary list. *)
Fixpoint defined {A : Type} (a : t A) : option (list A) :=
  match a with
  | [] => Some []
  | None :: _ => None
  | Some v :: rest =>
      match defined rest with
      | Some vs => Some (v :: vs)
      | None => None
      end
  end.

End JsArray.

(** The implementation-defined part of [Math]. *)
Class MathLib : Type := {
  Math_PI : Q;
  Math_sin : Q -> Q;
  Math_cos : Q -> Q;
  Math_sqrt : Q -> Q
}.

(** ** hooks/useMediaPipe.ts *)

Module MediaPipe.

Record NormalizedLandmark : Type := {
  lm_x : Q;
  lm_y : Q;
  lm_z : Q
}.

Definition FACE_OVAL_INDICES : list nat := [
  10; 338; 297; 332; 284; 251; 389; 356; 454; 323; 361; 288;
  397; 365; 379; 378; 400; 377; 152; 148; 176; 149; 150; 136;
  172; 58; 132; 93; 234; 127; 162; 21; 54; 103; 67; 109
]%nat.

Definition LEFT_EYE_INDICES : list nat := [33; 160; 158; 133; 153; 144]%nat.
Definition RIGHT_EYE_INDICES : list nat := [362; 385; 387; 263; 373; 380]%nat.
Definition LIPS_INDICES : list nat :=
  [61; 146; 91; 181; 84; 17; 314; 405; 321; 375; 291]%nat.
Definition NOSE_TIP_INDEX : nat := 1.

Record BoundingBox : Type := {
  bb_x : Q;
  bb_y : Q;
  bb_width : Q;
  bb_height : Q
}.

(** The interface [FaceDetection], as a consumer is entitled to read
    it: every entry is a landmark. *)
Record FaceDetection : Type := {
  landmarks : list NormalizedLandmark;
  boundingBox : BoundingBox;
  faceOval : list NormalizedLandmark;
  leftEye : list NormalizedLandmark;
  rightEye : list NormalizedLandmark;
  lips : list NormalizedLandmark;
  noseTip : NormalizedLandmark
}.

(** The object literal [generateSimpleFaceDetection] returns, as the
    run-time value it is: an indexed read may have produced
    [undefined]. *)
Record FaceDetectionValue : Type := {
  v_landmarks : JsArray.t NormalizedLandmark;
  v_boundingBox : BoundingBox;
  v_faceOval : JsArray.t NormalizedLandmark;
  v_leftEye : JsArray.t NormalizedLandmark;
  v_rightEye : JsArray.t NormalizedLandmark;
  v_lips : JsArray.t NormalizedLandmark;
  v_noseTip : option NormalizedLandmark
}.

(** The value conforms to the interface when nothing in it is
    [undefined]. *)
Definition conforms (v : FaceDetectionValue) : option FaceDetection :=
  match JsArray.defined (v_landmarks v), JsArray.defined (v_faceOval v),
        JsArray.defined (v_leftEye v), JsArray.defined (v_rightEye v),
        JsArray.defined (v_lips v), v_noseTip v with
  | Some lms, Some oval, Some le, Some re, Some li, Some nose =>
      Some {| landmarks := lms; boundingBox := v_boundingBox v;
              faceOval := oval; leftEye := le; rightEye := re;
              lips := li; noseTip := nose |}
  | _, _, _, _, _, _ => None
  end.

Section Generator.
Context {M : MathLib}.

Definition generateSimpleFaceDetection : FaceDetectionValue :=
  let centerX := 0.5 in
  let centerY := 0.45 in
  let faceWidth := 0.35 in
  let faceHeight := 0.45 in
  (* approximate face oval points *)
  let numPoints := 36%nat in
  let ovalPoints : JsArray.t NormalizedLandmark :=
    JS.for_range 0 numPoints (fun i ovalPoints =>
      let angle := (JS.num i / JS.num numPoints) * Math_PI * 2 in
      JsArray.push ovalPoints
        {| lm_x := centerX + Math_cos angle * faceWidth * 0.4;
           lm_y := centerY + Math_sin angle * faceHeight * 0.45;
           lm_z := 0 |}) [] in
  (* 468 placeholder landmarks *)
  let landmarks : JsArray.t NormalizedLandmark :=
    JS.for_range 0 468 (fun i landmarks =>
      JsArray.push landmarks
        {| lm_x := centerX + (Math_sin (JS.num i * 0.1) * 0.1);
           lm_y := centerY + (Math_cos (JS.num i * 0.1) * 0.1);
           lm_z := 0 |}) [] in
  (* nose tip (index 1) *)
  let landmarks :=
    JsArray.set landmarks 1
      (Some {| lm_x := centerX; lm_y := centerY + 0.05; lm_z := 0 |}) in
  (* left eye area *)
  let leftEyeX := centerX - 0.08 in
  let leftEyeY := centerY - 0.05 in
  let landmarks :=
    JS.forEach LEFT_EYE_INDICES (fun idx i landmarks =>
      JsArray.set landmarks idx
        (Some {| lm_x := leftEyeX + (JS.num i - 3) * 0.01;
                 lm_y := leftEyeY + Math_sin (JS.num i) * 0.01;
                 lm_z := 0 |})) landmarks in
  (* right eye area *)
  let rightEyeX := centerX + 0.08 in
  let rightEyeY := centerY - 0.05 in
  let landmarks :=
    JS.forEach RIGHT_EYE_INDICES (fun idx i landmarks =>
      JsArray.set landmarks idx
        (Some {| lm_x := rightEyeX + (JS.num i - 3) * 0.01;
                 lm_y := rightEyeY + Math_sin (JS.num i) * 0.01;
                 lm_z := 0 |})) landmarks in
  (* lips *)
  let lipsY := centerY + 0.15 in
  let landmarks :=
    JS.forEach LIPS_INDICES (fun idx i landmarks =>
      JsArray.set landmarks idx
        (Some {| lm_x := centerX + (JS.num i - 5) * 0.015;
                 lm_y := lipsY + Math_sin (JS.num i * 0.5) * 0.01;
                 lm_z := 0 |})) landmarks in
  (* face oval *)
  let landmarks :=
    JS.forEach FACE_OVAL_INDICES (fun idx i landmarks =>
      JsArray.set landmarks idx
        (JsArray.get ovalPoints (i mod length ovalPoints))) landmarks in
  {| v_landmarks := landmarks;
     v_boundingBox :=
       {| bb_x := centerX - faceWidth / 2;
          bb_y := centerY - faceHeight / 2;
          bb_width := faceWidth;
          bb_height := faceHeight |};
     v_faceOval := JsArray.gather landmarks FACE_OVAL_INDICES;
     v_leftEye := JsArray.gather landmarks LEFT_EYE_INDICES;
     v_rightEye := JsArray.gather landmarks RIGHT_EYE_INDICES;
     v_lips := JsArray.gather landmarks LIPS_INDICES;
     v_noseTip := JsArray.get landmarks NOSE_TIP_INDEX |}.

(** [processFrame] of the [useMediaPipe] hook, without the React
    state setters: the frame it is handed is not looked at. *)
Definition processFrame {Video : Type} (isLoaded : bool) (video : Video)
  : list FaceDetectionValue :=
  if negb isLoaded then []
  else
    let detection := generateSimpleFaceDetection in
    let detections := [detection] in
    detections.

End Generator.

End MediaPipe.

(** ** The 2D canvas of the browser *)

Module Canvas.

Record Pixel : Type := {
  red : Z;
  green : Z;
  blue : Z;
  alpha : Z
}.

Definition transparentBlack : Pixel :=
  {| red := 0; green := 0; blue := 0; alpha := 0 |}.

Definition bytes (p : Pixel) : list Z := [red p; green p; blue p; alpha p].

(** [data[i]] on a byte array. *)
Definition byteAt (data : list Z) (i : nat) : Z := default 0%Z (data !! i).

(** The pixel that starts at byte [i]. *)
Definition pixelFrom (data : list Z) (i : nat) : Pixel :=
  {| red := byteAt data i; green := byteAt data (i + 1);
     blue := byteAt data (i + 2); alpha := byteAt data (i + 3) |}.

(** Row-major RGBA bytes of [n] pixels. *)
Definition render (n : nat) (f : nat -> Pixel) : list Z :=
  flat_map (fun k => bytes (f k)) (seq 0 n).

(** A bitmap with its intrinsic size: the backing store of a canvas,
    a decoded image, or the current frame of a video.  [data] holds
    straight (not premultiplied) RGBA bytes, four per pixel, row by
    row; [originClean] is the flag that guards pixel read-back. *)
Record Bitmap : Type := {
  width : nat;
  height : nat;
  data : list Z;
  originClean : bool
}.

Definition pixelAt (b : Bitmap) (x y : nat) : Pixel :=
  pixelFrom (data b) ((y * width b + x) * 4).

(** A pixel read through [getImageData]: transparent black outside
    the bitmap. *)
Definition pixelIn (b : Bitmap) (x y : Z) : Pixel :=
  if ((0 <=? x)%Z && (x <? Z.of_nat (width b))%Z
      && (0 <=? y)%Z && (y <? Z.of_nat (height b))%Z)%bool
  then pixelAt b (Z.to_nat x) (Z.to_nat y)
  else transparentBlack.

(** [canvas.width = w; canvas.height = h; ctx.clearRect(0, 0, w, h)]:
    a fresh, fully transparent backing store. *)
Definition blank (w h : nat) : Bitmap :=
  {| width := w; height := h;
     data := render (w * h) (fun _ => transparentBlack);
     originClean := true |}.

Inductive DOMException : Type :=
| IndexSizeError
| SecurityError
| InvalidStateError.

(** The completion of a call that may throw. *)
Inductive Completion (A : Type) : Type :=
| Normal (a : A)
| Throw (e : DOMException).
Arguments Normal {A} a.
Arguments Throw {A} e.

Record ImageData : Type := {
  id_width : nat;
  id_height : nat;
  id_data : list Z
}.

(** [ctx.getImageData(sx, sy, sw, sh)] *)
Definition getImageData (b : Bitmap) (sx sy : Q) (sw sh : nat)
  : Completion ImageData :=
  if ((sw =? 0)%nat || (sh =? 0)%nat)%bool then Throw IndexSizeError
  else if negb (originClean b) then Throw SecurityError
  else
    Normal {| id_width := sw; id_height := sh;
              id_data :=
                render (sw * sh) (fun k =>
                  pixelIn b (JS.toLong sx + Z.of_nat (k mod sw))
                            (JS.toLong sy + Z.of_nat (k / sw))) |}.

(** [ctx.putImageData(imageData, 0, 0)] *)
Definition putImageData (b : Bitmap) (imageData : ImageData) : Bitmap :=
  {| width := width b; height := height b;
     data :=
       render (width b * height b) (fun k =>
         let x := (k mod width b)%nat in
         let y := (k / width b)%nat in
         if ((x <? id_width imageData)%nat && (y <? id_height imageData)%nat)%bool
         then pixelFrom (id_data imageData) ((y * id_width imageData + x) * 4)
         else pixelAt b x y);
     originClean := originClean b |}.

(** An elliptical clip region [ctx.ellipse(cx, cy, rx, ry, 0, 0, 2π);
    ctx.clip()]. *)
Record Ellipse : Type := {
  e_cx : Q;
  e_cy : Q;
  e_rx : Q;
  e_ry : Q
}.

(** [ctx.ellipse] throws on a negative radius. *)
Definition ellipse (cx cy rx ry : Q) : Completion Ellipse :=
  if (JS.lt rx 0 || JS.lt ry 0)%bool then Throw IndexSizeError
  else Normal {| e_cx := cx; e_cy := cy; e_rx := rx; e_ry := ry |}.

(** [ctx.globalAlpha = v]: a value outside [0, 1] is ignored. *)
Definition setGlobalAlpha (current v : Q) : Q :=
  if (JS.le 0 v && JS.le v 1)%bool then v else current.

(** What a browser is free to choose when it draws. *)
Class Rasterizer : Type := {
  (** colour and own alpha that [src], drawn into the rectangle
      [(dx, dy, dw, dh)], contributes at pixel [(x, y)] *)
  resample : Bitmap -> Q -> Q -> Q -> Q -> nat -> nat -> Pixel;
  (** share of pixel [(x, y)] that lies inside the ellipse *)
  clipCoverage : Ellipse -> nat -> nat -> Q
}.

(** The default composite operation, [source-over], on one pixel. *)
Definition sourceOver (s d : Pixel) : Pixel :=
  if (alpha s =? 0)%Z then d
  else if (alpha s =? 255)%Z then s
  else
    let a_s := inject_Z (alpha s) / 255 in
    let a_d := inject_Z (alpha d) / 255 in
    let a_o := a_s + a_d * (1 - a_s) in
    let mix (c_s c_d : Z) : Z :=
      JS.ToUint8Clamp
        ((inject_Z c_s * a_s + inject_Z c_d * a_d * (1 - a_s)) / a_o) in
    {| red := mix (red s) (red d);
       green := mix (green s) (green d);
       blue := mix (blue s) (blue d);
       alpha := JS.ToUint8Clamp (255 * a_o) |}.

(** The pixel a draw call paints from the source pixel [s]: its alpha
    is scaled by [globalAlpha] and by the clip coverage. *)
Definition painted (globalAlpha coverage : Q) (s : Pixel) : Pixel :=
  {| red := red s; green := green s; blue := blue s;
     alpha := JS.ToUint8Clamp (inject_Z (alpha s) * globalAlpha * coverage) |}.

(** [ctx.drawImage(canvas, 0, 0)] with no clip region: the canvas is
    drawn at its own size, pixel on pixel; a canvas without pixels
    makes the call throw. *)
Definition drawCanvas (globalAlpha : Q) (dst src : Bitmap) : Completion Bitmap :=
  if ((width src =? 0)%nat || (height src =? 0)%nat)%bool
  then Throw InvalidStateError
  else
    Normal
      {| width := width dst; height := height dst;
         data :=
           render (width dst * height dst) (fun k =>
             let x := (k mod width dst)%nat in
             let y := (k / width dst)%nat in
             sourceOver
               (painted globalAlpha 1 (pixelIn src (Z.of_nat x) (Z.of_nat y)))
               (pixelAt dst x y));
         originClean := (originClean dst && originClean src)%bool |}.

Section Drawing.
Context {R : Rasterizer}.

(** [ctx.drawImage(element, dx, dy, dw, dh)] for an image or a video
    element, scaled into the destination rectangle: an element
    without pixels is not drawn. *)
Definition drawImage (globalAlpha : Q) (clip : option Ellipse) (dst src : Bitmap)
           (dx dy dw dh : Q) : Bitmap :=
  if ((width src =? 0)%nat || (height src =? 0)%nat)%bool then dst
  else
    {| width := width dst; height := height dst;
       data :=
         render (width dst * height dst) (fun k =>
           let x := (k mod width dst)%nat in
           let y := (k / width dst)%nat in
           let coverage :=
             match clip with
             | Some e => clipCoverage e x y
             | None => 1
             end in
           sourceOver
             (painted globalAlpha coverage (resample src dx dy dw dh x y))
             (pixelAt dst x y));
       originClean := (originClean dst && originClean src)%bool |}.

End Drawing.

(** Two bitmaps of one size that agree on every pixel. *)
Definition samePixels (a b : Bitmap) : Prop :=
  width a = width b /\ height a = height b /\
  forall x y : nat, (x < width a)%nat -> (y < height a)%nat ->
    pixelAt a x y = pixelAt b x y.

End Canvas.

(** ** lib/faceswap/FaceSwapEngine.ts *)

Module FaceSwapEngine.

Import MediaPipe.

Record PresetFace : Type := {
  id : string;
  name : string;
  imageUrl : string;
  thumbnailUrl : string
}.

Record FaceSwapOptions : Type := {
  blendAmount : Q;
  featherAmount : Q;
  colorCorrection : bool
}.

(** [Partial<FaceSwapOptions>]: [None] is a key that is absent. *)
Record PartialOptions : Type := {
  p_blendAmount : option Q;
  p_featherAmount : option Q;
  p_colorCorrection : option bool
}.

(** [{ ...base, ...over }] *)
Definition spread (base : FaceSwapOptions) (over : PartialOptions) : FaceSwapOptions :=
  {| blendAmount := default (blendAmount base) (p_blendAmount over);
     featherAmount := default (featherAmount base) (p_featherAmount over);
     colorCorrection := default (colorCorrection base) (p_colorCorrection over) |}.

(** The fields of the class; [canvas] is the scratch canvas with its
    context. *)
Record Engine : Type := {
  canvas : Canvas.Bitmap;
  targetFaceImage : option Canvas.Bitmap;
  options : FaceSwapOptions
}.

Definition constructor (opts : PartialOptions) : Engine :=
  {| canvas := Canvas.blank 300 150;
     targetFaceImage := None;
     options :=
       spread {| blendAmount := 0.95; featherAmount := 20;
                 colorCorrection := false |} opts |}.

Definition setOptions (e : Engine) (opts : PartialOptions) : Engine :=
  {| canvas := canvas e; targetFaceImage := targetFaceImage e;
     options := spread (options e) opts |}.

Definition hasTargetFace (e : Engine) : bool :=
  match targetFaceImage e with
  | Some _ => true
  | None => false
  end.

Definition clearTargetFace (e : Engine) : Engine :=
  {| canvas := canvas e; targetFaceImage := None; options := options e |}.

Definition dispose (e : Engine) : Engine := clearTargetFace e.

(** *** loadTargetFace

    The call creates an [Image], installs the two handlers and starts
    the request; the browser later fires exactly one of them.  The
    three parts are separate transitions of the page. *)

Inductive PromiseState : Type :=
| Pending
| Fulfilled
| Rejected (message : string).

(** The engine with the image requests that are in flight (each with
    the [face] its handlers closed over) and the promises handed out,
    both keyed by the number of the [loadTargetFace] call. *)
Record Page : Type := {
  engine : Engine;
  requests : gmap nat PresetFace;
  promises : gmap nat PromiseState;
  calls : nat
}.

Definition newPage (e : Engine) : Page :=
  {| engine := e; requests := ∅; promises := ∅; calls := 0 |}.

(** [loadTargetFace(face)] up to [img.src = face.imageUrl]. *)
Definition loadTargetFace (pg : Page) (face : PresetFace) : Page :=
  {| engine := engine pg;
     requests := <[calls pg := face]> (requests pg);
     promises := <[calls pg := Pending]> (promises pg);
     calls := S (calls pg) |}.

(** [img.onload] of request [k], [img] being the decoded image. *)
Definition onload (pg : Page) (k : nat) (img : Canvas.Bitmap) : Page :=
  match requests pg !! k with
  | Some _ =>
      {| engine :=
           {| canvas := canvas (engine pg);
              targetFaceImage := Some img;
              options := options (engine pg) |};
         requests := delete k (requests pg);
         promises := <[k := Fulfilled]> (promises pg);
         calls := calls pg |}
  | None => pg
  end.

(** [img.onerror] of request [k]. *)
Definition onerror (pg : Page) (k : nat) : Page :=
  match requests pg !! k with
  | Some face =>
      {| engine := engine pg;
         requests := delete k (requests pg);
         promises :=
           <[k := Rejected ("Failed to load face image: " ++ imageUrl face)]>
             (promises pg);
         calls := calls pg |}
  | None => pg
  end.

Definition onEngine (f : Engine -> Engine) (pg : Page) : Page :=
  {| engine := f (engine pg); requests := requests pg;
     promises := promises pg; calls := calls pg |}.

(** What can happen to the page, one event at a time. *)
Inductive Event : Type :=
| CallLoadTargetFace (face : PresetFace)
| CallClearTargetFace
| CallSetOptions (opts : PartialOptions)
| ImageLoaded (k : nat) (img : Canvas.Bitmap)
| ImageFailed (k : nat).

Definition step (pg : Page) (ev : Event) : Page :=
  match ev with
  | CallLoadTargetFace face => loadTargetFace pg face
  | CallClearTargetFace => onEngine clearTargetFace pg
  | CallSetOptions opts => onEngine (fun e => setOptions e opts) pg
  | ImageLoaded k img => onload pg k img
  | ImageFailed k => onerror pg k
  end.

Definition run (pg : Page) (evs : list Event) : Page := fold_left step evs pg.

(** The event is the completion, either way, of request [k]. *)
Definition settles (k : nat) (ev : Event) : bool :=
  match ev with
  | ImageLoaded k' _ => (k' =? k)%nat
  | ImageFailed k' => (k' =? k)%nat
  | _ => false
  end.

(** *** processFrame *)

(** The running sums of the colour sampling loop. *)
Record Sums : Type := {
  srcR : Q; srcG : Q; srcB : Q;
  tgtR : Q; tgtG : Q; tgtB : Q;
  count : nat
}.

Section Compositor.
Context {M : MathLib} {R : Canvas.Rasterizer}.

(** [let srcR = 0, srcG = 0, srcB = 0; let tgtR = 0, ...; let count = 0] *)
Definition zeroSums : Sums :=
  {| srcR := 0; srcG := 0; srcB := 0; tgtR := 0; tgtG := 0; tgtB := 0; count := 0 |}.

(** The body of the sampling loop of [applyColorCorrection], at
    byte [i]. *)
Definition sampleAt (sourceData targetData : list Z) (i : nat) (a : Sums) : Sums :=
  {| srcR := srcR a + inject_Z (Canvas.byteAt sourceData i);
     srcG := srcG a + inject_Z (Canvas.byteAt sourceData (i + 1));
     srcB := srcB a + inject_Z (Canvas.byteAt sourceData (i + 2));
     tgtR := tgtR a + inject_Z (Canvas.byteAt targetData i);
     tgtG := tgtG a + inject_Z (Canvas.byteAt targetData (i + 1));
     tgtB := tgtB a + inject_Z (Canvas.byteAt targetData (i + 2));
     count := S (count a) |}.

(** The body of the adjusting loop of [applyColorCorrection], at
    byte [i]. *)
Definition adjustAt (rAdj gAdj bAdj : Q) (i : nat) (data : list Z) : list Z :=
  if (0 <? Canvas.byteAt data (i + 3))%Z then (* only non-transparent pixels *)
    let data :=
      <[i := JS.ToUint8Clamp
               (Qmin 255 (inject_Z (Canvas.byteAt data i) * rAdj))]> data in
    let data :=
      <[(i + 1)%nat := JS.ToUint8Clamp
               (Qmin 255 (inject_Z (Canvas.byteAt data (i + 1)) * gAdj))]> data in
    let data :=
      <[(i + 2)%nat := JS.ToUint8Clamp
               (Qmin 255 (inject_Z (Canvas.byteAt data (i + 2)) * bAdj))]> data in
    data
  else data.

(** The body of the inner loop of [applyFeathering], at pixel
    [(x, y)]. *)
Definition featherAt (centerX centerY featherStart feather : Q) (width : nat)
           (y x : nat) (data : list Z) : list Z :=
  let i := ((y * width + x) * 4)%nat in
  if (0 <? Canvas.byteAt data (i + 3))%Z then
    let dx := JS.num x - centerX in
    let dy := JS.num y - centerY in
    let dist := Math_sqrt (dx * dx + dy * dy) in
    if JS.gt dist featherStart then
      let alpha := 1 - (dist - featherStart) / feather in
      <[(i + 3)%nat := JS.ToUint8Clamp
          (Qmax 0 (Qmin 255
             (inject_Z (Canvas.byteAt data (i + 3)) * Qmax 0 alpha)))]> data
    else data
  else data.

Definition applyColorCorrection (scratch sourceVideo : Canvas.Bitmap)
           (width height : nat) : Canvas.Bitmap :=
  (* average colour of the source frame *)
  let tempCanvas := Canvas.blank width height in
  let tempCanvas :=
    Canvas.drawImage 1 None tempCanvas sourceVideo
                     0 0 (JS.num width) (JS.num height) in
  (* sample the centre of the frame *)
  let sampleSize := 50%nat in
  let centerX := JS.num width / 2 - JS.num sampleSize / 2 in
  let centerY := JS.num height / 2 - JS.num sampleSize / 2 in
  (* try *)
  match Canvas.getImageData tempCanvas centerX centerY sampleSize sampleSize with
  | Canvas.Throw _ => scratch (* catch *)
  | Canvas.Normal sourceData =>
  match Canvas.getImageData scratch centerX centerY sampleSize sampleSize with
  | Canvas.Throw _ => scratch (* catch *)
  | Canvas.Normal targetData =>
    let sums :=
      JS.for_by 0 (length (Canvas.id_data sourceData)) 4
        (sampleAt (Canvas.id_data sourceData) (Canvas.id_data targetData))
        zeroSums in
    if (0 <? count sums)%nat then
      let srcR := srcR sums / JS.num (count sums) in
      let srcG := srcG sums / JS.num (count sums) in
      let srcB := srcB sums / JS.num (count sums) in
      let tgtR := tgtR sums / JS.num (count sums) in
      let tgtG := tgtG sums / JS.num (count sums) in
      let tgtB := tgtB sums / JS.num (count sums) in
      (* colour adjustment *)
      let rRatio := srcR / JS.or_else tgtR 1 in
      let gRatio := srcG / JS.or_else tgtG 1 in
      let bRatio := srcB / JS.or_else tgtB 1 in
      (* clamp the ratios *)
      let clamp (v : Q) : Q := Qmin 1.5 (Qmax 0.5 v) in
      let rAdj := clamp rRatio in
      let gAdj := clamp gRatio in
      let bAdj := clamp bRatio in
      (* apply to the entire canvas *)
      match Canvas.getImageData scratch 0 0 width height with
      | Canvas.Throw _ => scratch (* catch *)
      | Canvas.Normal imageData =>
        let data :=
          JS.for_by 0 (length (Canvas.id_data imageData)) 4
            (adjustAt rAdj gAdj bAdj) (Canvas.id_data imageData) in
        Canvas.putImageData scratch
          {| Canvas.id_width := Canvas.id_width imageData;
             Canvas.id_height := Canvas.id_height imageData;
             Canvas.id_data := data |}
      end
    else scratch
  end
  end.

Definition applyFeathering (opts : FaceSwapOptions) (scratch : Canvas.Bitmap)
           (face : FaceDetection) (width height : nat)
  : Canvas.Completion Canvas.Bitmap :=
  let feather := featherAmount opts in
  if JS.le feather 0 then Canvas.Normal scratch
  else
    let ovalPoints := faceOval face in
    if (length ovalPoints =? 0)%nat then Canvas.Normal scratch
    else
      (* centre of the face *)
      let centre :=
        JS.forEach ovalPoints (fun p _ c =>
          (fst c + lm_x p * JS.num width, snd c + lm_y p * JS.num height))
          (0, 0) in
      let centerX := fst centre / JS.num (length ovalPoints) in
      let centerY := snd centre / JS.num (length ovalPoints) in
      match Canvas.getImageData scratch 0 0 width height with
      | Canvas.Throw e => Canvas.Throw e
      | Canvas.Normal imageData =>
        let data := Canvas.id_data imageData in
        (* largest distance from the centre to the edge *)
        let maxDist :=
          JS.forEach ovalPoints (fun p _ maxDist =>
            let dx := lm_x p * JS.num width - centerX in
            let dy := lm_y p * JS.num height - centerY in
            Qmax maxDist (Math_sqrt (dx * dx + dy * dy))) 0 in
        let featherStart := maxDist - feather in
        let data :=
          JS.for_range 0 height (fun y data =>
            JS.for_range 0 width (fun x data =>
              featherAt centerX centerY featherStart feather width y x data)
              data) data in
        Canvas.Normal
          (Canvas.putImageData scratch
             {| Canvas.id_width := Canvas.id_width imageData;
                Canvas.id_height := Canvas.id_height imageData;
                Canvas.id_data := data |})
      end.

(** What a call leaves behind: the engine (its scratch canvas), the
    output canvas, and the exception if one escaped. *)
Record Outcome : Type := {
  after : Engine;
  output : Canvas.Bitmap;
  thrown : option Canvas.DOMException
}.

Definition withCanvas (e : Engine) (c : Canvas.Bitmap) : Engine :=
  {| canvas := c; targetFaceImage := targetFaceImage e; options := options e |}.

Definition processFrame (e : Engine) (sourceVideo : Canvas.Bitmap)
           (sourceFace : option FaceDetection) (outputCanvas : Canvas.Bitmap)
  : Outcome :=
  let width := Canvas.width outputCanvas in
  let height := Canvas.height outputCanvas in
  (* draw the original video frame *)
  let out :=
    Canvas.drawImage 1 None outputCanvas sourceVideo
                     0 0 (JS.num width) (JS.num height) in
  (* no face detected or no target face loaded: the original *)
  match sourceFace, targetFaceImage e with
  | Some sourceFace, Some targetFaceImage =>
    let faceBox := boundingBox sourceFace in
    let padding := 0.15 in
    (* face position and size *)
    let faceX := (bb_x faceBox - bb_width faceBox * padding) * JS.num width in
    let faceY := (bb_y faceBox - bb_height faceBox * padding) * JS.num height in
    let faceW := bb_width faceBox * (1 + padding * 2) * JS.num width in
    let faceH := bb_height faceBox * (1 + padding * 2) * JS.num height in
    (* the scratch canvas, resized and cleared *)
    let scratch := Canvas.blank width height in
    (* elliptical clipping mask *)
    let centerX := faceX + faceW / 2 in
    let centerY := faceY + faceH / 2 in
    match Canvas.ellipse centerX centerY (faceW * 0.42) (faceH * 0.48) with
    | Canvas.Throw ex =>
        {| after := withCanvas e scratch; output := out; thrown := Some ex |}
    | Canvas.Normal clip =>
      (* draw dimensions that keep the aspect ratio *)
      let targetAspect :=
        JS.num (Canvas.width targetFaceImage) / JS.num (Canvas.height targetFaceImage) in
      let sourceAspect := faceW / faceH in
      let drawW := faceW * 1.1 in
      let drawH := faceH * 1.1 in
      let drawX := faceX - faceW * 0.05 in
      let drawY := faceY - faceH * 0.05 in
      let rect :=
        if JS.gt targetAspect sourceAspect then
          let drawH := drawW / targetAspect in
          let drawY := faceY + (faceH - drawH) / 2 in
          (drawX, drawY, drawW, drawH)
        else
          let drawW := drawH * targetAspect in
          let drawX := faceX + (faceW - drawW) / 2 in
          (drawX, drawY, drawW, drawH) in
      let '(drawX, drawY, drawW, drawH) := rect in
      (* draw the target face *)
      let globalAlpha := Canvas.setGlobalAlpha 1 (blendAmount (options e)) in
      let scratch :=
        Canvas.drawImage globalAlpha (Some clip) scratch targetFaceImage
                         drawX drawY drawW drawH in
      (* colour correction if enabled *)
      let scratch :=
        if colorCorrection (options e)
        then applyColorCorrection scratch sourceVideo width height
        else scratch in
      (* feather the edges *)
      match applyFeathering (options e) scratch sourceFace width height with
      | Canvas.Throw ex =>
          {| after := withCanvas e scratch; output := out; thrown := Some ex |}
      | Canvas.Normal scratch =>
        (* composite the swapped face onto the output *)
        match Canvas.drawCanvas 1 out scratch with
        | Canvas.Throw ex =>
            {| after := withCanvas e scratch; output := out; thrown := Some ex |}
        | Canvas.Normal out =>
            {| after := withCanvas e scratch; output := out; thrown := None |}
        end
      end
    end
  | _, _ => {| after := e; output := out; thrown := None |}
  end.

End Compositor.

End FaceSwapEngine.

(** ** A reference browser

    One concrete choice for what the interfaces leave open, used to run
    the definitions on explicit inputs: truncated series for the
    trigonometric functions, an integer square root on a fixed-point
    scale, nearest-neighbour resampling and a clip region that is
    tested at the centre of each pixel. *)

Module Reference.

Definition PI : Q := 3.141592653589793.

(** Rounding down to twelve decimals keeps the fractions small. *)
Definition fixed (v : Q) : Q :=
  Qred (inject_Z (Qfloor (v * 1000000000000)) / 1000000000000).

(** The argument brought into [-π, π). *)
Definition reduce (v : Q) : Q :=
  fixed (v - 2 * PI * inject_Z (Qfloor ((v + PI) / (2 * PI)))).

(** [Σ t_j] with [t_0 = term] and [t_(j+1) = - t_j r² / ((d+1)(d+2))],
    [d] advancing by two. *)
Fixpoint series (n : nat) (r2 term : Q) (d : Z) : Q :=
  match n with
  | O => 0
  | S n' =>
      term + series n' r2
               (fixed (- term * r2 / inject_Z ((d + 1) * (d + 2)))) (d + 2)
  end.

Definition sin (v : Q) : Q :=
  let r := reduce v in fixed (series 12 (fixed (r * r)) r 1).

Definition cos (v : Q) : Q :=
  let r := reduce v in fixed (series 12 (fixed (r * r)) 1 0).

Definition sqrt (v : Q) : Q :=
  inject_Z (Z.sqrt (Qfloor (v * 1000000000000))) / 1000000.

#[export] Instance math : MathLib := {|
  Math_PI := PI;
  Math_sin := sin;
  Math_cos := cos;
  Math_sqrt := sqrt
|}.

(** Nearest neighbour: the source pixel under the centre of the
    destination pixel, nothing outside the destination rectangle. *)
Definition nearest (src : Canvas.Bitmap) (dx dy dw dh : Q) (x y : nat)
  : Canvas.Pixel :=
  let px := JS.num x + 0.5 in
  let py := JS.num y + 0.5 in
  if (JS.lt 0 dw && JS.lt 0 dh && JS.le dx px && JS.lt px (dx + dw)
      && JS.le dy py && JS.lt py (dy + dh))%bool
  then
    Canvas.pixelIn src
      (Qfloor ((px - dx) * JS.num (Canvas.width src) / dw))
      (Qfloor ((py - dy) * JS.num (Canvas.height src) / dh))
  else Canvas.transparentBlack.

(** A pixel is inside the ellipse when its centre is. *)
Definition inside (e : Canvas.Ellipse) (x y : nat) : Q :=
  let ux := (JS.num x + 0.5 - Canvas.e_cx e) / Canvas.e_rx e in
  let uy := (JS.num y + 0.5 - Canvas.e_cy e) / Canvas.e_ry e in
  if (JS.lt 0 (Canvas.e_rx e) && JS.lt 0 (Canvas.e_ry e)
      && JS.le (ux * ux + uy * uy) 1)%bool
  then 1 else 0.

#[export] Instance raster : Canvas.Rasterizer := {|
  Canvas.resample := nearest;
  Canvas.clipCoverage := inside
|}.

End Reference.

(** ** Inputs for the examples *)

Module Examples.

Import FaceSwapEngine.

Definition faceA : PresetFace :=
  {| id := "generic-male-1"; name := "Alex";
     imageUrl := "data:image/png;base64,QQ=="; thumbnailUrl := "data:image/png;base64,QQ==" |}.

Definition faceB : PresetFace :=
  {| id := "generic-female-1"; name := "Sarah";
     imageUrl := "data:image/png;base64,Qg=="; thumbnailUrl := "data:image/png;base64,Qg==" |}.

(** A bitmap of one colour. *)
Definition solid (w h : nat) (p : Canvas.Pixel) : Canvas.Bitmap :=
  {| Canvas.width := w; Canvas.height := h;
     Canvas.data := Canvas.render (w * h) (fun _ => p);
     Canvas.originClean := true |}.

Definition opaque (r g b : Z) : Canvas.Pixel :=
  {| Canvas.red := r; Canvas.green := g; Canvas.blue := b; Canvas.alpha := 255 |}.

Definition imageA : Canvas.Bitmap := solid 2 2 (opaque 0 0 255).
Definition imageB : Canvas.Bitmap := solid 2 2 (opaque 255 0 0).

Definition noOptions : PartialOptions :=
  {| p_blendAmount := None; p_featherAmount := None; p_colorCorrection := None |}.

Definition zeroBlend : PartialOptions :=
  {| p_blendAmount := Some 0; p_featherAmount := None; p_colorCorrection := None |}.





(** An engine with the default options whose target is [imageB]. *)
Definition engineB : Engine :=
  engine (run (newPage (constructor noOptions))
              [CallLoadTargetFace faceB; ImageLoaded 0 imageB]).

(** A black frame, and the same frame from a foreign origin. *)
Definition blackFrame : Canvas.Bitmap := solid 2 2 (opaque 0 0 0).

Definition greyFrame : Canvas.Bitmap := solid 2 2 (opaque 100 100 100).


Definition point (x y : Q) : MediaPipe.NormalizedLandmark :=
  {| MediaPipe.lm_x := x; MediaPipe.lm_y := y; MediaPipe.lm_z := 0 |}.

(** A geometry that covers the frame and has no derived views. *)
Definition bareFace : MediaPipe.FaceDetection :=
  {| MediaPipe.landmarks := [];
     MediaPipe.boundingBox :=
       {| MediaPipe.bb_x := 0; MediaPipe.bb_y := 0;
          MediaPipe.bb_width := 1; MediaPipe.bb_height := 1 |};
     MediaPipe.faceOval := [];
     MediaPipe.leftEye := []; MediaPipe.rightEye := []; MediaPipe.lips := [];
     MediaPipe.noseTip := point 0.5 0.5 |}.

(** The same geometry with a four-point outline. *)
Definition diamondFace : MediaPipe.FaceDetection :=
  {| MediaPipe.landmarks := [];
     MediaPipe.boundingBox := MediaPipe.boundingBox bareFace;
     MediaPipe.faceOval :=
       [point 0.5 0.25; point 0.75 0.5; point 0.5 0.75; point 0.25 0.5];
     MediaPipe.leftEye := []; MediaPipe.rightEye := []; MediaPipe.lips := [];
     MediaPipe.noseTip := point 0.5 0.5 |}.

End Examples.

(** ** Readings of the specification *)

(** The rectangle that encloses an axis-aligned ellipse, from its centre
    and its two half-axes; the reading of the bounding box that the
    specification gives. *)
Definition ellipseBox (cx cy rx ry : Q) : MediaPipe.BoundingBox :=
  {| MediaPipe.bb_x := cx - rx; MediaPipe.bb_y := cy - ry;
     MediaPipe.bb_width := 2 * rx; MediaPipe.bb_height := 2 * ry |}.

Definition sameBox (a b : MediaPipe.BoundingBox) : Prop :=
  MediaPipe.bb_x a == MediaPipe.bb_x b /\
  MediaPipe.bb_y a == MediaPipe.bb_y b /\
  MediaPipe.bb_width a == MediaPipe.bb_width b /\
  MediaPipe.bb_height a == MediaPipe.bb_height b.

(** The pass-through copy: the source frame drawn into the output
    surface at the surface's own size, and nothing else. *)
Definition passThrough {R : Canvas.Rasterizer} (sourceFrame outputSurface : Canvas.Bitmap)
  : Canvas.Bitmap :=
  Canvas.drawImage 1 None outputSurface sourceFrame 0 0
    (JS.num (Canvas.width outputSurface)) (JS.num (Canvas.height outputSurface)).

Definition sumQ (vs : list Q) : Q := fold_right Qplus 0 vs.


(** Euclidean distance, with the square root of the platform. *)
Definition distance {M : MathLib} (x1 y1 x2 y2 : Q) : Q :=
  Math_sqrt ((x1 - x2) * (x1 - x2) + (y1 - y2) * (y1 - y2)).

(** The share of its alpha that a pixel at distance [dist] keeps: a
    straight line through 1 at [maxDist - feather] and 0 at [maxDist]. *)
Definition featherFactor (maxDist feather dist : Q) : Q :=
  1 - (dist - (maxDist - feather)) / feather.

(** Feathering of one pixel, as the specification describes it. *)
Definition featherPixel {M : MathLib} (centerX centerY maxDist feather : Q)
           (x y : nat) (p : Canvas.Pixel) : Canvas.Pixel :=
  let dist := distance (JS.num x) (JS.num y) centerX centerY in
  if ((0 <? Canvas.alpha p)%Z && JS.gt dist (maxDist - feather))%bool
  then
    {| Canvas.red := Canvas.red p; Canvas.green := Canvas.green p;
       Canvas.blue := Canvas.blue p;
       Canvas.alpha :=
         JS.ToUint8Clamp
           (Qmax 0 (Qmin 255 (inject_Z (Canvas.alpha p)
                              * Qmax 0 (featherFactor maxDist feather dist)))) |}
  else p.

(** The 50 x 50 block centred in a frame of the given size (its corner
    is half the frame less half the block, cut to whole pixels), read
    from [b] row by row; what lies outside [b] reads as transparent
    black. *)
Definition centreBlock (b : Canvas.Bitmap) (width height : nat) : list Canvas.Pixel :=
  List.map (fun k =>
         Canvas.pixelIn b
           (JS.toLong (JS.num width / 2 - JS.num 50 / 2) + Z.of_nat (k mod 50))
           (JS.toLong (JS.num height / 2 - JS.num 50 / 2) + Z.of_nat (k / 50)))
      (seq 0 (50 * 50)).

(** Mean of one channel over a block. *)
Definition channelMean (channel : Canvas.Pixel -> Z) (block : list Canvas.Pixel) : Q :=
  sumQ (List.map (fun p => inject_Z (channel p)) block) / JS.num (length block).

(** Source mean over scratch mean, a zero denominator counting as 1,
    clamped to [0.5, 1.5]. *)
Definition channelAdjust (channel : Canvas.Pixel -> Z)
           (sourceBlock scratchBlock : list Canvas.Pixel) : Q :=
  let denominator :=
    if Qeq_bool (channelMean channel scratchBlock) 0 then 1
    else channelMean channel scratchBlock in
  Qmax 0.5 (Qmin 1.5 (channelMean channel sourceBlock / denominator)).

(** Colour correction of one pixel: the channels of a pixel that is not
    transparent are multiplied by the ratios and capped at 255. *)
Definition correctPixel (rAdj gAdj bAdj : Q) (p : Canvas.Pixel) : Canvas.Pixel :=
  if (0 <? Canvas.alpha p)%Z
  then
    {| Canvas.red := JS.ToUint8Clamp (Qmin 255 (inject_Z (Canvas.red p) * rAdj));
       Canvas.green := JS.ToUint8Clamp (Qmin 255 (inject_Z (Canvas.green p) * gAdj));
       Canvas.blue := JS.ToUint8Clamp (Qmin 255 (inject_Z (Canvas.blue p) * bAdj));
       Canvas.alpha := Canvas.alpha p |}
  else p.

(** Every pixel of the bitmap is fully transparent. *)
Definition invisible (b : Canvas.Bitmap) : Prop :=
  forall x y, (x < Canvas.width b)%nat -> (y < Canvas.height b)%nat ->
    Canvas.alpha (Canvas.pixelAt b x y) = 0%Z.

(** What a caller can observe of a composite: the output canvas, the
    exception if any, and the scratch canvas. *)
Definition observable (r : FaceSwapEngine.Outcome)
  : Canvas.Bitmap * option Canvas.DOMException * Canvas.Bitmap :=
  (FaceSwapEngine.output r, FaceSwapEngine.thrown r,
   FaceSwapEngine.canvas (FaceSwapEngine.after r)).

(** Request numbers are handed out in order: every request in flight
    has a number below [calls]. *)
Definition numbered (pg : FaceSwapEngine.Page) : Prop :=
  forall k face,
    FaceSwapEngine.requests pg !! k = Some face -> (k < FaceSwapEngine.calls pg)%nat.

(** The lengths of the sequences of a conforming value. *)
Definition lengthsOf (o : option MediaPipe.FaceDetection) : list nat :=
  match o with
  | Some d => [length (MediaPipe.landmarks d); length (MediaPipe.faceOval d);
               length (MediaPipe.leftEye d); length (MediaPipe.rightEye d);
               length (MediaPipe.lips d)]
  | None => []
  end.

(** ** hooks/useFaceSwap.ts *)

Module UseFaceSwap.

Import MediaPipe.

Section Generator.
Context {M : MathLib}.

(** The hook's own copy of the generator. *)
Definition generateFaceDetection : FaceDetectionValue :=
  let centerX := 0.5 in
  let centerY := 0.45 in
  let faceWidth := 0.35 in
  let faceHeight := 0.45 in
  (* approximate face oval points *)
  let numPoints := 36%nat in
  let ovalPoints : JsArray.t NormalizedLandmark :=
    JS.for_range 0 numPoints (fun i ovalPoints =>
      let angle := (JS.num i / JS.num numPoints) * Math_PI * 2 in
      JsArray.push ovalPoints
        {| lm_x := centerX + Math_cos angle * faceWidth * 0.4;
           lm_y := centerY + Math_sin angle * faceHeight * 0.45;
           lm_z := 0 |}) [] in
  (* 468 placeholder landmarks *)
  let landmarks : JsArray.t NormalizedLandmark :=
    JS.for_range 0 468 (fun i landmarks =>
      JsArray.push landmarks
        {| lm_x := centerX + (Math_sin (JS.num i * 0.1) * 0.1);
           lm_y := centerY + (Math_cos (JS.num i * 0.1) * 0.1);
           lm_z := 0 |}) [] in
  (* specific landmark positions *)
  let landmarks :=
    JsArray.set landmarks NOSE_TIP_INDEX
      (Some {| lm_x := centerX; lm_y := centerY + 0.05; lm_z := 0 |}) in
  (* left eye area *)
  let leftEyeX := centerX - 0.08 in
  let leftEyeY := centerY - 0.05 in
  let landmarks :=
    JS.forEach LEFT_EYE_INDICES (fun idx i landmarks =>
      JsArray.set landmarks idx
        (Some {| lm_x := leftEyeX + (JS.num i - 3) * 0.01;
                 lm_y := leftEyeY + Math_sin (JS.num i) * 0.01;
                 lm_z := 0 |})) landmarks in
  (* right eye area *)
  let rightEyeX := centerX + 0.08 in
  let rightEyeY := centerY - 0.05 in
  let landmarks :=
    JS.forEach RIGHT_EYE_INDICES (fun idx i landmarks =>
      JsArray.set landmarks idx
        (Some {| lm_x := rightEyeX + (JS.num i - 3) * 0.01;
                 lm_y := rightEyeY + Math_sin (JS.num i) * 0.01;
                 lm_z := 0 |})) landmarks in
  (* lips *)
  let lipsY := centerY + 0.15 in
  let landmarks :=
    JS.forEach LIPS_INDICES (fun idx i landmarks =>
      JsArray.set landmarks idx
        (Some {| lm_x := centerX + (JS.num i - 5) * 0.015;
                 lm_y := lipsY + Math_sin (JS.num i * 0.5) * 0.01;
                 lm_z := 0 |})) landmarks in
  (* face oval *)
  let landmarks :=
    JS.forEach FACE_OVAL_INDICES (fun idx i landmarks =>
      JsArray.set landmarks idx
        (JsArray.get ovalPoints (i mod length ovalPoints))) landmarks in
  {| v_landmarks := landmarks;
     v_boundingBox :=
       {| bb_x := centerX - faceWidth / 2;
          bb_y := centerY - faceHeight / 2;
          bb_width := faceWidth;
          bb_height := faceHeight |};
     v_faceOval := JsArray.gather landmarks FACE_OVAL_INDICES;
     v_leftEye := JsArray.gather landmarks LEFT_EYE_INDICES;
     v_rightEye := JsArray.gather landmarks RIGHT_EYE_INDICES;
     v_lips := JsArray.gather landmarks LIPS_INDICES;
     v_noseTip := JsArray.get landmarks NOSE_TIP_INDEX |}.

End Generator.

(** The state of the hook that selecting, clearing, toggling and
    rendering read and write, once the component is mounted: [page] is
    [faceSwapEngineRef.current] with the loads it has in flight. *)
Record Hook : Type := {
  page : FaceSwapEngine.Page;
  isFaceSwapEnabled : bool;
  selectedFace : option FaceSwapEngine.PresetFace;
  currentFace : option FaceDetectionValue;
  error : option string
}.

(** The effect that runs on mount:
    [new FaceSwapEngine({blendAmount: 0.95, featherAmount: 20, colorCorrection: false})]. *)
Definition mounted : Hook :=
  {| page :=
       FaceSwapEngine.newPage
         (FaceSwapEngine.constructor
            {| FaceSwapEngine.p_blendAmount := Some 0.95;
               FaceSwapEngine.p_featherAmount := Some 20;
               FaceSwapEngine.p_colorCorrection := Some false |});
     isFaceSwapEnabled := false;
     selectedFace := None;
     currentFace := None;
     error := None |}.

(** [selectFace(face)] up to the [await]. *)
Definition selectFace (h : Hook) (face : FaceSwapEngine.PresetFace) : Hook :=
  {| page := FaceSwapEngine.loadTargetFace (page h) face;
     isFaceSwapEnabled := isFaceSwapEnabled h;
     selectedFace := selectedFace h;
     currentFace := currentFace h;
     error := None |}.

(** The image of request [k] loads: [img.onload] resolves the promise
    and the rest of [selectFace] runs. *)
Definition selectResolved (h : Hook) (k : nat) (img : Canvas.Bitmap) : Hook :=
  match FaceSwapEngine.requests (page h) !! k with
  | Some face =>
      {| page := FaceSwapEngine.onload (page h) k img;
         isFaceSwapEnabled := true;
         selectedFace := Some face;
         currentFace := currentFace h;
         error := error h |}
  | None => h
  end.

(** The image of request [k] fails: [img.onerror] rejects the promise
    and the [catch] of [selectFace] runs; [`${err}`] of an [Error] is
    ["Error: "] followed by its message. *)
Definition selectRejected (h : Hook) (k : nat) : Hook :=
  match FaceSwapEngine.requests (page h) !! k with
  | Some _ =>
      let pg := FaceSwapEngine.onerror (page h) k in
      match FaceSwapEngine.promises pg !! k with
      | Some (FaceSwapEngine.Rejected message) =>
          {| page := pg;
             isFaceSwapEnabled := isFaceSwapEnabled h;
             selectedFace := selectedFace h;
             currentFace := currentFace h;
             error :=
               Some (String.append "Failed to load face: " (String.append "Error: " message)) |}
      | _ =>
          {| page := pg;
             isFaceSwapEnabled := isFaceSwapEnabled h;
             selectedFace := selectedFace h;
             currentFace := currentFace h;
             error := error h |}
      end
  | None => h
  end.

Definition clearFace (h : Hook) : Hook :=
  {| page := FaceSwapEngine.onEngine FaceSwapEngine.clearTargetFace (page h);
     isFaceSwapEnabled := false;
     selectedFace := None;
     currentFace := currentFace h;
     error := error h |}.

Definition toggleFaceSwap (h : Hook) : Hook :=
  match selectedFace h with
  | None =>
      {| page := page h;
         isFaceSwapEnabled := isFaceSwapEnabled h;
         selectedFace := selectedFace h;
         currentFace := currentFace h;
         error := Some "Please select a face first" |}
  | Some _ =>
      {| page := page h;
         isFaceSwapEnabled := negb (isFaceSwapEnabled h);
         selectedFace := selectedFace h;
         currentFace := currentFace h;
         error := error h |}
  end.

(** What the user and the browser can do to the hook. *)
Inductive Action : Type :=
| SelectFace (face : FaceSwapEngine.PresetFace)
| ClearFace
| ToggleFaceSwap
| Decoded (k : nat) (img : Canvas.Bitmap)
| DecodeFailed (k : nat).

Definition act (h : Hook) (a : Action) : Hook :=
  match a with
  | SelectFace face => selectFace h face
  | ClearFace => clearFace h
  | ToggleFaceSwap => toggleFaceSwap h
  | Decoded k img => selectResolved h k img
  | DecodeFailed k => selectRejected h k
  end.

Definition perform (h : Hook) (actions : list Action) : Hook := fold_left act actions h.

(** What one run of [render] can throw: an exception of a canvas call,
    or the [TypeError] of reading a property of [undefined]. *)
Inductive Exception : Type :=
| DOM (e : Canvas.DOMException)
| TypeError.

(** What one run of [render] leaves behind; [scheduled] tells whether
    it reached [requestAnimationFrame(render)]. *)
Record Rendered : Type := {
  hook : Hook;
  originalCanvas : option Canvas.Bitmap;
  swappedCanvas : option Canvas.Bitmap;
  thrown : option Exception;
  scheduled : bool
}.

Definition withEngine (h : Hook) (e : FaceSwapEngine.Engine)
           (face : option FaceDetectionValue) : Hook :=
  {| page :=
       {| FaceSwapEngine.engine := e;
          FaceSwapEngine.requests := FaceSwapEngine.requests (page h);
          FaceSwapEngine.promises := FaceSwapEngine.promises (page h);
          FaceSwapEngine.calls := FaceSwapEngine.calls (page h) |};
     isFaceSwapEnabled := isFaceSwapEnabled h;
     selectedFace := selectedFace h;
     currentFace := face;
     error := error h |}.

Section Render.
Context {M : MathLib} {R : Canvas.Rasterizer}.

(** One run of [render], the body of the animation loop; the three
    arguments are [videoRef.current], [originalCanvasRef.current] and
    [swappedCanvasRef.current]. *)
Definition render (h : Hook) (video originalCanvas swappedCanvas : option Canvas.Bitmap)
  : Rendered :=
  let engine := FaceSwapEngine.engine (page h) in
  match video, originalCanvas, swappedCanvas with
  | Some video, Some _, Some _ =>
    let width := if (Canvas.width video =? 0)%nat then 640%nat else Canvas.width video in
    let height := if (Canvas.height video =? 0)%nat then 480%nat else Canvas.height video in
    (* set the canvas sizes *)
    let originalCanvas := Canvas.blank width height in
    let swappedCanvas := Canvas.blank width height in
    (* draw the original frame *)
    let originalCanvas :=
      Canvas.drawImage 1 None originalCanvas video 0 0 (JS.num width) (JS.num height) in
    (* draw the swapped frame *)
    if (isFaceSwapEnabled h && FaceSwapEngine.hasTargetFace engine)%bool then
      let faceDetection := generateFaceDetection in
      match conforms faceDetection with
      | Some face =>
          let r := FaceSwapEngine.processFrame engine video (Some face) swappedCanvas in
          {| hook := withEngine h (FaceSwapEngine.after r) (Some faceDetection);
             originalCanvas := Some originalCanvas;
             swappedCanvas := Some (FaceSwapEngine.output r);
             thrown := option_map DOM (FaceSwapEngine.thrown r);
             scheduled :=
               match FaceSwapEngine.thrown r with
               | Some _ => false
               | None => true
               end |}
      | None =>
          (* an [undefined] entry of the geometry *)
          {| hook := withEngine h engine (Some faceDetection);
             originalCanvas := Some originalCanvas;
             swappedCanvas := Some swappedCanvas;
             thrown := Some TypeError;
             scheduled := false |}
      end
    else
      (* just copy the original *)
      {| hook := withEngine h engine None;
         originalCanvas := Some originalCanvas;
         swappedCanvas :=
           Some (Canvas.drawImage 1 None swappedCanvas video 0 0
                   (JS.num width) (JS.num height));
         thrown := None;
         scheduled := true |}
  | _, _, _ =>
      {| hook := h; originalCanvas := originalCanvas; swappedCanvas := swappedCanvas;
         thrown := None; scheduled := true |}
  end.

End Render.

End UseFaceSwap.

(** ** A browser whose sine and cosine stay within [-1, 1]

    The trigonometric functions of the reference browser, cut off at
    -1 and 1. *)

Module Saturated.

Definition unit (v : Q) : Q := Qmax (-1) (Qmin 1 v).

#[export] Instance math : MathLib := {|
  Math_PI := Reference.PI;
  Math_sin := fun v => unit (Reference.sin v);
  Math_cos := fun v => unit (Reference.cos v);
  Math_sqrt := Reference.sqrt
|}.

End Saturated.

(** ** Readings for the further properties *)

(** The elliptical clip region of a composite: the padded face box,
    scaled to the output canvas, with 0.42 and 0.48 of its sides as
    half-axes. *)
Definition faceClip (faceBox : MediaPipe.BoundingBox) (width height : nat)
  : Canvas.Ellipse :=
  let padding := 0.15 in
  let faceX :=
    (MediaPipe.bb_x faceBox - MediaPipe.bb_width faceBox * padding) * JS.num width in
  let faceY :=
    (MediaPipe.bb_y faceBox - MediaPipe.bb_height faceBox * padding) * JS.num height in
  let faceW := MediaPipe.bb_width faceBox * (1 + padding * 2) * JS.num width in
  let faceH := MediaPipe.bb_height faceBox * (1 + padding * 2) * JS.num height in
  {| Canvas.e_cx := faceX + faceW / 2; Canvas.e_cy := faceY + faceH / 2;
     Canvas.e_rx := faceW * 0.42; Canvas.e_ry := faceH * 0.48 |}.

(** The rectangle the target is drawn into: the padded face box grown
    by a tenth, cut down on one side to the aspect ratio of the target
    and centred on the box. *)
Definition targetRect (faceBox : MediaPipe.BoundingBox) (target : Canvas.Bitmap)
           (width height : nat) : Q * Q * Q * Q :=
  let padding := 0.15 in
  let faceX :=
    (MediaPipe.bb_x faceBox - MediaPipe.bb_width faceBox * padding) * JS.num width in
  let faceY :=
    (MediaPipe.bb_y faceBox - MediaPipe.bb_height faceBox * padding) * JS.num height in
  let faceW := MediaPipe.bb_width faceBox * (1 + padding * 2) * JS.num width in
  let faceH := MediaPipe.bb_height faceBox * (1 + padding * 2) * JS.num height in
  let targetAspect := JS.num (Canvas.width target) / JS.num (Canvas.height target) in
  let sourceAspect := faceW / faceH in
  let drawW := faceW * 1.1 in
  let drawH := faceH * 1.1 in
  let drawX := faceX - faceW * 0.05 in
  let drawY := faceY - faceH * 0.05 in
  if JS.gt targetAspect sourceAspect then
    let drawH := drawW / targetAspect in
    let drawY := faceY + (faceH - drawH) / 2 in
    (drawX, drawY, drawW, drawH)
  else
    let drawW := drawH * targetAspect in
    let drawX := faceX + (faceW - drawW) / 2 in
    (drawX, drawY, drawW, drawH).

(** The steps of [processFrame] that follow the drawing of the target
    into the scratch canvas: colour correction if enabled, feathering,
    and the composite onto the output. *)
Definition overlaid {M : MathLib} {R : Canvas.Rasterizer}
           (e : FaceSwapEngine.Engine) (sourceVideo out scratch : Canvas.Bitmap)
           (sourceFace : MediaPipe.FaceDetection) (width height : nat)
  : FaceSwapEngine.Outcome :=
  let scratch :=
    if FaceSwapEngine.colorCorrection (FaceSwapEngine.options e)
    then FaceSwapEngine.applyColorCorrection scratch sourceVideo width height
    else scratch in
  match FaceSwapEngine.applyFeathering (FaceSwapEngine.options e) scratch sourceFace
          width height with
  | Canvas.Throw ex =>
      {| FaceSwapEngine.after := FaceSwapEngine.withCanvas e scratch;
         FaceSwapEngine.output := out; FaceSwapEngine.thrown := Some ex |}
  | Canvas.Normal scratch =>
      match Canvas.drawCanvas 1 out scratch with
      | Canvas.Throw ex =>
          {| FaceSwapEngine.after := FaceSwapEngine.withCanvas e scratch;
             FaceSwapEngine.output := out; FaceSwapEngine.thrown := Some ex |}
      | Canvas.Normal out =>
          {| FaceSwapEngine.after := FaceSwapEngine.withCanvas e scratch;
             FaceSwapEngine.output := out; FaceSwapEngine.thrown := None |}
      end
  end.

(** The place of an index in an index list. *)
Fixpoint position (i : nat) (idx : list nat) : option nat :=
  match idx with
  | [] => None
  | j :: rest => if (j =? i)%nat then Some 0%nat else option_map S (position i rest)
  end.

(** The points the generators give to each region of the face. *)
Section GeneratedPoints.
Context {M : MathLib}.

Definition ovalPoint (i : nat) : MediaPipe.NormalizedLandmark :=
  {| MediaPipe.lm_x := 0.5 + Math_cos (JS.num i / JS.num 36 * Math_PI * 2) * 0.35 * 0.4;
     MediaPipe.lm_y := 0.45 + Math_sin (JS.num i / JS.num 36 * Math_PI * 2) * 0.45 * 0.45;
     MediaPipe.lm_z := 0 |}.

Definition eyePoint (eyeX : Q) (i : nat) : MediaPipe.NormalizedLandmark :=
  {| MediaPipe.lm_x := eyeX + (JS.num i - 3) * 0.01;
     MediaPipe.lm_y := 0.45 - 0.05 + Math_sin (JS.num i) * 0.01;
     MediaPipe.lm_z := 0 |}.

Definition lipsPoint (i : nat) : MediaPipe.NormalizedLandmark :=
  {| MediaPipe.lm_x := 0.5 + (JS.num i - 5) * 0.015;
     MediaPipe.lm_y := 0.45 + 0.15 + Math_sin (JS.num i * 0.5) * 0.01;
     MediaPipe.lm_z := 0 |}.

Definition nosePoint : MediaPipe.NormalizedLandmark :=
  {| MediaPipe.lm_x := 0.5; MediaPipe.lm_y := 0.45 + 0.05; MediaPipe.lm_z := 0 |}.

Definition placeholderPoint (i : nat) : MediaPipe.NormalizedLandmark :=
  {| MediaPipe.lm_x := 0.5 + Math_sin (JS.num i * 0.1) * 0.1;
     MediaPipe.lm_y := 0.45 + Math_cos (JS.num i * 0.1) * 0.1;
     MediaPipe.lm_z := 0 |}.

(** The landmark at index [i]: the point of the region whose index
    list names [i], the placeholder otherwise. *)
Definition assignedPoint (i : nat) : MediaPipe.NormalizedLandmark :=
  match position i MediaPipe.FACE_OVAL_INDICES with
  | Some j => ovalPoint j
  | None =>
  match position i MediaPipe.LIPS_INDICES with
  | Some j => lipsPoint j
  | None =>
  match position i MediaPipe.RIGHT_EYE_INDICES with
  | Some j => eyePoint (0.5 + 0.08) j
  | None =>
  match position i MediaPipe.LEFT_EYE_INDICES with
  | Some j => eyePoint (0.5 - 0.08) j
  | None =>
      if (i =? MediaPipe.NOSE_TIP_INDEX)%nat then nosePoint else placeholderPoint i
  end end end end.

End GeneratedPoints.

(** The landmark lies within the box. *)
Definition inBox (box : MediaPipe.BoundingBox) (p : MediaPipe.NormalizedLandmark) : Prop :=
  MediaPipe.bb_x box <= MediaPipe.lm_x p <= MediaPipe.bb_x box + MediaPipe.bb_width box /\
  MediaPipe.bb_y box <= MediaPipe.lm_y p <= MediaPipe.bb_y box + MediaPipe.bb_height box.


(** The action is the completion, either way, of request [k]. *)
Definition completes (k : nat) (a : UseFaceSwap.Action) : bool :=
  match a with
  | UseFaceSwap.Decoded k' _ => (k' =? k)%nat
  | UseFaceSwap.DecodeFailed k' => (k' =? k)%nat
  | _ => false
  end.

(** The call or browser event on the engine's page that an action of
    the hook amounts to; toggling does not reach the engine. *)
Definition pageEvent (a : UseFaceSwap.Action) : option FaceSwapEngine.Event :=
  match a with
  | UseFaceSwap.SelectFace face => Some (FaceSwapEngine.CallLoadTargetFace face)
  | UseFaceSwap.ClearFace => Some FaceSwapEngine.CallClearTargetFace
  | UseFaceSwap.ToggleFaceSwap => None
  | UseFaceSwap.Decoded k img => Some (FaceSwapEngine.ImageLoaded k img)
  | UseFaceSwap.DecodeFailed k => Some (FaceSwapEngine.ImageFailed k)
  end.



(** The option updates of the [setOptions] calls, in order. *)
Definition optionUpdates (evs : list FaceSwapEngine.Event)
  : list FaceSwapEngine.PartialOptions :=
  flat_map (fun ev =>
              match ev with
              | FaceSwapEngine.CallSetOptions opts => [opts]
              | _ => []
              end) evs.

(** ** Further inputs *)

Module Scenes.

(** A geometry whose box has a negative width. *)
Definition invertedFace : MediaPipe.FaceDetection :=
  {| MediaPipe.landmarks := [];
     MediaPipe.boundingBox :=
       {| MediaPipe.bb_x := 0.5; MediaPipe.bb_y := 0;
          MediaPipe.bb_width := -0.5; MediaPipe.bb_height := 1 |};
     MediaPipe.faceOval := MediaPipe.faceOval Examples.diamondFace;
     MediaPipe.leftEye := []; MediaPipe.rightEye := []; MediaPipe.lips := [];
     MediaPipe.noseTip := Examples.point 0.5 0.5 |}.

(** A geometry whose box covers the middle fifth of the frame. *)
Definition smallFace : MediaPipe.FaceDetection :=
  {| MediaPipe.landmarks := [];
     MediaPipe.boundingBox :=
       {| MediaPipe.bb_x := 0.4; MediaPipe.bb_y := 0.4;
          MediaPipe.bb_width := 0.2; MediaPipe.bb_height := 0.2 |};
     MediaPipe.faceOval := MediaPipe.faceOval Examples.diamondFace;
     MediaPipe.leftEye := []; MediaPipe.rightEye := []; MediaPipe.lips := [];
     MediaPipe.noseTip := Examples.point 0.5 0.5 |}.

(** Full opacity, and full opacity without feathering. *)
Definition fullBlend : FaceSwapEngine.PartialOptions :=
  {| FaceSwapEngine.p_blendAmount := Some 1; FaceSwapEngine.p_featherAmount := None;
     FaceSwapEngine.p_colorCorrection := None |}.

Definition plainOverlay : FaceSwapEngine.PartialOptions :=
  {| FaceSwapEngine.p_blendAmount := Some 1; FaceSwapEngine.p_featherAmount := Some 0;
     FaceSwapEngine.p_colorCorrection := None |}.

(** A blend amount below the range of [globalAlpha]. *)
Definition negativeBlend : FaceSwapEngine.PartialOptions :=
  {| FaceSwapEngine.p_blendAmount := Some (-0.2); FaceSwapEngine.p_featherAmount := None;
     FaceSwapEngine.p_colorCorrection := None |}.

(** The hook after face A was selected, before its image arrives, and
    after the image arrived. *)
Definition selecting : UseFaceSwap.Hook :=
  UseFaceSwap.perform UseFaceSwap.mounted [UseFaceSwap.SelectFace Examples.faceA].

Definition selected : UseFaceSwap.Hook :=
  UseFaceSwap.perform selecting [UseFaceSwap.Decoded 0 Examples.imageA].

End Scenes.

(** * Properties *)

(** ** The definitions at work *)

Example ToUint8Clamp_rounds_to_even :
  List.map JS.ToUint8Clamp [0.5; 1.5; 2.5; 127.5; 254.5; 300; -3]
  = [0; 2; 2; 128; 254; 255; 0]%Z.
Proof. vm_compute. reflexivity. Qed.

Example toLong_truncates : (JS.toLong (-3.5), JS.toLong 295.5) = ((-3)%Z, 295%Z).
Proof. vm_compute. reflexivity. Qed.

Example JsArray_set_grows :
  JsArray.set [Some 1%nat] 3 (Some 9%nat) = [Some 1%nat; None; None; Some 9%nat].
Proof. reflexivity. Qed.

(** The first outline point of the generated face is the right end of
    the ellipse, (0.64, 0.45), and the nose tip is (0.5, 0.5). *)
Example generated_points :
  let face := @MediaPipe.generateSimpleFaceDetection Reference.math in
  let reduced (p : option MediaPipe.NormalizedLandmark) :=
    match p with
    | Some q => Some (Qred (MediaPipe.lm_x q), Qred (MediaPipe.lm_y q))
    | None => None
    end in
  reduced (JsArray.get (MediaPipe.v_faceOval face) 0) = Some (16 # 25, 9 # 20) /\
  reduced (MediaPipe.v_noseTip face) = Some (1 # 2, 1 # 2).
Proof. vm_compute. split; reflexivity. Qed.

(** A composite on a black 2 x 2 frame with the red target, the default
    options and the four-point outline: the outline's centre is (1, 1)
    and its radius 0.5, so with a feather of 20 only the pixel at the
    centre keeps a trace of the overlay. *)
Example composite_feathered :
  let r :=
    @FaceSwapEngine.processFrame Reference.math Reference.raster
      Examples.engineB Examples.blackFrame (Some Examples.diamondFace)
      (Canvas.blank 2 2) in
  FaceSwapEngine.thrown r = None /\
  List.map (fun k => Canvas.red (Canvas.pixelAt (FaceSwapEngine.output r) (k mod 2) (k / 2)))
           (seq 0 4)
  = [0; 0; 0; 6]%Z.
Proof. vm_compute. split; reflexivity. Qed.

(** ** The geometry generator *)

Section GeneratorFacts.
Context {M : MathLib}.
Import MediaPipe.

Lemma generated_landmarks_length :
  length (v_landmarks generateSimpleFaceDetection) = 468%nat.
Proof. vm_compute. reflexivity. Qed.

Lemma generated_lengths :
  lengthsOf (conforms generateSimpleFaceDetection) = [468; 36; 6; 6; 11]%nat.
Proof. vm_compute. reflexivity. Qed.

Lemma generated_conforms :
  exists fd : FaceDetection,
    conforms generateSimpleFaceDetection = Some fd /\
    length (landmarks fd) = 468%nat /\
    length (faceOval fd) = 36%nat /\
    length (leftEye fd) = 6%nat /\
    length (rightEye fd) = 6%nat /\
    length (lips fd) = 11%nat.
Proof.
  pose proof generated_lengths as H.
  generalize dependent (conforms generateSimpleFaceDetection).
  intros [fd|] H; [|discriminate H].
  exists fd. unfold lengthsOf in H.
  injection H as -> -> -> -> ->. repeat split.
Qed.

End GeneratorFacts.

(** C3, as stated, fails: the bounding box is not the rectangle of the
    ellipse with centre (0.5, 0.45), half-width 0.35 and half-height
    0.45; that rectangle is 0.70 wide while the box is 0.35 wide. *)
Lemma boundingBox_not_half_axes :
  ~ sameBox (MediaPipe.v_boundingBox (@MediaPipe.generateSimpleFaceDetection Reference.math))
            (ellipseBox 0.5 0.45 0.35 0.45).
Proof.
  intros (_ & _ & Hw & _). lazy in Hw. discriminate Hw.
Qed.

(** C3, amended: whatever the trigonometric functions return, hence
    whatever the landmarks are, the bounding box is the rectangle
    (0.325, 0.225, 0.35, 0.45): centred at (0.5, 0.45), 0.35 wide and
    0.45 high, so that 0.35 and 0.45 are its full extents and its
    half-extents are 0.175 and 0.225. *)
Theorem boundingBox_fixed_constants (M : MathLib) :
  let box := MediaPipe.v_boundingBox MediaPipe.generateSimpleFaceDetection in
  sameBox box (ellipseBox 0.5 0.45 0.175 0.225) /\
  MediaPipe.bb_x box == 0.325 /\ MediaPipe.bb_y box == 0.225 /\
  MediaPipe.bb_width box == 0.35 /\ MediaPipe.bb_height box == 0.45.
Proof.
  cbv zeta. unfold sameBox. cbn. repeat split; reflexivity.
Qed.

(** C6: the landmark sequence has exactly 468 entries, and the result
    is the same value on every call: the hook's [processFrame] returns
    it for any two frames, of any kind, it is handed. *)
Theorem generator_deterministic_468 (M : MathLib) :
  length (MediaPipe.v_landmarks MediaPipe.generateSimpleFaceDetection) = 468%nat /\
  forall (V1 V2 : Type) (frame1 : V1) (frame2 : V2),
    MediaPipe.processFrame true frame1 = [MediaPipe.generateSimpleFaceDetection] /\
    MediaPipe.processFrame true frame2 = MediaPipe.processFrame true frame1.
Proof.
  split; [apply generated_landmarks_length|].
  intros V1 V2 frame1 frame2. split; reflexivity.
Qed.

(** C10: every index of the landmark convention is below 468, the index
    sets have 36, 6, 6, 11 entries, the overwrites leave the landmark
    array at 468 entries (none of them grew it), and no read produced
    [undefined]: the returned value conforms to [FaceDetection]. *)
Theorem landmark_indices_in_bounds (M : MathLib) :
  (Forall (fun i => (i < 468)%nat) MediaPipe.FACE_OVAL_INDICES /\
   Forall (fun i => (i < 468)%nat) MediaPipe.LEFT_EYE_INDICES /\
   Forall (fun i => (i < 468)%nat) MediaPipe.RIGHT_EYE_INDICES /\
   Forall (fun i => (i < 468)%nat) MediaPipe.LIPS_INDICES /\
   (MediaPipe.NOSE_TIP_INDEX < 468)%nat) /\
  (length MediaPipe.FACE_OVAL_INDICES = 36%nat /\
   length MediaPipe.LEFT_EYE_INDICES = 6%nat /\
   length MediaPipe.RIGHT_EYE_INDICES = 6%nat /\
   length MediaPipe.LIPS_INDICES = 11%nat) /\
  length (MediaPipe.v_landmarks MediaPipe.generateSimpleFaceDetection) = 468%nat /\
  exists fd : MediaPipe.FaceDetection,
    MediaPipe.conforms MediaPipe.generateSimpleFaceDetection = Some fd /\
    length (MediaPipe.landmarks fd) = 468%nat /\
    length (MediaPipe.faceOval fd) = 36%nat /\
    length (MediaPipe.leftEye fd) = 6%nat /\
    length (MediaPipe.rightEye fd) = 6%nat /\
    length (MediaPipe.lips fd) = 11%nat.
Proof.
  split; [|split; [|split]].
  - unfold MediaPipe.NOSE_TIP_INDEX.
    repeat split; try lia; repeat (constructor; [lia|]); constructor.
  - repeat split.
  - apply generated_landmarks_length.
  - apply generated_conforms.
Qed.

(** ** Loading and clearing the target *)

Section PageFacts.
Import FaceSwapEngine.

Lemma numbered_newPage (e : Engine) : numbered (newPage e).
Proof. intros k face H. cbn in H. rewrite lookup_empty in H. discriminate. Qed.

Lemma numbered_step (pg : Page) (ev : Event) :
  numbered pg -> numbered (step pg ev).
Proof.
  intros Hn k face. destruct ev as [f| |o|k' img|k']; cbn.
  - destruct (decide (calls pg = k)) as [<-|Hne].
    + intros _. lia.
    + rewrite lookup_insert_ne by exact Hne. intros H. apply Hn in H. lia.
  - apply Hn.
  - apply Hn.
  - unfold onload. destruct (requests pg !! k') eqn:E; cbn; [|apply Hn].
    destruct (decide (k' = k)) as [->|Hne].
    + rewrite lookup_delete_eq. discriminate.
    + rewrite lookup_delete_ne by exact Hne. apply Hn.
  - unfold onerror. destruct (requests pg !! k') eqn:E; cbn; [|apply Hn].
    destruct (decide (k' = k)) as [->|Hne].
    + rewrite lookup_delete_eq. discriminate.
    + rewrite lookup_delete_ne by exact Hne. apply Hn.
Qed.

Lemma numbered_run (evs : list Event) (pg : Page) :
  numbered pg -> numbered (run pg evs).
Proof.
  revert pg. induction evs as [|ev evs IH]; intros pg Hn; [exact Hn|].
  cbn. apply IH, numbered_step, Hn.
Qed.

Lemma run_app (pg : Page) (evs1 evs2 : list Event) :
  run pg (evs1 ++ evs2) = run (run pg evs1) evs2.
Proof. unfold run. apply fold_left_app. Qed.

(** An event that does not complete request [k] leaves it in flight. *)
Lemma step_keeps_request (pg : Page) (ev : Event) (k : nat) (face : PresetFace) :
  numbered pg -> settles k ev = false ->
  requests pg !! k = Some face -> requests (step pg ev) !! k = Some face.
Proof.
  intros Hn Hs Hk. destruct ev as [f| |o|k' img|k']; cbn in *.
  - rewrite lookup_insert_ne; [exact Hk|]. apply Hn in Hk. lia.
  - exact Hk.
  - exact Hk.
  - apply Nat.eqb_neq in Hs. unfold onload.
    destruct (requests pg !! k'); cbn; [|exact Hk].
    rewrite lookup_delete_ne by exact Hs. exact Hk.
  - apply Nat.eqb_neq in Hs. unfold onerror.
    destruct (requests pg !! k'); cbn; [|exact Hk].
    rewrite lookup_delete_ne by exact Hs. exact Hk.
Qed.

Lemma run_keeps_request (evs : list Event) (pg : Page) (k : nat) (face : PresetFace) :
  numbered pg -> forallb (fun ev => negb (settles k ev)) evs = true ->
  requests pg !! k = Some face -> requests (run pg evs) !! k = Some face.
Proof.
  revert pg. induction evs as [|ev evs IH]; intros pg Hn Hs Hk; [exact Hk|].
  cbn in Hs. apply andb_true_iff in Hs as [Hev Hs]. apply negb_true_iff in Hev.
  cbn. apply IH; [apply numbered_step, Hn | exact Hs |].
  apply step_keeps_request; assumption.
Qed.

Lemma onload_installs (pg : Page) (k : nat) (face : PresetFace) (img : Canvas.Bitmap) :
  requests pg !! k = Some face ->
  targetFaceImage (engine (onload pg k img)) = Some img /\
  promises (onload pg k img) !! k = Some Fulfilled.
Proof.
  intros H. unfold onload. rewrite H. cbn. split; [reflexivity|].
  apply lookup_insert_eq.
Qed.

End PageFacts.

(** C1, as stated, fails: load A, load B, clear while both decodes are
    outstanding, then B's decode completes; [hasTargetFace] is not
    false. *)
Lemma cleared_load_still_lands :
  FaceSwapEngine.hasTargetFace
    (FaceSwapEngine.engine
       (FaceSwapEngine.run
          (FaceSwapEngine.newPage (FaceSwapEngine.constructor Examples.noOptions))
          [FaceSwapEngine.CallLoadTargetFace Examples.faceA;
           FaceSwapEngine.CallLoadTargetFace Examples.faceB;
           FaceSwapEngine.CallClearTargetFace;
           FaceSwapEngine.ImageLoaded 1 Examples.imageB])) <> false.
Proof. vm_compute. discriminate. Qed.

(** C1, amended: there is no cancellation.  A load that is in flight
    stays in flight through any later calls of [clearTargetFace],
    [loadTargetFace] and [setOptions] and through the completion of
    other loads, and when its decode succeeds its image becomes the
    current target, so [hasTargetFace] is true: the last decode to
    complete wins, not the last call. *)
Theorem load_in_flight_lands
  (e : FaceSwapEngine.Engine) (before during : list FaceSwapEngine.Event)
  (k : nat) (face : FaceSwapEngine.PresetFace) (img : Canvas.Bitmap) :
  FaceSwapEngine.requests
    (FaceSwapEngine.run (FaceSwapEngine.newPage e) before) !! k = Some face ->
  forallb (fun ev => negb (FaceSwapEngine.settles k ev)) during = true ->
  let final :=
    FaceSwapEngine.run (FaceSwapEngine.newPage e)
      (before ++ during ++ [FaceSwapEngine.ImageLoaded k img]) in
  FaceSwapEngine.targetFaceImage (FaceSwapEngine.engine final) = Some img /\
  FaceSwapEngine.hasTargetFace (FaceSwapEngine.engine final) = true.
Proof.
  intros Hk Hd final. subst final.
  rewrite !run_app.
  set (pg := FaceSwapEngine.run (FaceSwapEngine.run _ before) during).
  assert (Hpg : FaceSwapEngine.requests pg !! k = Some face).
  { apply run_keeps_request; [|exact Hd|exact Hk].
    apply numbered_run, numbered_newPage. }
  cbn. destruct (onload_installs pg k face img Hpg) as [Ht _].
  unfold FaceSwapEngine.hasTargetFace. rewrite Ht. split; reflexivity.
Qed.

(** The scenario of C1: A and B requested, the target cleared, then B
    decoded. *)
Lemma load_in_flight_lands_witness :
  let final :=
    FaceSwapEngine.run
      (FaceSwapEngine.newPage (FaceSwapEngine.constructor Examples.noOptions))
      ([FaceSwapEngine.CallLoadTargetFace Examples.faceA;
        FaceSwapEngine.CallLoadTargetFace Examples.faceB]
       ++ [FaceSwapEngine.CallClearTargetFace]
       ++ [FaceSwapEngine.ImageLoaded 1 Examples.imageB]) in
  FaceSwapEngine.targetFaceImage (FaceSwapEngine.engine final) = Some Examples.imageB /\
  FaceSwapEngine.hasTargetFace (FaceSwapEngine.engine final) = true.
Proof.
  apply (load_in_flight_lands
           (FaceSwapEngine.constructor Examples.noOptions)
           [FaceSwapEngine.CallLoadTargetFace Examples.faceA;
            FaceSwapEngine.CallLoadTargetFace Examples.faceB]
           [FaceSwapEngine.CallClearTargetFace] 1 Examples.faceB Examples.imageB).
  - vm_compute. reflexivity.
  - reflexivity.
Defined.

(** C5: for a load that is in flight, a failed decode rejects the
    promise with an [Error] that names the URL and leaves the engine,
    hence the current target, exactly as it was; a successful decode
    makes the decoded image the current target and fulfils the promise;
    the call itself leaves the engine untouched while the promise is
    pending, so that a call followed by the failure of its decode ends
    with the engine it started with and a rejected promise. *)
Theorem load_failure_is_explicit_and_atomic
  (pg : FaceSwapEngine.Page) (k : nat) (face : FaceSwapEngine.PresetFace) :
  FaceSwapEngine.requests pg !! k = Some face ->
  (FaceSwapEngine.engine (FaceSwapEngine.step pg (FaceSwapEngine.ImageFailed k))
     = FaceSwapEngine.engine pg /\
   FaceSwapEngine.promises
     (FaceSwapEngine.step pg (FaceSwapEngine.ImageFailed k)) !! k
     = Some (FaceSwapEngine.Rejected
               ("Failed to load face image: " ++ FaceSwapEngine.imageUrl face))) /\
  (forall img : Canvas.Bitmap,
     FaceSwapEngine.targetFaceImage
       (FaceSwapEngine.engine
          (FaceSwapEngine.step pg (FaceSwapEngine.ImageLoaded k img))) = Some img /\
     FaceSwapEngine.promises
       (FaceSwapEngine.step pg (FaceSwapEngine.ImageLoaded k img)) !! k
       = Some FaceSwapEngine.Fulfilled) /\
  (forall face' : FaceSwapEngine.PresetFace,
     FaceSwapEngine.engine
       (FaceSwapEngine.step pg (FaceSwapEngine.CallLoadTargetFace face'))
       = FaceSwapEngine.engine pg /\
     FaceSwapEngine.promises
       (FaceSwapEngine.step pg (FaceSwapEngine.CallLoadTargetFace face'))
       !! FaceSwapEngine.calls pg = Some FaceSwapEngine.Pending) /\
  (forall face' : FaceSwapEngine.PresetFace,
     let failed :=
       FaceSwapEngine.run pg
         [FaceSwapEngine.CallLoadTargetFace face';
          FaceSwapEngine.ImageFailed (FaceSwapEngine.calls pg)] in
     FaceSwapEngine.engine failed = FaceSwapEngine.engine pg /\
     FaceSwapEngine.promises failed !! FaceSwapEngine.calls pg
     = Some (FaceSwapEngine.Rejected
               ("Failed to load face image: " ++ FaceSwapEngine.imageUrl face'))).
Proof.
  intros Hk. split; [|split; [|split]].
  - cbn. unfold FaceSwapEngine.onerror. rewrite Hk. cbn.
    split; [reflexivity | apply lookup_insert_eq].
  - intros img. cbn. apply (onload_installs pg k face img Hk).
  - intros face'. cbn. split; [reflexivity | apply lookup_insert_eq].
  - intros face' failed. subst failed. cbn.
    unfold FaceSwapEngine.onerror, FaceSwapEngine.loadTargetFace. cbn.
    rewrite lookup_insert_eq. cbn.
    split; [reflexivity | apply lookup_insert_eq].
Qed.

(** C5 on a page that holds [imageA] while the load of B fails. *)
Lemma load_failure_is_explicit_and_atomic_witness :
  let pg :=
    FaceSwapEngine.run
      (FaceSwapEngine.newPage (FaceSwapEngine.constructor Examples.noOptions))
      [FaceSwapEngine.CallLoadTargetFace Examples.faceA;
       FaceSwapEngine.ImageLoaded 0 Examples.imageA;
       FaceSwapEngine.CallLoadTargetFace Examples.faceB] in
  FaceSwapEngine.requests pg !! 1%nat = Some Examples.faceB /\
  FaceSwapEngine.targetFaceImage
    (FaceSwapEngine.engine (FaceSwapEngine.step pg (FaceSwapEngine.ImageFailed 1)))
    = Some Examples.imageA /\
  FaceSwapEngine.promises
    (FaceSwapEngine.step pg (FaceSwapEngine.ImageFailed 1)) !! 1%nat
    = Some (FaceSwapEngine.Rejected
              ("Failed to load face image: " ++ FaceSwapEngine.imageUrl Examples.faceB)).
Proof.
  intros pg.
  assert (Hk : FaceSwapEngine.requests pg !! 1%nat = Some Examples.faceB)
    by (vm_compute; reflexivity).
  destruct (load_failure_is_explicit_and_atomic pg 1 Examples.faceB Hk)
    as [[He Hp] _].
  split; [exact Hk|]. split; [|exact Hp].
  rewrite He. vm_compute. reflexivity.
Defined.

(** ** Bitmaps and loops *)

Section CanvasFacts.
Import Canvas.

Lemma render_S (n : nat) (f : nat -> Pixel) :
  render (S n) f = render n f ++ bytes (f n).
Proof.
  unfold render. rewrite seq_S, flat_map_app. cbn. reflexivity.
Qed.

Lemma render_length (n : nat) (f : nat -> Pixel) : length (render n f) = (4 * n)%nat.
Proof.
  induction n as [|n IH]; [reflexivity|].
  rewrite render_S, length_app, IH. cbn. lia.
Qed.

Lemma render_lookup (n : nat) (f : nat -> Pixel) (k c : nat) :
  (k < n)%nat -> (c < 4)%nat ->
  render n f !! (k * 4 + c)%nat = bytes (f k) !! c.
Proof.
  induction n as [|n IH]; intros Hk Hc; [lia|].
  rewrite render_S.
  destruct (decide (k = n)) as [->|Hne].
  - rewrite lookup_app_r by (rewrite render_length; lia).
    rewrite render_length. f_equal. lia.
  - rewrite lookup_app_l by (rewrite render_length; lia).
    apply IH; lia.
Qed.

Lemma pixelFrom_render (n : nat) (f : nat -> Pixel) (k : nat) :
  (k < n)%nat -> pixelFrom (render n f) (k * 4) = f k.
Proof.
  intros Hk. unfold pixelFrom, byteAt.
  replace (k * 4)%nat with (k * 4 + 0)%nat at 1 by lia.
  rewrite !render_lookup by lia. destruct (f k). reflexivity.
Qed.

Lemma cell_index (w h x y : nat) :
  (x < w)%nat -> (y < h)%nat ->
  ((y * w + x) mod w = x /\ (y * w + x) / w = y /\ y * w + x < w * h)%nat.
Proof.
  intros Hx Hy. repeat split.
  - rewrite Nat.add_comm, Nat.Div0.mod_add. apply Nat.mod_small, Hx.
  - rewrite Nat.add_comm, Nat.div_add by lia. rewrite Nat.div_small by exact Hx. lia.
  - nia.
Qed.

End CanvasFacts.

Section LoopFacts.

Lemma for_range_S_r {S : Type} (body : nat -> S -> S) (n from : nat) (s : S) :
  JS.for_range from (Datatypes.S n) body s
  = body (from + n)%nat (JS.for_range from n body s).
Proof.
  revert from s. induction n as [|n IH]; intros from s.
  - cbn. rewrite Nat.add_0_r. reflexivity.
  - change (JS.for_range from (Datatypes.S (Datatypes.S n)) body s)
      with (JS.for_range (Datatypes.S from) (Datatypes.S n) body (body from s)).
    rewrite IH. cbn. f_equal. lia.
Qed.

Lemma for_range_ext {S : Type} (body1 body2 : nat -> S -> S) (n from : nat) (s : S) :
  (forall i t, (from <= i < from + n)%nat -> body1 i t = body2 i t) ->
  JS.for_range from n body1 s = JS.for_range from n body2 s.
Proof.
  revert from s. induction n as [|n IH]; intros from s H; [reflexivity|].
  cbn. rewrite H by lia. apply IH. intros i t Hi. apply H. lia.
Qed.

(** A loop that advances by four bytes visits the pixels in order. *)
Lemma for_step_pixels {S : Type} (body : nat -> S -> S) (n fuel k : nat) (s : S) :
  (n <= fuel)%nat ->
  JS.for_step fuel (k * 4) ((k + n) * 4) 4 body s
  = JS.for_range k n (fun j => body (j * 4)%nat) s.
Proof.
  revert fuel k s. induction n as [|n IH]; intros fuel k s Hf.
  - destruct fuel as [|fuel]; [reflexivity|]. cbn [JS.for_step JS.for_range].
    destruct (Nat.ltb_spec (k * 4) ((k + 0) * 4)); [lia | reflexivity].
  - destruct fuel as [|fuel]; [lia|]. cbn [JS.for_step JS.for_range].
    destruct (Nat.ltb_spec (k * 4) ((k + Datatypes.S n) * 4)); [|lia].
    replace (k * 4 + 4)%nat with (Datatypes.S k * 4)%nat by lia.
    replace (k + Datatypes.S n)%nat with (Datatypes.S k + n)%nat by lia.
    apply IH. lia.
Qed.

Lemma for_by_pixels {S : Type} (body : nat -> S -> S) (n : nat) (s : S) :
  JS.for_by 0 (n * 4) 4 body s = JS.for_range 0 n (fun j => body (j * 4)%nat) s.
Proof.
  unfold JS.for_by. apply (for_step_pixels body n (n * 4 - 0) 0 s). lia.
Qed.

(** The rows of a nested loop, one after the other, are one loop over
    the cells. *)
Lemma for_range_rows {S : Type} (body : nat -> nat -> S -> S) (w h : nat) (s : S) :
  JS.for_range 0 h (fun y t => JS.for_range 0 w (fun x t' => body y x t') t) s
  = JS.for_range 0 (h * w) (fun k t => body (k / w)%nat (k mod w)%nat t) s.
Proof.
  induction h as [|h IH]; [reflexivity|].
  rewrite for_range_S_r, IH. cbn [Nat.add].
  replace (Datatypes.S h * w)%nat with (h * w + w)%nat by lia.
  assert (Hsplit : forall (b : nat -> S -> S) m n u,
             JS.for_range 0 (m + n) b u
             = JS.for_range m n b (JS.for_range 0 m b u)).
  { intros b m n. revert m. induction n as [|n IHn]; intros m u.
    - rewrite Nat.add_0_r. reflexivity.
    - replace (m + Datatypes.S n)%nat with (Datatypes.S (m + n)) by lia.
      rewrite !for_range_S_r, IHn. reflexivity. }
  rewrite Hsplit.
  assert (Hrow : forall n from u,
             (from + n <= w)%nat ->
             JS.for_range from n (fun x t' => body h x t') u
             = JS.for_range (h * w + from) n
                 (fun k t' => body (k / w)%nat (k mod w)%nat t') u).
  { induction n as [|n IHn]; intros from u Hle; [reflexivity|].
    cbn [JS.for_range].
    destruct (cell_index w (Datatypes.S h) from h) as (Hm & Hd & _); [lia|lia|].
    rewrite Hm, Hd.
    replace (Datatypes.S (h * w + from)) with (h * w + Datatypes.S from)%nat by lia.
    apply IHn. lia. }
  rewrite (Hrow w 0%nat) by lia. rewrite Nat.add_0_r. reflexivity.
Qed.

End LoopFacts.

Section PixelFacts.
Import Canvas.

Lemma byteAt_insert_eq (d : list Z) (i : nat) (v : Z) :
  (i < length d)%nat -> byteAt (<[i := v]> d) i = v.
Proof. intros H. unfold byteAt. rewrite list_lookup_insert_eq by exact H. reflexivity. Qed.

Lemma byteAt_insert_ne (d : list Z) (i j : nat) (v : Z) :
  i <> j -> byteAt (<[i := v]> d) j = byteAt d j.
Proof. intros H. unfold byteAt. rewrite list_lookup_insert_ne by exact H. reflexivity. Qed.

Lemma pixelFrom_ext (d1 d2 : list Z) (i : nat) :
  (forall c, (c < 4)%nat -> d1 !! (i + c)%nat = d2 !! (i + c)%nat) ->
  pixelFrom d1 i = pixelFrom d2 i.
Proof.
  intros H. unfold pixelFrom, byteAt.
  rewrite <- (H 1%nat), <- (H 2%nat), <- (H 3%nat) by lia.
  specialize (H 0%nat). rewrite Nat.add_0_r in H. rewrite <- H by lia.
  reflexivity.
Qed.

Section PixelLoop.
Variable body : nat -> list Z -> list Z.
Variable g : nat -> Pixel -> Pixel.
Hypothesis body_length : forall k d, length (body k d) = length d.
Hypothesis body_local :
  forall k d j, (j < k * 4 \/ k * 4 + 4 <= j)%nat -> body k d !! j = d !! j.
Hypothesis body_pixel :
  forall k d, (k * 4 + 3 < length d)%nat ->
    pixelFrom (body k d) (k * 4) = g k (pixelFrom d (k * 4)).

(** A loop whose [k]-th round rewrites pixel [k], and only from what
    pixel [k] holds, maps [g] over the pixels it visits. *)
Lemma pixel_loop (n : nat) (d : list Z) :
  (n * 4 <= length d)%nat ->
  length (JS.for_range 0 n body d) = length d /\
  forall k,
    pixelFrom (JS.for_range 0 n body d) (k * 4)
    = if (k <? n)%nat then g k (pixelFrom d (k * 4)) else pixelFrom d (k * 4).
Proof.
  induction n as [|n IH]; intros Hn.
  - split; [reflexivity|]. intros k. reflexivity.
  - destruct IH as [IHl IHp]; [lia|].
    rewrite for_range_S_r. cbn [Nat.add].
    split; [rewrite body_length; exact IHl|].
    intros k. destruct (decide (k = n)) as [->|Hne].
    + rewrite body_pixel by lia. rewrite IHp.
      destruct (Nat.ltb_spec n n); [lia|].
      destruct (Nat.ltb_spec n (S n)); [reflexivity|lia].
    + rewrite (pixelFrom_ext _ (JS.for_range 0 n body d)).
      * rewrite IHp.
        destruct (Nat.ltb_spec k n), (Nat.ltb_spec k (S n)); try lia; reflexivity.
      * intros c Hc. apply body_local. lia.
Qed.

End PixelLoop.

Lemma pixelIn_inside (b : Bitmap) (x y : nat) :
  (x < width b)%nat -> (y < height b)%nat ->
  pixelIn b (Z.of_nat x) (Z.of_nat y) = pixelAt b x y.
Proof.
  intros Hx Hy. unfold pixelIn.
  destruct (Z.leb_spec 0 (Z.of_nat x)); [|lia].
  destruct (Z.ltb_spec (Z.of_nat x) (Z.of_nat (width b))); [|lia].
  destruct (Z.leb_spec 0 (Z.of_nat y)); [|lia].
  destruct (Z.ltb_spec (Z.of_nat y) (Z.of_nat (height b))); [|lia].
  cbn. rewrite !Nat2Z.id. reflexivity.
Qed.

(** Reading the whole of a readable, non-empty bitmap. *)
Lemma getImageData_whole (b : Bitmap) :
  originClean b = true -> (0 < width b)%nat -> (0 < height b)%nat ->
  exists d : list Z,
    getImageData b 0 0 (width b) (height b)
    = Normal {| id_width := width b; id_height := height b; id_data := d |} /\
    length d = (width b * height b * 4)%nat /\
    forall x y, (x < width b)%nat -> (y < height b)%nat ->
      pixelFrom d ((y * width b + x) * 4) = pixelAt b x y.
Proof.
  intros Hc Hw Hh. unfold getImageData. rewrite Hc.
  destruct (Nat.eqb_spec (width b) 0); [lia|].
  destruct (Nat.eqb_spec (height b) 0); [lia|]. cbn [orb negb].
  eexists. split; [reflexivity|]. split; [rewrite render_length; lia|].
  intros x y Hx Hy.
  destruct (cell_index (width b) (height b) x y Hx Hy) as (Hm & Hd & Hlt).
  rewrite pixelFrom_render by exact Hlt. rewrite Hm, Hd.
  change (JS.toLong 0) with 0%Z. rewrite !Z.add_0_l.
  apply pixelIn_inside; assumption.
Qed.

Lemma pixelAt_putImageData (b : Bitmap) (d : list Z) (x y : nat) :
  (x < width b)%nat -> (y < height b)%nat ->
  pixelAt (putImageData b {| id_width := width b; id_height := height b;
                             id_data := d |}) x y
  = pixelFrom d ((y * width b + x) * 4).
Proof.
  intros Hx Hy. unfold pixelAt, putImageData.
  cbn [width height data id_width id_height id_data].
  destruct (cell_index (width b) (height b) x y Hx Hy) as (Hm & Hd & Hlt).
  rewrite pixelFrom_render by exact Hlt. cbv zeta. rewrite Hm, Hd.
  destruct (Nat.ltb_spec x (width b)); [|lia].
  destruct (Nat.ltb_spec y (height b)); [|lia]. reflexivity.
Qed.

Lemma pixelAt_blank (w h x y : nat) :
  (x < w)%nat -> (y < h)%nat -> pixelAt (blank w h) x y = transparentBlack.
Proof.
  intros Hx Hy. unfold pixelAt, blank. cbn.
  destruct (cell_index w h x y Hx Hy) as (_ & _ & Hlt).
  apply (pixelFrom_render _ (fun _ => transparentBlack)). exact Hlt.
Qed.

End PixelFacts.

(** ** Feathering *)

Section FeatherFacts.
Context {M : MathLib}.
Import MediaPipe.




Import Canvas FaceSwapEngine.

Lemma featherAt_length (cx cy fs f : Q) (w y x : nat) (d : list Z) :
  length (featherAt cx cy fs f w y x d) = length d.
Proof.
  unfold featherAt. cbv zeta.
  destruct (0 <? _)%Z; [|reflexivity].
  destruct (JS.gt _ _); [apply length_insert | reflexivity].
Qed.

Lemma featherAt_local (cx cy fs f : Q) (w y x : nat) (d : list Z) (j : nat) :
  (j < (y * w + x) * 4 \/ (y * w + x) * 4 + 4 <= j)%nat ->
  featherAt cx cy fs f w y x d !! j = d !! j.
Proof.
  intros Hj. unfold featherAt. cbv zeta.
  destruct (0 <? _)%Z; [|reflexivity].
  destruct (JS.gt _ _); [|reflexivity].
  apply list_lookup_insert_ne. lia.
Qed.

Lemma featherAt_pixel (cx cy md f : Q) (w y x : nat) (d : list Z) :
  ((y * w + x) * 4 + 3 < length d)%nat ->
  pixelFrom (featherAt cx cy (md - f) f w y x d) ((y * w + x) * 4)
  = featherPixel cx cy md f x y (pixelFrom d ((y * w + x) * 4)).
Proof.
  intros Hl. unfold featherAt, featherPixel, featherFactor, distance. cbv zeta.
  cbn [alpha pixelFrom red green blue].
  set (i := ((y * w + x) * 4)%nat) in *.
  destruct (0 <? byteAt d (i + 3))%Z; [|reflexivity].
  destruct (JS.gt _ _); [|reflexivity]. cbn [andb].
  unfold pixelFrom.
  rewrite byteAt_insert_eq by exact Hl.
  rewrite !byteAt_insert_ne by lia. reflexivity.
Qed.

(** The two loops of [applyFeathering] map [featherPixel] over the
    pixels. *)
Lemma feather_loops (cx cy md f : Q) (w h : nat) (d : list Z) :
  length d = (w * h * 4)%nat ->
  forall x y, (x < w)%nat -> (y < h)%nat ->
    pixelFrom
      (JS.for_range 0 h (fun y data =>
         JS.for_range 0 w (fun x data =>
           featherAt cx cy (md - f) f w y x data) data) d)
      ((y * w + x) * 4)
    = featherPixel cx cy md f x y (pixelFrom d ((y * w + x) * 4)).
Proof.
  intros Hl x y Hx Hy.
  rewrite (for_range_rows (fun y x data => featherAt cx cy (md - f) f w y x data)).
  assert (Hk : forall k, ((k / w) * w + k mod w = k)%nat).
  { intros k. pose proof (Nat.div_mod_eq k w). lia. }
  destruct (pixel_loop
              (fun k data => featherAt cx cy (md - f) f w (k / w) (k mod w) data)
              (fun k p => featherPixel cx cy md f (k mod w) (k / w) p)) with
    (n := (h * w)%nat) (d := d) as [_ Hp].
  - intros k d'. apply featherAt_length.
  - intros k d' j Hj. apply featherAt_local. rewrite Hk. exact Hj.
  - intros k d' Hl'. pose proof (featherAt_pixel cx cy md f w (k / w) (k mod w) d') as H.
    rewrite Hk in H. apply H. exact Hl'.
  - lia.
  - rewrite Hp.
    destruct (cell_index w h x y Hx Hy) as (Hm & Hd & Hlt).
    destruct (Nat.ltb_spec (y * w + x) (h * w)); [|lia].
    rewrite Hm, Hd. reflexivity.
Qed.

End FeatherFacts.

Lemma le_false_of_lt (a b : Q) : a < b -> JS.le b a = false.
Proof.
  intros H. unfold JS.le. destruct (Qle_bool b a) eqn:E; [|reflexivity].
  apply Qle_bool_iff in E. lra.
Qed.

Lemma le_true_of_le (a b : Q) : a <= b -> JS.le a b = true.
Proof. intros H. apply Qle_bool_iff, H. Qed.



Section FeatherMain.
Context {M : MathLib}.
Import Canvas FaceSwapEngine.


(** What [applyFeathering] does to the pixels once it runs: the centre
    and radius are the ones of [outline_centre_radius]. *)
Lemma feathering_pixels (opts : FaceSwapOptions) (scratch : Bitmap)
      (face : MediaPipe.FaceDetection) :
  let width := Canvas.width scratch in
  let height := Canvas.height scratch in
  let feather := featherAmount opts in
  let oval := MediaPipe.faceOval face in
  let centre :=
    JS.forEach oval
      (fun p (_ : nat) c =>
         (fst c + MediaPipe.lm_x p * JS.num width,
          snd c + MediaPipe.lm_y p * JS.num height)) (0, 0) in
  let centerX := fst centre / JS.num (length oval) in
  let centerY := snd centre / JS.num (length oval) in
  let maxDist :=
    JS.forEach oval
      (fun p (_ : nat) maxDist =>
         Qmax maxDist
           (Math_sqrt
              ((MediaPipe.lm_x p * JS.num width - centerX)
               * (MediaPipe.lm_x p * JS.num width - centerX)
               + (MediaPipe.lm_y p * JS.num height - centerY)
                 * (MediaPipe.lm_y p * JS.num height - centerY)))) 0 in
  0 < feather -> oval <> [] ->
  originClean scratch = true -> (0 < width)%nat -> (0 < height)%nat ->
  exists result : Bitmap,
    applyFeathering opts scratch face width height = Normal result /\
    Canvas.width result = width /\ Canvas.height result = height /\
    originClean result = originClean scratch /\
    forall x y, (x < width)%nat -> (y < height)%nat ->
      pixelAt result x y
      = featherPixel centerX centerY maxDist feather x y (pixelAt scratch x y).
Proof.
  intros width height feather oval centre centerX centerY maxDist
         Hf Hne Hclean Hw Hh.
  assert (Hn : (0 < length oval)%nat) by (destruct oval; [congruence | cbn; lia]).
  destruct (getImageData_whole scratch Hclean Hw Hh) as (d & Hget & Hdl & Hdp).
  eexists. split; [|split; [|split; [|split]]].
  - unfold applyFeathering. cbv zeta. fold feather.
    rewrite (le_false_of_lt _ _ Hf). fold oval.
    destruct (Nat.eqb_spec (length oval) 0); [lia|].
    fold width height. unfold width at 1, height at 1. rewrite Hget.
    cbn [id_data id_width id_height]. reflexivity.
  - reflexivity.
  - reflexivity.
  - reflexivity.
  - intros x y Hx Hy. rewrite pixelAt_putImageData by assumption.
    fold width height.
    rewrite <- (Hdp x y Hx Hy). fold width.
    apply (feather_loops centerX centerY maxDist feather width height d);
      [exact Hdl | exact Hx | exact Hy].
Qed.

End FeatherMain.


(** ** Colour correction *)

Lemma ToUint8Clamp_compat (v v' : Q) : v == v' -> JS.ToUint8Clamp v = JS.ToUint8Clamp v'.
Proof.
  intros H. unfold JS.ToUint8Clamp, JS.gt, JS.lt. cbv zeta.
  assert (Hc : Qmin (Qmax v 0) 255 == Qmin (Qmax v' 0) 255) by (rewrite H; reflexivity).
  rewrite (Qfloor_comp _ _ Hc).
  set (f := Qfloor (Qmin (Qmax v' 0) 255)).
  rewrite (Qleb_comp _ _ (Qeq_refl (inject_Z f + 0.5)) _ _ Hc).
  rewrite (Qleb_comp _ _ Hc _ _ (Qeq_refl (inject_Z f + 0.5))).
  reflexivity.
Qed.

Lemma clamp_nesting (v : Q) : Qmin 1.5 (Qmax 0.5 v) == Qmax 0.5 (Qmin 1.5 v).
Proof.
  destruct (Qlt_le_dec v 0.5) as [Hlo|Hlo].
  - rewrite (Q.max_l 0.5 v) by lra. rewrite (Q.min_r 1.5 v) by lra.
    rewrite Q.min_r by lra. rewrite Q.max_l by lra. reflexivity.
  - rewrite (Q.max_r 0.5 v) by lra.
    destruct (Qlt_le_dec v 1.5) as [Hhi|Hhi].
    + rewrite (Q.min_r 1.5 v) by lra. rewrite Q.max_r by lra. reflexivity.
    + rewrite (Q.min_l 1.5 v) by lra. rewrite Q.max_r by lra. reflexivity.
Qed.

Lemma correctPixel_compat (r r' g g' b b' : Q) (p : Canvas.Pixel) :
  r == r' -> g == g' -> b == b' -> correctPixel r g b p = correctPixel r' g' b' p.
Proof.
  intros Hr Hg Hb. unfold correctPixel.
  destruct (0 <? Canvas.alpha p)%Z; [|reflexivity].
  f_equal; apply ToUint8Clamp_compat; [rewrite Hr|rewrite Hg|rewrite Hb]; reflexivity.
Qed.

Section ColourFacts.
Import Canvas FaceSwapEngine.

Lemma adjustAt_length (r g b : Q) (i : nat) (d : list Z) :
  length (adjustAt r g b i d) = length d.
Proof.
  unfold adjustAt. cbv zeta. destruct (0 <? _)%Z; [|reflexivity].
  rewrite !length_insert. reflexivity.
Qed.

Lemma adjustAt_local (r g b : Q) (k : nat) (d : list Z) (j : nat) :
  (j < k * 4 \/ k * 4 + 4 <= j)%nat -> adjustAt r g b (k * 4) d !! j = d !! j.
Proof.
  intros Hj. unfold adjustAt. cbv zeta. destruct (0 <? _)%Z; [|reflexivity].
  rewrite !list_lookup_insert_ne by lia. reflexivity.
Qed.

Lemma adjustAt_pixel (r g b : Q) (k : nat) (d : list Z) :
  (k * 4 + 3 < length d)%nat ->
  pixelFrom (adjustAt r g b (k * 4) d) (k * 4) = correctPixel r g b (pixelFrom d (k * 4)).
Proof.
  intros Hl. unfold adjustAt, correctPixel. cbv zeta.
  cbn [alpha pixelFrom red green blue].
  set (i := (k * 4)%nat) in *.
  destruct (0 <? byteAt d (i + 3))%Z; [|reflexivity].
  unfold pixelFrom.
  repeat first
    [ rewrite byteAt_insert_eq by (rewrite ?length_insert; lia)
    | rewrite byteAt_insert_ne by lia ].
  reflexivity.
Qed.

(** The adjusting loop maps [correctPixel] over the pixels. *)
Lemma adjust_loop (r g b : Q) (n : nat) (d : list Z) (k : nat) :
  length d = (n * 4)%nat -> (k < n)%nat ->
  pixelFrom (JS.for_by 0 (length d) 4 (adjustAt r g b) d) (k * 4)
  = correctPixel r g b (pixelFrom d (k * 4)).
Proof.
  intros Hl Hk. rewrite Hl, for_by_pixels.
  destruct (pixel_loop (fun j => adjustAt r g b (j * 4)) (fun _ => correctPixel r g b))
    with (n := n) (d := d) as [_ Hp].
  - intros j d'. apply adjustAt_length.
  - intros j d' i Hi. apply adjustAt_local, Hi.
  - intros j d' Hj. apply adjustAt_pixel, Hj.
  - lia.
  - rewrite Hp. destruct (Nat.ltb_spec k n); [reflexivity|lia].
Qed.

End ColourFacts.

Section SampleFacts.
Import Canvas FaceSwapEngine.

Lemma byteAt_render (n : nat) (f : nat -> Pixel) (k : nat) :
  (k < n)%nat ->
  byteAt (render n f) (k * 4) = red (f k) /\
  byteAt (render n f) (k * 4 + 1) = green (f k) /\
  byteAt (render n f) (k * 4 + 2) = blue (f k) /\
  byteAt (render n f) (k * 4 + 3) = alpha (f k).
Proof.
  intros Hk. unfold byteAt.
  replace (k * 4)%nat with (k * 4 + 0)%nat at 1 by lia.
  rewrite !render_lookup by lia. repeat split.
Qed.

Lemma sumQ_snoc (vs : list Q) (v : Q) : sumQ (vs ++ [v]) == sumQ vs + v.
Proof.
  unfold sumQ. induction vs as [|u vs IH]; cbn [fold_right app]; [lra|].
  rewrite IH. lra.
Qed.

(** The sampling loop adds up the channels of the two blocks. *)
Lemma sample_loop (N : nat) (fS fT : nat -> Pixel) (n : nat) :
  (n <= N)%nat ->
  let sums :=
    JS.for_range 0 n (fun j => sampleAt (render N fS) (render N fT) (j * 4)) zeroSums in
  let total (f : nat -> Pixel) (channel : Pixel -> Z) :=
    sumQ (List.map (fun p => inject_Z (channel p)) (List.map f (seq 0 n))) in
  srcR sums == total fS red /\ srcG sums == total fS green /\
  srcB sums == total fS blue /\
  tgtR sums == total fT red /\ tgtG sums == total fT green /\
  tgtB sums == total fT blue /\
  count sums = n.
Proof.
  induction n as [|n IH]; intros Hn; cbv zeta.
  - cbn. repeat split; reflexivity.
  - destruct IH as (H1 & H2 & H3 & H4 & H5 & H6 & H7); [lia|]. cbv zeta in *.
    rewrite for_range_S_r. cbn [Nat.add].
    rewrite seq_S, !List.map_app. cbn [List.map Nat.add].
    rewrite !sumQ_snoc.
    set (prev := JS.for_range 0 n _ zeroSums) in *.
    unfold sampleAt. cbn [srcR srcG srcB tgtR tgtG tgtB count].
    destruct (byteAt_render N fS n) as (-> & -> & -> & _); [lia|].
    destruct (byteAt_render N fT n) as (-> & -> & -> & _); [lia|].
    rewrite H1, H2, H3, H4, H5, H6, H7. repeat split; reflexivity.
Qed.

Lemma ratio_reading (s t ms mt : Q) :
  s == ms -> t == mt ->
  Qmin 1.5 (Qmax 0.5 (s / JS.or_else t 1))
  == Qmax 0.5 (Qmin 1.5 (ms / (if Qeq_bool mt 0 then 1 else mt))).
Proof.
  intros Hs Ht. rewrite clamp_nesting. unfold JS.or_else.
  rewrite (Qeqb_comp _ _ Ht _ _ (Qeq_refl 0)).
  destruct (Qeq_bool mt 0); rewrite Hs, ?Ht; reflexivity.
Qed.

End SampleFacts.

Section CorrectionFacts.
Context {R : Canvas.Rasterizer}.
Import Canvas FaceSwapEngine.

(** Reading a block of a readable bitmap. *)
Lemma getImageData_block (b : Bitmap) (sx sy : Q) (n : nat) :
  originClean b = true -> (0 < n)%nat ->
  getImageData b sx sy n n
  = Normal {| id_width := n; id_height := n;
              id_data := render (n * n) (fun k =>
                pixelIn b (JS.toLong sx + Z.of_nat (k mod n))
                          (JS.toLong sy + Z.of_nat (k / n))) |}.
Proof.
  intros Hc Hn. unfold getImageData. rewrite Hc.
  destruct (Nat.eqb_spec n 0); [lia|]. reflexivity.
Qed.

Lemma getImageData_unclean (b : Bitmap) (sx sy : Q) (sw sh : nat) :
  originClean b = false -> exists ex, getImageData b sx sy sw sh = Throw ex.
Proof.
  intros Hc. unfold getImageData. rewrite Hc.
  destruct ((sw =? 0)%nat || (sh =? 0)%nat)%bool; eexists; reflexivity.
Qed.

Lemma correction_readable (scratch sourceVideo : Bitmap) :
  let width := Canvas.width scratch in
  let height := Canvas.height scratch in
  let frame :=
    drawImage 1 None (blank width height) sourceVideo 0 0 (JS.num width) (JS.num height) in
  let sourceBlock := centreBlock frame width height in
  let scratchBlock := centreBlock scratch width height in
  let corrected := applyColorCorrection scratch sourceVideo width height in
  originClean frame = true -> originClean scratch = true ->
  (0 < width)%nat -> (0 < height)%nat ->
  Canvas.width corrected = width /\ Canvas.height corrected = height /\
  forall x y, (x < width)%nat -> (y < height)%nat ->
    pixelAt corrected x y
    = correctPixel (channelAdjust red sourceBlock scratchBlock)
                   (channelAdjust green sourceBlock scratchBlock)
                   (channelAdjust blue sourceBlock scratchBlock)
                   (pixelAt scratch x y).
Proof.
  intros width height frame sourceBlock scratchBlock corrected Hcf Hcs Hw Hh.
  subst corrected. unfold applyColorCorrection. cbv zeta. fold frame.
  rewrite (getImageData_block frame) by (exact Hcf || lia).
  rewrite (getImageData_block scratch) by (exact Hcs || lia).
  cbn [id_data].
  set (fS := fun k : nat =>
         pixelIn frame (JS.toLong (JS.num width / 2 - JS.num 50 / 2) + Z.of_nat (k mod 50))
                       (JS.toLong (JS.num height / 2 - JS.num 50 / 2) + Z.of_nat (k / 50))).
  set (fT := fun k : nat =>
         pixelIn scratch (JS.toLong (JS.num width / 2 - JS.num 50 / 2) + Z.of_nat (k mod 50))
                         (JS.toLong (JS.num height / 2 - JS.num 50 / 2) + Z.of_nat (k / 50))).
  set (sums := JS.for_by 0 _ 4 (sampleAt _ _) _).
  assert (Hs : sums
               = JS.for_range 0 (50 * 50)
                   (fun j => sampleAt (render (50 * 50) fS) (render (50 * 50) fT) (j * 4))
                   zeroSums).
  { unfold sums. rewrite render_length.
    replace (4 * (50 * 50))%nat with (50 * 50 * 4)%nat by lia.
    apply for_by_pixels. }
  destruct (sample_loop (50 * 50) fS fT (50 * 50) (Nat.le_refl _))
    as (H1 & H2 & H3 & H4 & H5 & H6 & H7).
  cbv zeta in H1, H2, H3, H4, H5, H6, H7.
  rewrite <- Hs in H1, H2, H3, H4, H5, H6, H7. clear Hs.
  rewrite List.map_map in H1, H2, H3, H4, H5, H6.
  rewrite H7. destruct (Nat.ltb_spec 0 (50 * 50)); [|lia].
  destruct (getImageData_whole scratch Hcs Hw Hh) as (d & Hget & Hdl & Hdp).
  fold width height in Hget, Hdl, Hdp. rewrite Hget.
  cbn [id_data id_width id_height].
  split; [reflexivity|]. split; [reflexivity|].
  intros x y Hx Hy. rewrite pixelAt_putImageData by assumption. fold width.
  destruct (cell_index width height x y Hx Hy) as (_ & _ & Hlt).
  rewrite (adjust_loop _ _ _ (width * height) d) by (exact Hdl || exact Hlt).
  rewrite (Hdp x y Hx Hy).
  assert (Hmean : forall (b : Bitmap) (f : nat -> Pixel) (channel : Pixel -> Z) (v : Q),
             centreBlock b width height = List.map f (seq 0 (50 * 50)) ->
             v == sumQ (List.map (fun k => inject_Z (channel (f k))) (seq 0 (50 * 50))) ->
             v / JS.num (50 * 50) == channelMean channel (centreBlock b width height)).
  { intros b f channel v Hb Hv. unfold channelMean. rewrite Hb, List.map_map.
    rewrite !length_map, length_seq, Hv. reflexivity. }
  assert (HbS : centreBlock frame width height = List.map fS (seq 0 (50 * 50)))
    by (unfold centreBlock, fS; reflexivity).
  assert (HbT : centreBlock scratch width height = List.map fT (seq 0 (50 * 50)))
    by (unfold centreBlock, fT; reflexivity).
  apply correctPixel_compat; unfold channelAdjust; cbv zeta; apply ratio_reading.
  - exact (Hmean frame fS red _ HbS H1).
  - exact (Hmean scratch fT red _ HbT H4).
  - exact (Hmean frame fS green _ HbS H2).
  - exact (Hmean scratch fT green _ HbT H5).
  - exact (Hmean frame fS blue _ HbS H3).
  - exact (Hmean scratch fT blue _ HbT H6).
Qed.

End CorrectionFacts.

Section SkipFacts.
Context {M : MathLib} {R : Canvas.Rasterizer}.
Import Canvas FaceSwapEngine.

(** A read-back that throws anywhere in [applyColorCorrection] leaves
    the scratch canvas as it was. *)
Lemma correction_skipped (scratch sourceVideo : Bitmap) (width height : nat) :
  let frame :=
    drawImage 1 None (blank width height) sourceVideo 0 0 (JS.num width) (JS.num height) in
  let centerX := JS.num width / 2 - JS.num 50 / 2 in
  let centerY := JS.num height / 2 - JS.num 50 / 2 in
  (exists ex,
     getImageData frame centerX centerY 50 50 = Throw ex \/
     getImageData scratch centerX centerY 50 50 = Throw ex \/
     getImageData scratch 0 0 width height = Throw ex) ->
  applyColorCorrection scratch sourceVideo width height = scratch.
Proof.
  intros frame centerX centerY (ex & H).
  unfold applyColorCorrection. cbv zeta. fold frame centerX centerY.
  destruct (getImageData frame centerX centerY 50 50) as [sd|e1]; [|reflexivity].
  destruct (getImageData scratch centerX centerY 50 50) as [td|e2]; [|reflexivity].
  destruct (0 <? count _)%nat; [|reflexivity].
  destruct (getImageData scratch 0 0 width height) as [im|e3]; [|reflexivity].
  destruct H as [H|[H|H]]; discriminate H.
Qed.

Lemma getImageData_empty (b : Bitmap) (sx sy : Q) (sw sh : nat) :
  (sw = 0 \/ sh = 0)%nat -> getImageData b sx sy sw sh = Throw IndexSizeError.
Proof.
  intros H. unfold getImageData.
  destruct (Nat.eqb_spec sw 0), (Nat.eqb_spec sh 0); try reflexivity. lia.
Qed.

(** [applyColorCorrection] either leaves the scratch canvas alone or
    maps [correctPixel] over it. *)
Lemma correction_cases (scratch sourceVideo : Bitmap) :
  let corrected :=
    applyColorCorrection scratch sourceVideo (width scratch) (height scratch) in
  corrected = scratch \/
  exists r g b,
    width corrected = width scratch /\ height corrected = height scratch /\
    originClean corrected = originClean scratch /\
    forall x y, (x < width scratch)%nat -> (y < height scratch)%nat ->
      pixelAt corrected x y = correctPixel r g b (pixelAt scratch x y).
Proof.
  intros corrected. subst corrected.
  set (frame := drawImage 1 None (blank (width scratch) (height scratch)) sourceVideo
                  0 0 (JS.num (width scratch)) (JS.num (height scratch))).
  destruct (originClean frame) eqn:Hcf.
  2:{ left. apply correction_skipped.
      destruct (getImageData_unclean frame
                  (JS.num (width scratch) / 2 - JS.num 50 / 2)
                  (JS.num (height scratch) / 2 - JS.num 50 / 2) 50 50 Hcf) as (ex & Hex).
      exists ex. left. exact Hex. }
  destruct (originClean scratch) eqn:Hcs.
  2:{ left. apply correction_skipped.
      destruct (getImageData_unclean scratch
                  (JS.num (width scratch) / 2 - JS.num 50 / 2)
                  (JS.num (height scratch) / 2 - JS.num 50 / 2) 50 50 Hcs) as (ex & Hex).
      exists ex. right. left. exact Hex. }
  destruct (Nat.eq_dec (width scratch) 0%nat) as [Hw|Hw].
  { left. apply correction_skipped. exists IndexSizeError. right. right.
    apply getImageData_empty. left. exact Hw. }
  destruct (Nat.eq_dec (height scratch) 0%nat) as [Hh|Hh].
  { left. apply correction_skipped. exists IndexSizeError. right. right.
    apply getImageData_empty. right. exact Hh. }
  right.
  destruct (correction_readable scratch sourceVideo Hcf Hcs) as (Hrw & Hrh & Hp);
    [lia | lia |].
  eexists _, _, _. split; [exact Hrw|]. split; [exact Hrh|]. split; [|exact Hp].
  (* the flag is the one of the scratch canvas *)
  unfold applyColorCorrection. cbv zeta.
  destruct (getImageData _ _ _ 50 50); [|exact Hcs].
  destruct (getImageData _ _ _ 50 50); [|exact Hcs].
  destruct (0 <? count _)%nat; [|exact Hcs].
  destruct (getImageData scratch 0 0 _ _); [|exact Hcs].
  cbn [originClean putImageData]. exact Hcs.
Qed.

End SkipFacts.

(** ** The composite *)

Section CompositeFacts.
Context {M : MathLib} {R : Canvas.Rasterizer}.
Import Canvas FaceSwapEngine.

Lemma drawImage_size (ga : Q) (clip : option Ellipse) (dst src : Bitmap) (dx dy dw dh : Q) :
  width (drawImage ga clip dst src dx dy dw dh) = width dst /\
  height (drawImage ga clip dst src dx dy dw dh) = height dst.
Proof.
  unfold drawImage. destruct (_ || _)%bool; split; reflexivity.
Qed.

Lemma drawImage_width (ga : Q) (clip : option Ellipse) (dst src : Bitmap) (dx dy dw dh : Q) :
  width (drawImage ga clip dst src dx dy dw dh) = width dst.
Proof. apply drawImage_size. Qed.

Lemma drawImage_height (ga : Q) (clip : option Ellipse) (dst src : Bitmap) (dx dy dw dh : Q) :
  height (drawImage ga clip dst src dx dy dw dh) = height dst.
Proof. apply drawImage_size. Qed.

Lemma drawImage_pixel (ga : Q) (clip : option Ellipse) (dst src : Bitmap)
      (dx dy dw dh : Q) (x y : nat) :
  (x < width dst)%nat -> (y < height dst)%nat ->
  pixelAt (drawImage ga clip dst src dx dy dw dh) x y = pixelAt dst x y \/
  exists (coverage : Q) (s : Pixel),
    pixelAt (drawImage ga clip dst src dx dy dw dh) x y
    = sourceOver (painted ga coverage s) (pixelAt dst x y).
Proof.
  intros Hx Hy. unfold drawImage. destruct (_ || _)%bool; [left; reflexivity|].
  right. unfold pixelAt at 1. cbn [data width].
  destruct (cell_index (width dst) (height dst) x y Hx Hy) as (Hm & Hd & Hlt).
  rewrite pixelFrom_render by exact Hlt. cbv zeta. rewrite Hm, Hd.
  eexists _, _. reflexivity.
Qed.

Lemma ToUint8Clamp_zero (v : Q) : v == 0 -> JS.ToUint8Clamp v = 0%Z.
Proof. intros H. rewrite (ToUint8Clamp_compat v 0 H). reflexivity. Qed.

Lemma sourceOver_transparent (s d : Pixel) : alpha s = 0%Z -> sourceOver s d = d.
Proof. intros H. unfold sourceOver. rewrite H. reflexivity. Qed.

(** Nothing is painted at zero opacity. *)
Lemma drawImage_zero_alpha (clip : option Ellipse) (dst src : Bitmap)
      (dx dy dw dh : Q) (x y : nat) :
  (x < width dst)%nat -> (y < height dst)%nat ->
  pixelAt (drawImage 0 clip dst src dx dy dw dh) x y = pixelAt dst x y.
Proof.
  intros Hx Hy.
  destruct (drawImage_pixel 0 clip dst src dx dy dw dh x y Hx Hy)
    as [H|(coverage & s & H)]; [exact H|].
  rewrite H. apply sourceOver_transparent. cbn [alpha painted].
  apply ToUint8Clamp_zero. ring.
Qed.

Lemma correctPixel_transparent (r g b : Q) (p : Pixel) :
  alpha p = 0%Z -> correctPixel r g b p = p.
Proof. intros H. unfold correctPixel. rewrite H. reflexivity. Qed.

Lemma featherPixel_transparent (cx cy md f : Q) (x y : nat) (p : Pixel) :
  alpha p = 0%Z -> featherPixel cx cy md f x y p = p.
Proof. intros H. unfold featherPixel. cbv zeta. rewrite H. reflexivity. Qed.

Lemma correction_keeps_invisible (scratch sourceVideo : Bitmap) (w h : nat) :
  width scratch = w -> height scratch = h -> invisible scratch ->
  let corrected := applyColorCorrection scratch sourceVideo w h in
  width corrected = w /\ height corrected = h /\ invisible corrected.
Proof.
  intros <- <- Hinv corrected. subst corrected.
  destruct (correction_cases scratch sourceVideo) as [->|(r & g & b & Hw & Hh & _ & Hp)].
  - split; [reflexivity|]. split; [reflexivity|exact Hinv].
  - cbv zeta in Hw, Hh, Hp. split; [exact Hw|]. split; [exact Hh|].
    intros x y Hx Hy. rewrite Hw in Hx. rewrite Hh in Hy.
    rewrite (Hp x y Hx Hy), correctPixel_transparent; apply Hinv; assumption.
Qed.

(** [applyFeathering] throws, or leaves the scratch canvas alone, or
    maps [featherPixel] over it. *)
Lemma feathering_cases (opts : FaceSwapOptions) (scratch : Bitmap)
      (face : MediaPipe.FaceDetection) :
  (exists ex, applyFeathering opts scratch face (width scratch) (height scratch)
              = Throw ex) \/
  applyFeathering opts scratch face (width scratch) (height scratch) = Normal scratch \/
  exists (cx cy md : Q) (result : Bitmap),
    applyFeathering opts scratch face (width scratch) (height scratch) = Normal result /\
    width result = width scratch /\ height result = height scratch /\
    forall x y, (x < width scratch)%nat -> (y < height scratch)%nat ->
      pixelAt result x y
      = featherPixel cx cy md (featherAmount opts) x y (pixelAt scratch x y).
Proof.
  destruct (Qlt_le_dec 0 (featherAmount opts)) as [Hf|Hf].
  2:{ right. left. unfold applyFeathering. cbv zeta.
      rewrite (le_true_of_le _ _ Hf). reflexivity. }
  destruct (MediaPipe.faceOval face) as [|p0 rest] eqn:Eo.
  { right. left. unfold applyFeathering. cbv zeta.
    rewrite (le_false_of_lt _ _ Hf), Eo. reflexivity. }
  assert (Hne : MediaPipe.faceOval face <> []) by (rewrite Eo; discriminate).
  assert (Hthrow : forall ex,
             getImageData scratch 0 0 (width scratch) (height scratch) = Throw ex ->
             applyFeathering opts scratch face (width scratch) (height scratch) = Throw ex).
  { intros ex Hex. unfold applyFeathering. cbv zeta.
    rewrite (le_false_of_lt _ _ Hf), Eo. cbn [length Nat.eqb]. rewrite Hex. reflexivity. }
  destruct (originClean scratch) eqn:Hc.
  2:{ left. destruct (getImageData_unclean scratch 0 0 (width scratch) (height scratch) Hc)
        as (ex & Hex). exists ex. apply Hthrow, Hex. }
  destruct (Nat.eq_dec (width scratch) 0%nat) as [Hw|Hw].
  { left. exists IndexSizeError. apply Hthrow, getImageData_empty. left. exact Hw. }
  destruct (Nat.eq_dec (height scratch) 0%nat) as [Hh|Hh].
  { left. exists IndexSizeError. apply Hthrow, getImageData_empty. right. exact Hh. }
  right. right.
  destruct (feathering_pixels opts scratch face Hf Hne Hc) as (result & Hrun & Hrw & Hrh & _ & Hp);
    [lia | lia |].
  eexists _, _, _, result. split; [exact Hrun|]. split; [exact Hrw|].
  split; [exact Hrh|exact Hp].
Qed.

Lemma feathering_keeps_invisible (opts : FaceSwapOptions) (scratch : Bitmap)
      (face : MediaPipe.FaceDetection) (w h : nat) (result : Bitmap) :
  width scratch = w -> height scratch = h -> invisible scratch ->
  applyFeathering opts scratch face w h = Normal result ->
  width result = w /\ height result = h /\ invisible result.
Proof.
  intros <- <- Hinv Hrun.
  destruct (feathering_cases opts scratch face)
    as [(ex & He)|[He|(cx & cy & md & r & He & Hw & Hh & Hp)]];
    rewrite He in Hrun; [discriminate Hrun| |]; injection Hrun as <-.
  - split; [reflexivity|]. split; [reflexivity|exact Hinv].
  - split; [exact Hw|]. split; [exact Hh|].
    intros x y Hx Hy. rewrite Hw in Hx. rewrite Hh in Hy.
    rewrite (Hp x y Hx Hy), featherPixel_transparent; apply Hinv; assumption.
Qed.

Lemma samePixels_refl (b : Bitmap) : samePixels b b.
Proof. split; [reflexivity|]. split; [reflexivity|]. intros; reflexivity. Qed.

(** Compositing an invisible canvas changes nothing. *)
Lemma drawCanvas_invisible (dst src result : Bitmap) :
  width src = width dst -> height src = height dst -> invisible src ->
  drawCanvas 1 dst src = Normal result -> samePixels result dst.
Proof.
  intros Hw Hh Hinv Hrun. unfold drawCanvas in Hrun.
  destruct (_ || _)%bool; [discriminate Hrun|]. injection Hrun as <-.
  split; [reflexivity|]. split; [reflexivity|].
  cbn [width height]. intros x y Hx Hy.
  unfold pixelAt at 1. cbn [data width].
  destruct (cell_index (width dst) (height dst) x y Hx Hy) as (Hm & Hd & Hlt).
  rewrite pixelFrom_render by exact Hlt. cbv zeta. rewrite Hm, Hd.
  apply sourceOver_transparent. cbn [alpha painted].
  rewrite pixelIn_inside by lia. rewrite Hinv by lia. reflexivity.
Qed.

End CompositeFacts.

Section ProcessFrameFacts.
Context {M : MathLib} {R : Canvas.Rasterizer}.
Import Canvas FaceSwapEngine.

Lemma blank_invisible (w h : nat) : invisible (blank w h).
Proof.
  intros x y Hx Hy. cbn [width height blank] in Hx, Hy.
  rewrite pixelAt_blank by assumption. reflexivity.
Qed.

(** With an invisible overlay the composite is the pass-through copy,
    whatever the later steps do and whether or not they throw. *)
Lemma composite_invisible_overlay
      (opts : FaceSwapOptions) (cc : bool) (scratch sourceVideo out : Bitmap)
      (face : MediaPipe.FaceDetection) (e : Engine) (w h : nat) :
  width out = w -> height out = h ->
  width scratch = w -> height scratch = h -> invisible scratch ->
  let scratch2 :=
    if cc then applyColorCorrection scratch sourceVideo w h else scratch in
  samePixels
    (output
       match applyFeathering opts scratch2 face w h with
       | Throw ex => {| after := withCanvas e scratch2; output := out; thrown := Some ex |}
       | Normal scratch3 =>
           match drawCanvas 1 out scratch3 with
           | Throw ex =>
               {| after := withCanvas e scratch3; output := out; thrown := Some ex |}
           | Normal out' =>
               {| after := withCanvas e scratch3; output := out'; thrown := None |}
           end
       end)
    out.
Proof.
  intros Hwo Hho Hw Hh Hinv scratch2.
  assert (H2 : width scratch2 = w /\ height scratch2 = h /\ invisible scratch2).
  { subst scratch2. destruct cc.
    - apply correction_keeps_invisible; assumption.
    - split; [exact Hw|]. split; [exact Hh|exact Hinv]. }
  destruct H2 as (Hw2 & Hh2 & Hinv2).
  destruct (applyFeathering opts scratch2 face w h)
    as [scratch3|ex] eqn:Ef; [|apply samePixels_refl].
  destruct (feathering_keeps_invisible opts scratch2 face _ _ scratch3 Hw2 Hh2 Hinv2 Ef)
    as (Hw3 & Hh3 & Hinv3).
  destruct (drawCanvas 1 out scratch3) as [out'|ex] eqn:Ed; [|apply samePixels_refl].
  cbn [output]. apply (drawCanvas_invisible out scratch3 out'); [lia | lia | exact Hinv3 | exact Ed].
Qed.

End ProcessFrameFacts.

(** C4: with no geometry or no target, [processFrame] draws the source
    frame into the output canvas at the canvas's size and does nothing
    else; a call with a target but no geometry gives the same output
    as a call on the engine without the target. *)
Theorem composite_without_target_or_geometry
  (M : MathLib) (R : Canvas.Rasterizer) (e : FaceSwapEngine.Engine)
  (sourceVideo outputCanvas : Canvas.Bitmap) (sourceFace : option MediaPipe.FaceDetection) :
  (sourceFace = None \/ FaceSwapEngine.targetFaceImage e = None) ->
  FaceSwapEngine.processFrame e sourceVideo sourceFace outputCanvas
  = {| FaceSwapEngine.after := e;
       FaceSwapEngine.output := passThrough sourceVideo outputCanvas;
       FaceSwapEngine.thrown := None |} /\
  FaceSwapEngine.output
    (FaceSwapEngine.processFrame e sourceVideo None outputCanvas)
  = FaceSwapEngine.output
      (FaceSwapEngine.processFrame (FaceSwapEngine.clearTargetFace e)
         sourceVideo sourceFace outputCanvas).
Proof.
  intros H. split.
  - unfold FaceSwapEngine.processFrame, passThrough. cbv zeta.
    destruct H as [->| ->]; [reflexivity|]. destruct sourceFace; reflexivity.
  - unfold FaceSwapEngine.processFrame. cbv zeta.
    cbn [FaceSwapEngine.targetFaceImage FaceSwapEngine.clearTargetFace].
    destruct sourceFace; reflexivity.
Qed.

(** C9: after [setOptions({blendAmount: 0})] a composite with a target
    and a geometry leaves an output that agrees, pixel by pixel, with
    the pass-through copy, which is also what the engine without the
    target produces. *)
Theorem zero_blend_is_pass_through
  (M : MathLib) (R : Canvas.Rasterizer) (e : FaceSwapEngine.Engine)
  (targetImage sourceVideo outputCanvas : Canvas.Bitmap)
  (sourceFace : MediaPipe.FaceDetection) :
  FaceSwapEngine.targetFaceImage e = Some targetImage ->
  Canvas.samePixels
    (FaceSwapEngine.output
       (FaceSwapEngine.processFrame (FaceSwapEngine.setOptions e Examples.zeroBlend)
          sourceVideo (Some sourceFace) outputCanvas))
    (passThrough sourceVideo outputCanvas) /\
  FaceSwapEngine.output
    (FaceSwapEngine.processFrame (FaceSwapEngine.clearTargetFace e)
       sourceVideo (Some sourceFace) outputCanvas)
  = passThrough sourceVideo outputCanvas.
Proof.
  intros Ht. split; [|reflexivity].
  unfold FaceSwapEngine.processFrame. cbv zeta.
  cbn [FaceSwapEngine.targetFaceImage FaceSwapEngine.setOptions]. rewrite Ht.
  fold (passThrough sourceVideo outputCanvas).
  set (out := passThrough sourceVideo outputCanvas).
  destruct (Canvas.ellipse _ _ _ _) as [clip|ex]; [|apply samePixels_refl].
  change (Canvas.setGlobalAlpha 1
            (FaceSwapEngine.blendAmount
               (FaceSwapEngine.options (FaceSwapEngine.setOptions e Examples.zeroBlend))))
    with 0.
  destruct (JS.gt _ _); cbv beta iota;
    (apply composite_invisible_overlay;
     [ apply drawImage_width | apply drawImage_height
     | exact (drawImage_width _ _ (Canvas.blank _ _) _ _ _ _ _)
     | exact (drawImage_height _ _ (Canvas.blank _ _) _ _ _ _ _)
     | intros x y Hx Hy;
       rewrite drawImage_width in Hx; rewrite drawImage_height in Hy;
       rewrite drawImage_zero_alpha by assumption;
       apply blank_invisible; assumption ]).
Qed.

Section SkipComposite.
Context {M : MathLib} {R : Canvas.Rasterizer}.
Import Canvas FaceSwapEngine.

Lemma feathering_off (opts : FaceSwapOptions) (scratch : Bitmap)
      (face : MediaPipe.FaceDetection) (w h : nat) :
  featherAmount opts <= 0 -> applyFeathering opts scratch face w h = Normal scratch.
Proof.
  intros Hf. unfold applyFeathering. cbv zeta.
  rewrite (le_true_of_le _ _ Hf). reflexivity.
Qed.

Lemma feathering_empty_outline (opts : FaceSwapOptions) (scratch : Bitmap)
      (face : MediaPipe.FaceDetection) (w h : nat) :
  MediaPipe.faceOval face = [] -> applyFeathering opts scratch face w h = Normal scratch.
Proof.
  intros Ho. unfold applyFeathering. cbv zeta. rewrite Ho.
  destruct (JS.le _ _); reflexivity.
Qed.



Lemma feathering_reads_featherAmount (o1 o2 : FaceSwapOptions) (scratch : Bitmap)
      (face : MediaPipe.FaceDetection) (w h : nat) :
  featherAmount o1 = featherAmount o2 ->
  applyFeathering o1 scratch face w h = applyFeathering o2 scratch face w h.
Proof. intros H. unfold applyFeathering. rewrite H. reflexivity. Qed.


End SkipComposite.






(** C4 on an engine that holds a target and is given no geometry. *)
Lemma composite_without_target_or_geometry_witness :
  @FaceSwapEngine.processFrame Reference.math Reference.raster
    Examples.engineB Examples.blackFrame None (Canvas.blank 2 2)
  = {| FaceSwapEngine.after := Examples.engineB;
       FaceSwapEngine.output :=
         @passThrough Reference.raster Examples.blackFrame (Canvas.blank 2 2);
       FaceSwapEngine.thrown := None |}.
Proof.
  apply (composite_without_target_or_geometry Reference.math Reference.raster
           Examples.engineB Examples.blackFrame (Canvas.blank 2 2) None).
  left. reflexivity.
Defined.

(** C9 on the black frame with the four-point outline. *)
Lemma zero_blend_is_pass_through_witness :
  Canvas.samePixels
    (FaceSwapEngine.output
       (@FaceSwapEngine.processFrame Reference.math Reference.raster
          (FaceSwapEngine.setOptions Examples.engineB Examples.zeroBlend)
          Examples.blackFrame (Some Examples.diamondFace) (Canvas.blank 2 2)))
    (@passThrough Reference.raster Examples.blackFrame (Canvas.blank 2 2)).
Proof.
  apply (zero_blend_is_pass_through Reference.math Reference.raster
           Examples.engineB Examples.imageB Examples.blackFrame (Canvas.blank 2 2)
           Examples.diamondFace).
  reflexivity.
Defined.




(** * Further properties of the code *)

(** ** The stages of a composite *)

Section StageFacts.
Context {M : MathLib} {R : Canvas.Rasterizer}.
Import Canvas FaceSwapEngine.

Lemma lt_true_iff (a b : Q) : JS.lt a b = true <-> a < b.
Proof.
  unfold JS.lt. rewrite negb_true_iff. split.
  - intros H. apply Qnot_le_lt. intros Hle. apply Qle_bool_iff in Hle. congruence.
  - intros H. destruct (Qle_bool b a) eqn:E; [|reflexivity].
    apply Qle_bool_iff in E. exfalso. exact (Qlt_not_le _ _ H E).
Qed.

Lemma lt_false_iff (a b : Q) : JS.lt a b = false <-> b <= a.
Proof.
  unfold JS.lt. rewrite negb_false_iff. apply Qle_bool_iff.
Qed.

(** [ctx.ellipse] throws exactly on a negative radius. *)
Lemma ellipse_cases (cx cy rx ry : Q) :
  (ellipse cx cy rx ry = Throw IndexSizeError /\ (rx < 0 \/ ry < 0)) \/
  (ellipse cx cy rx ry = Normal {| e_cx := cx; e_cy := cy; e_rx := rx; e_ry := ry |} /\
   0 <= rx /\ 0 <= ry).
Proof.
  unfold ellipse.
  destruct (JS.lt rx 0) eqn:Ex; cbn [orb].
  - left. split; [reflexivity|]. left. apply lt_true_iff. exact Ex.
  - destruct (JS.lt ry 0) eqn:Ey.
    + left. split; [reflexivity|]. right. apply lt_true_iff. exact Ey.
    + right. split; [reflexivity|]. split; apply lt_false_iff; assumption.
Qed.

(** [ctx.drawImage(canvas, 0, 0)] throws exactly on a canvas without
    pixels; otherwise every pixel is composited over the destination. *)
Lemma drawCanvas_cases (ga : Q) (dst src : Bitmap) :
  (drawCanvas ga dst src = Throw InvalidStateError /\
   (width src = 0%nat \/ height src = 0%nat)) \/
  exists result : Bitmap,
    drawCanvas ga dst src = Normal result /\
    (0 < width src)%nat /\ (0 < height src)%nat /\
    width result = width dst /\ height result = height dst /\
    forall x y, (x < width dst)%nat -> (y < height dst)%nat ->
      pixelAt result x y
      = sourceOver (painted ga 1 (pixelIn src (Z.of_nat x) (Z.of_nat y)))
                   (pixelAt dst x y).
Proof.
  unfold drawCanvas.
  destruct (width src =? 0)%nat eqn:Ew; cbn [orb].
  - left. split; [reflexivity|]. left. apply Nat.eqb_eq. exact Ew.
  - destruct (height src =? 0)%nat eqn:Eh.
    + left. split; [reflexivity|]. right. apply Nat.eqb_eq. exact Eh.
    + right. eexists. split; [reflexivity|].
      apply Nat.eqb_neq in Ew. apply Nat.eqb_neq in Eh.
      split; [lia|]. split; [lia|]. split; [reflexivity|]. split; [reflexivity|].
      intros x y Hx Hy. unfold pixelAt at 1. cbn [data width].
      destruct (cell_index (width dst) (height dst) x y Hx Hy) as (Hm & Hd & Hlt).
      rewrite pixelFrom_render by exact Hlt. cbv zeta. rewrite Hm, Hd. reflexivity.
Qed.

(** A clipped draw paints each pixel with the coverage the clip region
    has there. *)
Lemma drawImage_clip_pixel (ga : Q) (clip : Ellipse) (dst src : Bitmap)
      (dx dy dw dh : Q) (x y : nat) :
  (x < width dst)%nat -> (y < height dst)%nat ->
  pixelAt (drawImage ga (Some clip) dst src dx dy dw dh) x y = pixelAt dst x y \/
  pixelAt (drawImage ga (Some clip) dst src dx dy dw dh) x y
  = sourceOver (painted ga (clipCoverage clip x y) (resample src dx dy dw dh x y))
               (pixelAt dst x y).
Proof.
  intros Hx Hy. unfold drawImage. destruct (_ || _)%bool; [left; reflexivity|].
  right. unfold pixelAt at 1. cbn [data width].
  destruct (cell_index (width dst) (height dst) x y Hx Hy) as (Hm & Hd & Hlt).
  rewrite pixelFrom_render by exact Hlt. cbv zeta. rewrite Hm, Hd. reflexivity.
Qed.

Lemma drawImage_originClean (ga : Q) (clip : option Ellipse) (dst src : Bitmap)
      (dx dy dw dh : Q) :
  originClean dst = true -> originClean src = true ->
  originClean (drawImage ga clip dst src dx dy dw dh) = true.
Proof.
  intros Hd Hs. unfold drawImage. destruct (_ || _)%bool; [exact Hd|].
  cbn [originClean]. rewrite Hd, Hs. reflexivity.
Qed.

(** Colour correction keeps the size and the origin-clean flag of the
    scratch canvas. *)
Lemma correction_shape (scratch sourceVideo : Bitmap) (w h : nat) :
  width scratch = w -> height scratch = h ->
  let corrected := applyColorCorrection scratch sourceVideo w h in
  width corrected = w /\ height corrected = h /\
  originClean corrected = originClean scratch.
Proof.
  intros <- <- corrected.
  destruct (correction_cases scratch sourceVideo) as [H|(r & g & b & Hw & Hh & Hc & _)].
  - fold corrected in H. rewrite H. repeat split.
  - repeat split; assumption.
Qed.

Lemma feathering_shape (opts : FaceSwapOptions) (scratch result : Bitmap)
      (face : MediaPipe.FaceDetection) (w h : nat) :
  width scratch = w -> height scratch = h ->
  applyFeathering opts scratch face w h = Normal result ->
  width result = w /\ height result = h.
Proof.
  intros <- <- Hrun.
  destruct (feathering_cases opts scratch face)
    as [(ex & H)|[H|(cx & cy & md & res & H & Hw & Hh & _)]];
    rewrite H in Hrun; [discriminate Hrun| |]; injection Hrun as <-; split;
    first [reflexivity | assumption].
Qed.

(** Feathering a readable canvas that has pixels does not throw. *)
Lemma feathering_completes (opts : FaceSwapOptions) (scratch : Bitmap)
      (face : MediaPipe.FaceDetection) (w h : nat) :
  width scratch = w -> height scratch = h ->
  originClean scratch = true -> (0 < w)%nat -> (0 < h)%nat ->
  exists result, applyFeathering opts scratch face w h = Normal result.
Proof.
  intros <- <- Hc Hw Hh.
  destruct (Qlt_le_dec 0 (featherAmount opts)) as [Hf|Hf].
  - destruct (MediaPipe.faceOval face) as [|p ps] eqn:Eo.
    + exists scratch. apply feathering_empty_outline. exact Eo.
    + assert (Hne : MediaPipe.faceOval face <> []) by (rewrite Eo; discriminate).
      destruct (feathering_pixels opts scratch face Hf Hne Hc Hw Hh)
        as (result & Hrun & _).
      exists result. exact Hrun.
  - exists scratch. apply feathering_off. exact Hf.
Qed.

End StageFacts.

Section Stages.
Context {M : MathLib} {R : Canvas.Rasterizer}.
Import Canvas FaceSwapEngine.

(** A composite with a geometry and a target either stops at the clip
    region, which has a negative half-axis, or draws the target through
    the clip into a cleared scratch canvas and goes on from there. *)
Lemma processFrame_stages (e : Engine) (sourceVideo outputCanvas target : Bitmap)
      (sourceFace : MediaPipe.FaceDetection) :
  targetFaceImage e = Some target ->
  let w := width outputCanvas in
  let h := height outputCanvas in
  let clip := faceClip (MediaPipe.boundingBox sourceFace) w h in
  (processFrame e sourceVideo (Some sourceFace) outputCanvas
   = {| after := withCanvas e (blank w h);
        output := passThrough sourceVideo outputCanvas;
        thrown := Some IndexSizeError |} /\
   (e_rx clip < 0 \/ e_ry clip < 0)) \/
  (0 <= e_rx clip /\ 0 <= e_ry clip /\
   exists dx dy dw dh : Q,
     targetRect (MediaPipe.boundingBox sourceFace) target w h = (dx, dy, dw, dh) /\
     processFrame e sourceVideo (Some sourceFace) outputCanvas
     = overlaid e sourceVideo (passThrough sourceVideo outputCanvas)
         (drawImage (setGlobalAlpha 1 (blendAmount (options e))) (Some clip)
                    (blank w h) target dx dy dw dh)
         sourceFace w h).
Proof.
  intros Ht w h clip.
  unfold processFrame. cbv zeta. rewrite Ht.
  fold (passThrough sourceVideo outputCanvas). fold w. fold h.
  match goal with
  | |- context [ellipse ?cx ?cy ?rx ?ry] =>
      destruct (ellipse_cases cx cy rx ry) as [[-> Hneg]|[-> [Hrx Hry]]]
  end.
  - left. split; [reflexivity|exact Hneg].
  - right. split; [exact Hrx|]. split; [exact Hry|].
    unfold targetRect. cbv zeta. fold w. fold h.
    destruct (JS.gt _ _); cbv beta iota; eexists _, _, _, _; split; reflexivity.
Qed.

End Stages.

Section OverlayFacts.
Context {M : MathLib} {R : Canvas.Rasterizer}.
Import Canvas FaceSwapEngine.

Lemma scaled_nonneg (v c : Q) (n : nat) : 0 <= v -> 0 <= c -> 0 <= v * c * JS.num n.
Proof.
  intros Hv Hc. apply Qmult_le_0_compat; [apply Qmult_le_0_compat; assumption|].
  unfold JS.num. change 0 with (inject_Z 0). rewrite <- Zle_Qle. lia.
Qed.



(** The later steps keep the size and the readability of the scratch
    canvas up to feathering. *)
Lemma corrected_shape (cc : bool) (scratch sourceVideo : Bitmap) (w h : nat) :
  width scratch = w -> height scratch = h ->
  let scratch2 := if cc then applyColorCorrection scratch sourceVideo w h else scratch in
  width scratch2 = w /\ height scratch2 = h /\ originClean scratch2 = originClean scratch.
Proof.
  intros Hw Hh. destruct cc; cbv zeta.
  - apply correction_shape; assumption.
  - repeat split; assumption.
Qed.

Lemma overlaid_completes (e : Engine) (sourceVideo out scratch : Bitmap)
      (face : MediaPipe.FaceDetection) (w h : nat) :
  width scratch = w -> height scratch = h -> originClean scratch = true ->
  (0 < w)%nat -> (0 < h)%nat ->
  thrown (overlaid e sourceVideo out scratch face w h) = None.
Proof.
  intros Hw Hh Hc Hpw Hph. unfold overlaid. cbv zeta.
  destruct (corrected_shape (colorCorrection (options e)) scratch sourceVideo w h Hw Hh)
    as (Hw2 & Hh2 & Hc2).
  rewrite Hc in Hc2.
  destruct (feathering_completes (options e) _ face w h Hw2 Hh2 Hc2 Hpw Hph)
    as (scratch3 & Hrun).
  rewrite Hrun.
  destruct (feathering_shape _ _ _ _ _ _ Hw2 Hh2 Hrun) as (Hw3 & Hh3).
  destruct (drawCanvas_cases 1 out scratch3) as [[_ Hz]|(result & -> & _)];
    [exfalso; lia|reflexivity].
Qed.

Lemma overlaid_failure (e : Engine) (sourceVideo out scratch : Bitmap)
      (face : MediaPipe.FaceDetection) (w h : nat) :
  thrown (overlaid e sourceVideo out scratch face w h) <> None ->
  output (overlaid e sourceVideo out scratch face w h) = out.
Proof.
  unfold overlaid. cbv zeta.
  destruct (applyFeathering _ _ _ _ _) as [scratch3|ex]; [|reflexivity].
  destruct (drawCanvas 1 out scratch3) as [result|ex]; [|reflexivity].
  cbn [thrown]. congruence.
Qed.

Lemma overlaid_empty (e : Engine) (sourceVideo out scratch : Bitmap)
      (face : MediaPipe.FaceDetection) (w h : nat) :
  width scratch = w -> height scratch = h -> (w = 0 \/ h = 0)%nat ->
  thrown (overlaid e sourceVideo out scratch face w h) <> None.
Proof.
  intros Hw Hh Hz. unfold overlaid. cbv zeta.
  destruct (corrected_shape (colorCorrection (options e)) scratch sourceVideo w h Hw Hh)
    as (Hw2 & Hh2 & _).
  destruct (applyFeathering _ _ _ _ _) as [scratch3|ex] eqn:Hrun; [|discriminate].
  destruct (feathering_shape _ _ _ _ _ _ Hw2 Hh2 Hrun) as (Hw3 & Hh3).
  destruct (drawCanvas_cases 1 out scratch3) as [[-> _]|(result & _ & Hpw & Hph & _)];
    [discriminate|exfalso; lia].
Qed.

(** A pixel the scratch canvas leaves transparent is a pixel of the
    output that the overlay does not touch. *)
Lemma overlaid_pixel (e : Engine) (sourceVideo out scratch : Bitmap)
      (face : MediaPipe.FaceDetection) (w h x y : nat) :
  width out = w -> height out = h -> width scratch = w -> height scratch = h ->
  (x < w)%nat -> (y < h)%nat -> alpha (pixelAt scratch x y) = 0%Z ->
  pixelAt (output (overlaid e sourceVideo out scratch face w h)) x y = pixelAt out x y.
Proof.
  intros Hwo Hho <- <- Hx Hy Ha. unfold overlaid. cbv zeta.
  set (scratch2 := if colorCorrection (options e) then _ else _).
  assert (H2 : width scratch2 = width scratch /\ height scratch2 = height scratch /\
               pixelAt scratch2 x y = pixelAt scratch x y).
  { subst scratch2. destruct (colorCorrection (options e)).
    - destruct (correction_cases scratch sourceVideo)
        as [->|(r & g & b & Hcw & Hch & _ & Hpx)]; [repeat split|].
      split; [exact Hcw|]. split; [exact Hch|].
      rewrite Hpx by assumption. apply correctPixel_transparent. exact Ha.
    - repeat split; assumption. }
  destruct H2 as (Hw2 & Hh2 & Hp2).
  destruct (applyFeathering _ _ _ _ _) as [scratch3|ex] eqn:Hrun; [|reflexivity].
  assert (H3 : width scratch3 = width scratch /\ height scratch3 = height scratch /\
               pixelAt scratch3 x y = pixelAt scratch x y).
  { rewrite <- Hw2, <- Hh2 in Hrun. rewrite <- Hp2, <- Hw2, <- Hh2.
    destruct (feathering_cases (options e) scratch2 face)
      as [(ex & H)|[H|(cx & cy & md & res & H & Hfw & Hfh & Hpx)]];
      rewrite H in Hrun; [discriminate Hrun| |]; injection Hrun as <-.
    - repeat split.
    - split; [exact Hfw|]. split; [exact Hfh|].
      rewrite Hpx by lia. apply featherPixel_transparent.
      rewrite Hp2. exact Ha. }
  destruct H3 as (Hw3 & Hh3 & Hp3).
  destruct (drawCanvas_cases 1 out scratch3)
    as [[-> _]|(result & -> & _ & _ & _ & _ & Hpx)]; [reflexivity|].
  cbn [output]. rewrite Hpx by lia.
  apply sourceOver_transparent. cbn [alpha painted].
  rewrite pixelIn_inside by lia. rewrite Hp3, Ha. reflexivity.
Qed.

(** Where the clip region has no coverage, the scratch canvas stays
    transparent when the target is drawn. *)
Lemma clipped_target_transparent (ga : Q) (clip : Ellipse) (target : Bitmap)
      (dx dy dw dh : Q) (w h x y : nat) :
  (x < w)%nat -> (y < h)%nat -> clipCoverage clip x y == 0 ->
  alpha (pixelAt (drawImage ga (Some clip) (blank w h) target dx dy dw dh) x y) = 0%Z.
Proof.
  intros Hx Hy Hcov.
  destruct (drawImage_clip_pixel ga clip (blank w h) target dx dy dw dh x y Hx Hy)
    as [H|H]; rewrite H.
  - rewrite pixelAt_blank by assumption. reflexivity.
  - rewrite sourceOver_transparent.
    + rewrite pixelAt_blank by assumption. reflexivity.
    + cbn [alpha painted]. apply ToUint8Clamp_zero. rewrite Hcov. ring.
Qed.

(** A composite with a target does not throw on a canvas that has
    pixels, a box of non-negative size and a readable target. *)
Lemma composite_with_target_completes (e : Engine) (sourceVideo outputCanvas target : Bitmap)
      (face : MediaPipe.FaceDetection) :
  targetFaceImage e = Some target -> originClean target = true ->
  (0 < width outputCanvas)%nat -> (0 < height outputCanvas)%nat ->
  0 <= MediaPipe.bb_width (MediaPipe.boundingBox face) ->
  0 <= MediaPipe.bb_height (MediaPipe.boundingBox face) ->
  thrown (processFrame e sourceVideo (Some face) outputCanvas) = None.
Proof.
  intros Ht Hclean Hw Hh Hbw Hbh.
  destruct (processFrame_stages e sourceVideo outputCanvas target face Ht)
    as [[_ Hneg]|(_ & _ & dx & dy & dw & dh & _ & ->)].
  - exfalso. cbn [faceClip e_rx e_ry] in Hneg.
    destruct Hneg as [Hneg|Hneg]; revert Hneg; apply Qle_not_lt;
      (apply Qmult_le_0_compat; [apply scaled_nonneg; [assumption|lra] | lra]).
  - apply overlaid_completes; [ | | |exact Hw|exact Hh].
    + exact (drawImage_width _ _ (blank _ _) _ _ _ _ _).
    + exact (drawImage_height _ _ (blank _ _) _ _ _ _ _).
    + apply drawImage_originClean; [reflexivity|exact Hclean].
Qed.

(** A composite keeps the size of the output canvas. *)
Lemma processFrame_output_size (e : Engine) (sourceVideo outputCanvas : Bitmap)
      (sourceFace : option MediaPipe.FaceDetection) :
  width (output (processFrame e sourceVideo sourceFace outputCanvas)) = width outputCanvas /\
  height (output (processFrame e sourceVideo sourceFace outputCanvas)) = height outputCanvas.
Proof.
  unfold processFrame. cbv zeta.
  destruct sourceFace as [face|];
    [|split; first [apply drawImage_width | apply drawImage_height]].
  destruct (targetFaceImage e) as [target|];
    [|split; first [apply drawImage_width | apply drawImage_height]].
  destruct (ellipse _ _ _ _) as [clip|ex];
    [|split; first [apply drawImage_width | apply drawImage_height]].
  destruct (JS.gt _ _); cbv beta iota;
    (destruct (applyFeathering _ _ _ _ _) as [scratch3|ex];
     [|split; first [apply drawImage_width | apply drawImage_height]];
     destruct (drawCanvas_cases 1
                 (drawImage 1 None outputCanvas sourceVideo 0 0
                    (JS.num (width outputCanvas)) (JS.num (height outputCanvas))) scratch3)
       as [[-> _]|(result & -> & _ & _ & Hw & Hh & _)];
     cbn [output];
     split;
     first [apply drawImage_width | apply drawImage_height
           | rewrite Hw; apply drawImage_width | rewrite Hh; apply drawImage_height]).
Qed.

End OverlayFacts.

(** X1: a composite keeps the target, the options and the canvas size. *)
Theorem composite_keeps_target_options_size
  (M : MathLib) (R : Canvas.Rasterizer) (e : FaceSwapEngine.Engine)
  (sourceVideo outputCanvas : Canvas.Bitmap) (sourceFace : option MediaPipe.FaceDetection) :
  let r := FaceSwapEngine.processFrame e sourceVideo sourceFace outputCanvas in
  FaceSwapEngine.targetFaceImage (FaceSwapEngine.after r) = FaceSwapEngine.targetFaceImage e /\
  FaceSwapEngine.options (FaceSwapEngine.after r) = FaceSwapEngine.options e /\
  Canvas.width (FaceSwapEngine.output r) = Canvas.width outputCanvas /\
  Canvas.height (FaceSwapEngine.output r) = Canvas.height outputCanvas.
Proof.
  cbv zeta.
  split; [|split; [|apply processFrame_output_size]];
    (unfold FaceSwapEngine.processFrame; cbv zeta;
     destruct sourceFace as [face|]; [|reflexivity];
     destruct (FaceSwapEngine.targetFaceImage e) as [target|] eqn:Ht;
       [|first [exact Ht | reflexivity]];
     destruct (Canvas.ellipse _ _ _ _) as [clip|ex]; [|first [exact Ht | reflexivity]];
     destruct (JS.gt _ _); cbv beta iota;
       (destruct (FaceSwapEngine.applyFeathering _ _ _ _ _) as [scratch3|ex];
        [|first [exact Ht | reflexivity]];
        destruct (Canvas.drawCanvas _ _ _); first [exact Ht | reflexivity])).
Qed.

(** X2: with a canvas that has pixels, a box of non-negative size and a
    readable target, a composite does not throw. *)
Theorem composite_completes
  (M : MathLib) (R : Canvas.Rasterizer) (e : FaceSwapEngine.Engine)
  (sourceVideo outputCanvas : Canvas.Bitmap) (sourceFace : option MediaPipe.FaceDetection) :
  (0 < Canvas.width outputCanvas)%nat -> (0 < Canvas.height outputCanvas)%nat ->
  (forall face, sourceFace = Some face ->
     0 <= MediaPipe.bb_width (MediaPipe.boundingBox face) /\
     0 <= MediaPipe.bb_height (MediaPipe.boundingBox face)) ->
  (forall img, FaceSwapEngine.targetFaceImage e = Some img ->
     Canvas.originClean img = true) ->
  FaceSwapEngine.thrown
    (FaceSwapEngine.processFrame e sourceVideo sourceFace outputCanvas) = None.
Proof.
  intros Hw Hh Hbox Hclean.
  destruct sourceFace as [face|]; [|reflexivity].
  destruct (FaceSwapEngine.targetFaceImage e) as [target|] eqn:Ht;
    [|unfold FaceSwapEngine.processFrame; cbv zeta; rewrite Ht; reflexivity].
  destruct (Hbox face eq_refl) as [Hbw Hbh].
  apply (composite_with_target_completes e sourceVideo outputCanvas target face);
    auto.
Qed.

(** X3: when a composite throws, the output canvas holds the
    pass-through frame and nothing of the overlay. *)
Theorem composite_failure_leaves_pass_through
  (M : MathLib) (R : Canvas.Rasterizer) (e : FaceSwapEngine.Engine)
  (sourceVideo outputCanvas : Canvas.Bitmap) (sourceFace : option MediaPipe.FaceDetection) :
  FaceSwapEngine.thrown
    (FaceSwapEngine.processFrame e sourceVideo sourceFace outputCanvas) <> None ->
  FaceSwapEngine.output
    (FaceSwapEngine.processFrame e sourceVideo sourceFace outputCanvas)
  = passThrough sourceVideo outputCanvas.
Proof.
  destruct sourceFace as [face|]; [|reflexivity].
  destruct (FaceSwapEngine.targetFaceImage e) as [target|] eqn:Ht;
    [|unfold FaceSwapEngine.processFrame; cbv zeta; rewrite Ht; reflexivity].
  destruct (processFrame_stages e sourceVideo outputCanvas target face Ht)
    as [[-> _]|(_ & _ & dx & dy & dw & dh & _ & ->)]; [reflexivity|].
  apply overlaid_failure.
Qed.


(** X5: with a geometry and a target, an output canvas without pixels
    always makes the composite throw. *)
Theorem composite_needs_pixels
  (M : MathLib) (R : Canvas.Rasterizer) (e : FaceSwapEngine.Engine)
  (sourceVideo outputCanvas target : Canvas.Bitmap) (sourceFace : MediaPipe.FaceDetection) :
  FaceSwapEngine.targetFaceImage e = Some target ->
  (Canvas.width outputCanvas = 0 \/ Canvas.height outputCanvas = 0)%nat ->
  FaceSwapEngine.thrown
    (FaceSwapEngine.processFrame e sourceVideo (Some sourceFace) outputCanvas) <> None.
Proof.
  intros Ht Hz.
  destruct (processFrame_stages e sourceVideo outputCanvas target sourceFace Ht)
    as [[-> _]|(_ & _ & dx & dy & dw & dh & _ & ->)]; [discriminate|].
  apply overlaid_empty; [ | |exact Hz].
  - exact (drawImage_width _ _ (Canvas.blank _ _) _ _ _ _ _).
  - exact (drawImage_height _ _ (Canvas.blank _ _) _ _ _ _ _).
Qed.

(** X6: the overlay stays inside the clip region: where the clip has no
    coverage, the output pixel is the pixel of the pass-through frame. *)
Theorem overlay_confined_to_clip
  (M : MathLib) (R : Canvas.Rasterizer) (e : FaceSwapEngine.Engine)
  (sourceVideo outputCanvas : Canvas.Bitmap) (sourceFace : MediaPipe.FaceDetection)
  (x y : nat) :
  (x < Canvas.width outputCanvas)%nat -> (y < Canvas.height outputCanvas)%nat ->
  Canvas.clipCoverage
    (faceClip (MediaPipe.boundingBox sourceFace)
       (Canvas.width outputCanvas) (Canvas.height outputCanvas)) x y == 0 ->
  Canvas.pixelAt
    (FaceSwapEngine.output
       (FaceSwapEngine.processFrame e sourceVideo (Some sourceFace) outputCanvas)) x y
  = Canvas.pixelAt (passThrough sourceVideo outputCanvas) x y.
Proof.
  intros Hx Hy Hcov.
  destruct (FaceSwapEngine.targetFaceImage e) as [target|] eqn:Ht;
    [|unfold FaceSwapEngine.processFrame; cbv zeta; rewrite Ht; reflexivity].
  destruct (processFrame_stages e sourceVideo outputCanvas target sourceFace Ht)
    as [[-> _]|(_ & _ & dx & dy & dw & dh & _ & ->)]; [reflexivity|].
  apply overlaid_pixel; try assumption.
  - apply drawImage_width.
  - apply drawImage_height.
  - exact (drawImage_width _ _ (Canvas.blank _ _) _ _ _ _ _).
  - exact (drawImage_height _ _ (Canvas.blank _ _) _ _ _ _ _).
  - apply clipped_target_transparent; assumption.
Qed.

Section OpacityFacts.
Context {M : MathLib} {R : Canvas.Rasterizer}.
Import Canvas FaceSwapEngine.

(** An assignment to [globalAlpha] outside [0, 1] is ignored. *)
Lemma setGlobalAlpha_ignored (current v : Q) : v < 0 \/ 1 < v -> setGlobalAlpha current v = current.
Proof.
  intros H. unfold setGlobalAlpha, JS.le.
  destruct (Qle_bool 0 v) eqn:E0; [|reflexivity].
  destruct (Qle_bool v 1) eqn:E1; [|reflexivity].
  apply Qle_bool_iff in E0. apply Qle_bool_iff in E1. exfalso. destruct H; lra.
Qed.

Lemma setGlobalAlpha_kept (current v : Q) : 0 <= v <= 1 -> setGlobalAlpha current v = v.
Proof.
  intros [H0 H1]. unfold setGlobalAlpha, JS.le.
  apply Qle_bool_iff in H0. apply Qle_bool_iff in H1. rewrite H0, H1. reflexivity.
Qed.

(** The later steps read the options for the feather width and the
    colour-correction switch only. *)
Lemma overlaid_reads (e1 e2 : Engine) (sourceVideo out scratch : Bitmap)
      (face : MediaPipe.FaceDetection) (w h : nat) :
  featherAmount (options e1) = featherAmount (options e2) ->
  colorCorrection (options e1) = colorCorrection (options e2) ->
  observable (overlaid e1 sourceVideo out scratch face w h)
  = observable (overlaid e2 sourceVideo out scratch face w h).
Proof.
  intros Hf Hc. unfold overlaid. cbv zeta. rewrite Hc.
  rewrite (feathering_reads_featherAmount (options e1) (options e2) _ face w h Hf).
  destruct (applyFeathering _ _ _ _ _) as [scratch3|ex]; [|reflexivity].
  destruct (drawCanvas 1 out scratch3); reflexivity.
Qed.

(** A clipped draw of a source that has pixels paints every pixel. *)
Lemma drawImage_clip_drawn (ga : Q) (clip : Ellipse) (dst src : Bitmap)
      (dx dy dw dh : Q) (x y : nat) :
  (0 < width src)%nat -> (0 < height src)%nat ->
  (x < width dst)%nat -> (y < height dst)%nat ->
  pixelAt (drawImage ga (Some clip) dst src dx dy dw dh) x y
  = sourceOver (painted ga (clipCoverage clip x y) (resample src dx dy dw dh x y))
               (pixelAt dst x y).
Proof.
  intros Hw Hh Hx Hy. unfold drawImage.
  destruct (Nat.eqb_spec (width src) 0); [lia|].
  destruct (Nat.eqb_spec (height src) 0); [lia|]. cbn [orb].
  unfold pixelAt at 1. cbn [data width].
  destruct (cell_index (width dst) (height dst) x y Hx Hy) as (Hm & Hd & Hlt).
  rewrite pixelFrom_render by exact Hlt. cbv zeta. rewrite Hm, Hd. reflexivity.
Qed.

(** An opaque sample painted at full opacity and full coverage replaces
    what is under it. *)
Lemma opaque_sample_replaces (ga coverage : Q) (s d : Pixel) :
  ga == 1 -> coverage == 1 -> alpha s = 255%Z ->
  sourceOver (painted ga coverage s) d = s.
Proof.
  intros Hga Hcov Ha. unfold sourceOver, painted. cbn [alpha].
  assert (H : JS.ToUint8Clamp (inject_Z (alpha s) * ga * coverage) = 255%Z).
  { rewrite (ToUint8Clamp_compat _ 255); [reflexivity|]. rewrite Ha, Hga, Hcov. reflexivity. }
  rewrite H. cbn. destruct s as [r g b a]. cbn in Ha. subst a. reflexivity.
Qed.

End OpacityFacts.

(** X7: a blend amount outside [0, 1] is not clamped: the composite is
    the one at full opacity. *)
Theorem out_of_range_blend_is_full_opacity
  (M : MathLib) (R : Canvas.Rasterizer) (e : FaceSwapEngine.Engine)
  (sourceVideo outputCanvas : Canvas.Bitmap) (sourceFace : option MediaPipe.FaceDetection) :
  FaceSwapEngine.blendAmount (FaceSwapEngine.options e) < 0 \/
  1 < FaceSwapEngine.blendAmount (FaceSwapEngine.options e) ->
  observable (FaceSwapEngine.processFrame e sourceVideo sourceFace outputCanvas)
  = observable
      (FaceSwapEngine.processFrame (FaceSwapEngine.setOptions e Scenes.fullBlend)
         sourceVideo sourceFace outputCanvas).
Proof.
  intros Hb. set (e' := FaceSwapEngine.setOptions e Scenes.fullBlend).
  destruct sourceFace as [face|]; [|reflexivity].
  destruct (FaceSwapEngine.targetFaceImage e) as [target|] eqn:Ht.
  2:{ unfold FaceSwapEngine.processFrame. cbv zeta.
      cbn [FaceSwapEngine.targetFaceImage FaceSwapEngine.setOptions e']. rewrite Ht.
      reflexivity. }
  assert (Ht' : FaceSwapEngine.targetFaceImage e' = Some target) by exact Ht.
  destruct (processFrame_stages e sourceVideo outputCanvas target face Ht)
    as [[-> Hneg]|(Hrx & Hry & dx & dy & dw & dh & Hrect & ->)];
  destruct (processFrame_stages e' sourceVideo outputCanvas target face Ht')
    as [[-> Hneg']|(Hrx' & Hry' & dx' & dy' & dw' & dh' & Hrect' & ->)].
  - reflexivity.
  - exfalso. destruct Hneg; lra.
  - exfalso. destruct Hneg'; lra.
  - rewrite Hrect in Hrect'. injection Hrect' as <- <- <- <-.
    rewrite (setGlobalAlpha_ignored 1 _ Hb).
    change (Canvas.setGlobalAlpha 1
              (FaceSwapEngine.blendAmount (FaceSwapEngine.options e'))) with 1.
    apply overlaid_reads; reflexivity.
Qed.

(** X8: at full opacity, without feathering and colour correction, a
    pixel that the clip region covers wholly shows the opaque sample of
    the target. *)
Theorem overlay_shows_target_inside_clip
  (M : MathLib) (R : Canvas.Rasterizer) (e : FaceSwapEngine.Engine)
  (sourceVideo outputCanvas target : Canvas.Bitmap) (sourceFace : MediaPipe.FaceDetection)
  (x y : nat) (dx dy dw dh : Q) :
  let width := Canvas.width outputCanvas in
  let height := Canvas.height outputCanvas in
  let box := MediaPipe.boundingBox sourceFace in
  FaceSwapEngine.targetFaceImage e = Some target ->
  (0 < Canvas.width target)%nat -> (0 < Canvas.height target)%nat ->
  0 <= MediaPipe.bb_width box -> 0 <= MediaPipe.bb_height box ->
  FaceSwapEngine.blendAmount (FaceSwapEngine.options e) == 1 ->
  FaceSwapEngine.featherAmount (FaceSwapEngine.options e) <= 0 ->
  FaceSwapEngine.colorCorrection (FaceSwapEngine.options e) = false ->
  (x < width)%nat -> (y < height)%nat ->
  Canvas.clipCoverage (faceClip box width height) x y == 1 ->
  targetRect box target width height = (dx, dy, dw, dh) ->
  Canvas.alpha (Canvas.resample target dx dy dw dh x y) = 255%Z ->
  Canvas.pixelAt
    (FaceSwapEngine.output
       (FaceSwapEngine.processFrame e sourceVideo (Some sourceFace) outputCanvas)) x y
  = Canvas.resample target dx dy dw dh x y.
Proof.
  intros width height box Ht Htw Hth Hbw Hbh Hblend Hfeather Hcc Hx Hy Hcov Hrect Hopaque.
  destruct (processFrame_stages e sourceVideo outputCanvas target sourceFace Ht)
    as [[_ Hneg]|(_ & _ & dx' & dy' & dw' & dh' & Hrect' & ->)].
  { exfalso. cbn [faceClip Canvas.e_rx Canvas.e_ry] in Hneg.
    destruct Hneg as [Hneg|Hneg]; revert Hneg; apply Qle_not_lt;
      (apply Qmult_le_0_compat; [apply scaled_nonneg; [assumption|lra] | lra]). }
  fold width height box in Hrect'. rewrite Hrect in Hrect'.
  injection Hrect' as <- <- <- <-.
  fold width height box.
  set (scratch := Canvas.drawImage _ (Some _) _ target dx dy dw dh).
  assert (Hws : Canvas.width scratch = width)
    by exact (drawImage_width _ _ (Canvas.blank _ _) _ _ _ _ _).
  assert (Hhs : Canvas.height scratch = height)
    by exact (drawImage_height _ _ (Canvas.blank _ _) _ _ _ _ _).
  assert (Hp : Canvas.pixelAt scratch x y = Canvas.resample target dx dy dw dh x y).
  { subst scratch. rewrite drawImage_clip_drawn by assumption.
    apply opaque_sample_replaces; [|exact Hcov|exact Hopaque].
    rewrite setGlobalAlpha_kept; [exact Hblend|]. rewrite Hblend. split; discriminate. }
  unfold overlaid. cbv zeta. rewrite Hcc.
  rewrite (feathering_off _ scratch sourceFace width height Hfeather).
  destruct (drawCanvas_cases 1 (passThrough sourceVideo outputCanvas) scratch)
    as [[_ Hz]|(result & -> & _ & _ & _ & _ & Hpx)]; [exfalso; lia|].
  cbn [FaceSwapEngine.output]. rewrite Hpx.
  - rewrite pixelIn_inside by lia. rewrite Hp.
    apply opaque_sample_replaces; [reflexivity|reflexivity|exact Hopaque].
  - unfold passThrough. rewrite drawImage_width. exact Hx.
  - unfold passThrough. rewrite drawImage_height. exact Hy.
Qed.

(** ** Stores into the byte array *)





Section FadeFacts.
Context {M : MathLib}.
Import Canvas.



End FadeFacts.

Section CorrectionBounds.
Context {M : MathLib} {R : Canvas.Rasterizer}.
Import Canvas FaceSwapEngine.



End CorrectionBounds.



(** ** The generated geometry, point by point *)

Section GeneratedFacts.
Context {M : MathLib}.
Import MediaPipe.

(** Every landmark is the point of its region: the regions do not
    overwrite each other. *)
Lemma generated_landmarks_assigned :
  v_landmarks generateSimpleFaceDetection
  = List.map (fun i => Some (assignedPoint i)) (seq 0 468).
Proof. reflexivity. Qed.

Lemma lookup_map {A B : Type} (f : A -> B) (l : list A) (i : nat) :
  List.map f l !! i = option_map f (l !! i).
Proof.
  revert i. induction l as [|a l IH]; intros [|i]; cbn; [reflexivity..|apply IH].
Qed.

Lemma position_lt (i : nat) (idx : list nat) (j : nat) :
  position i idx = Some j -> (j < length idx)%nat.
Proof.
  revert j. induction idx as [|k rest IH]; intros j; cbn [position length].
  - discriminate.
  - destruct (k =? i)%nat.
    + intros [= <-]. lia.
    + destruct (position i rest) as [j'|]; cbn [option_map]; [|discriminate].
      intros [= <-]. specialize (IH j' eq_refl). lia.
Qed.

Lemma num_range (j n : nat) : (j < n)%nat -> 0 <= JS.num j <= JS.num n - 1.
Proof.
  intros Hj. unfold JS.num. split.
  - change 0 with (inject_Z 0). rewrite <- Zle_Qle. lia.
  - assert (H : inject_Z (Z.of_nat j) + 1 <= inject_Z (Z.of_nat n)); [|lra].
    change 1 with (inject_Z 1). rewrite <- inject_Z_plus, <- Zle_Qle. lia.
Qed.

Lemma assigned_in_box (i : nat) :
  (forall v, -1 <= Math_sin v <= 1) -> (forall v, -1 <= Math_cos v <= 1) ->
  inBox (v_boundingBox generateSimpleFaceDetection) (assignedPoint i).
Proof.
  intros Hsin Hcos. unfold inBox.
  cbn [v_boundingBox generateSimpleFaceDetection bb_x bb_y bb_width bb_height].
  assert (Hhalf1 : 0.35 / 2 == 0.175) by reflexivity.
  assert (Hhalf2 : 0.45 / 2 == 0.225) by reflexivity.
  rewrite Hhalf1, Hhalf2.
  unfold assignedPoint.
  destruct (position i FACE_OVAL_INDICES) as [j|].
  { cbn [ovalPoint lm_x lm_y].
    pose proof (Hsin (JS.num j / JS.num 36 * Math_PI * 2)).
    pose proof (Hcos (JS.num j / JS.num 36 * Math_PI * 2)). split; lra. }
  destruct (position i LIPS_INDICES) as [j|] eqn:Ej.
  { apply position_lt in Ej. apply num_range in Ej.
    change (JS.num (length LIPS_INDICES)) with 11 in Ej.
    cbn [lipsPoint lm_x lm_y]. pose proof (Hsin (JS.num j * 0.5)). split; lra. }
  clear Ej. destruct (position i RIGHT_EYE_INDICES) as [j|] eqn:Ej.
  { apply position_lt in Ej. apply num_range in Ej.
    change (JS.num (length RIGHT_EYE_INDICES)) with 6 in Ej.
    cbn [eyePoint lm_x lm_y]. pose proof (Hsin (JS.num j)). split; lra. }
  clear Ej. destruct (position i LEFT_EYE_INDICES) as [j|] eqn:Ej.
  { apply position_lt in Ej. apply num_range in Ej.
    change (JS.num (length LEFT_EYE_INDICES)) with 6 in Ej.
    cbn [eyePoint lm_x lm_y]. pose proof (Hsin (JS.num j)). split; lra. }
  destruct (i =? NOSE_TIP_INDEX)%nat.
  { cbn [nosePoint lm_x lm_y]. split; lra. }
  cbn [placeholderPoint lm_x lm_y].
  pose proof (Hsin (JS.num i * 0.1)). pose proof (Hcos (JS.num i * 0.1)). split; lra.
Qed.

End GeneratedFacts.

(** X11: each view of the generated geometry holds exactly the points of
    its region, in order. *)
Theorem generated_views_hold_their_regions (M : MathLib) :
  let g := MediaPipe.generateSimpleFaceDetection in
  MediaPipe.v_faceOval g = List.map (fun i => Some (ovalPoint i)) (seq 0 36) /\
  MediaPipe.v_leftEye g = List.map (fun i => Some (eyePoint (0.5 - 0.08) i)) (seq 0 6) /\
  MediaPipe.v_rightEye g = List.map (fun i => Some (eyePoint (0.5 + 0.08) i)) (seq 0 6) /\
  MediaPipe.v_lips g = List.map (fun i => Some (lipsPoint i)) (seq 0 11) /\
  MediaPipe.v_noseTip g = Some nosePoint /\
  forall i, (i < 468)%nat ->
    ~ In i (MediaPipe.NOSE_TIP_INDEX :: MediaPipe.LEFT_EYE_INDICES
            ++ MediaPipe.RIGHT_EYE_INDICES ++ MediaPipe.LIPS_INDICES
            ++ MediaPipe.FACE_OVAL_INDICES) ->
    MediaPipe.v_landmarks g !! i = Some (Some (placeholderPoint i)).
Proof.
  cbv zeta. repeat (split; [reflexivity|]).
  intros i Hi Hout. rewrite generated_landmarks_assigned.
  unfold JsArray.t. rewrite lookup_map, lookup_seq_lt by exact Hi. cbn [option_map plus].
  do 2 f_equal.
  assert (Hpos : forall idx, ~ In i idx -> position i idx = None).
  { induction idx as [|k rest IH]; intros Hn; [reflexivity|]. cbn [position].
    destruct (Nat.eqb_spec k i) as [->|_]; [exfalso; apply Hn; left; reflexivity|].
    rewrite IH; [reflexivity|]. intros H. apply Hn. right. exact H. }
  unfold assignedPoint.
  rewrite !Hpos by (intros H; apply Hout; right; rewrite !in_app_iff; tauto).
  destruct (Nat.eqb_spec i MediaPipe.NOSE_TIP_INDEX) as [->|_]; [|reflexivity].
  exfalso. apply Hout. left. reflexivity.
Qed.

(** X12: when sine and cosine stay within [-1, 1], every generated
    landmark lies within the generated bounding box. *)
Theorem generated_landmarks_in_box (M : MathLib) (i : nat) (p : MediaPipe.NormalizedLandmark) :
  (forall v, -1 <= Math_sin v <= 1) -> (forall v, -1 <= Math_cos v <= 1) ->
  MediaPipe.v_landmarks MediaPipe.generateSimpleFaceDetection !! i = Some (Some p) ->
  inBox (MediaPipe.v_boundingBox MediaPipe.generateSimpleFaceDetection) p.
Proof.
  intros Hsin Hcos Hp. rewrite generated_landmarks_assigned in Hp.
  unfold JsArray.t in Hp. rewrite lookup_map in Hp.
  destruct (seq 0 468 !! i) as [k|] eqn:Ek; [|discriminate Hp].
  cbn in Hp. injection Hp as <-. apply assigned_in_box; assumption.
Qed.

(** X13: the generator of the face-swap hook is the generator of
    [useMediaPipe]. *)
Theorem hook_generator_is_the_same (M : MathLib) :
  UseFaceSwap.generateFaceDetection = MediaPipe.generateSimpleFaceDetection.
Proof. reflexivity. Qed.

(** ** The hook *)

Section HookFacts.
Import FaceSwapEngine UseFaceSwap.


Lemma perform_app (h : Hook) (a1 a2 : list Action) :
  perform h (a1 ++ a2) = perform (perform h a1) a2.
Proof. unfold perform. apply fold_left_app. Qed.


(** The page of the hook moves as the page of the engine does. *)
Lemma act_page (h : Hook) (a : Action) :
  page (act h a)
  = match pageEvent a with
    | Some ev => step (page h) ev
    | None => page h
    end.
Proof.
  destruct a as [face| | |k img|k]; cbn [act step pageEvent].
  - reflexivity.
  - reflexivity.
  - unfold toggleFaceSwap. destruct (selectedFace h); reflexivity.
  - unfold selectResolved, onload. destruct (requests (page h) !! k); reflexivity.
  - unfold selectRejected.
    destruct (requests (page h) !! k) eqn:E; [|unfold onerror; rewrite E; reflexivity].
    cbv zeta. destruct (promises (onerror (page h) k) !! k) as [[]|]; reflexivity.
Qed.

Lemma numbered_act (h : Hook) (a : Action) : numbered (page h) -> numbered (page (act h a)).
Proof.
  intros Hn. rewrite act_page. destruct (pageEvent a); [apply numbered_step|]; exact Hn.
Qed.

Lemma numbered_perform (actions : list Action) (h : Hook) :
  numbered (page h) -> numbered (page (perform h actions)).
Proof.
  revert h. induction actions as [|a rest IH]; intros h Hn; [exact Hn|].
  apply IH. apply numbered_act. exact Hn.
Qed.

Lemma numbered_mounted : numbered (page mounted).
Proof. apply numbered_newPage. Qed.

Lemma act_keeps_request (h : Hook) (a : Action) (k : nat) (face : PresetFace) :
  numbered (page h) -> completes k a = false ->
  requests (page h) !! k = Some face -> requests (page (act h a)) !! k = Some face.
Proof.
  intros Hn Hc Hk. rewrite act_page.
  destruct a; cbn [pageEvent]; [| |exact Hk| |];
    (apply step_keeps_request; [exact Hn| |exact Hk]); first [reflexivity | exact Hc].
Qed.

Lemma perform_keeps_request (actions : list Action) (h : Hook) (k : nat) (face : PresetFace) :
  numbered (page h) -> forallb (fun a => negb (completes k a)) actions = true ->
  requests (page h) !! k = Some face ->
  requests (page (perform h actions)) !! k = Some face.
Proof.
  revert h. induction actions as [|a rest IH]; intros h Hn Hall Hk; [exact Hk|].
  cbn [forallb] in Hall. apply andb_true_iff in Hall as [Ha Hrest].
  apply negb_true_iff in Ha.
  apply IH; [apply numbered_act; exact Hn | exact Hrest | apply act_keeps_request; assumption].
Qed.

(** What a decoded image does to the hook. *)
Lemma selectResolved_lands (h : Hook) (k : nat) (face : PresetFace) (img : Canvas.Bitmap) :
  requests (page h) !! k = Some face ->
  selectedFace (selectResolved h k img) = Some face /\
  isFaceSwapEnabled (selectResolved h k img) = true /\
  targetFaceImage (engine (page (selectResolved h k img))) = Some img.
Proof.
  intros Hk. unfold selectResolved. rewrite Hk. cbn [selectedFace isFaceSwapEnabled page].
  split; [reflexivity|]. split; [reflexivity|].
  apply (onload_installs _ _ face). exact Hk.
Qed.




End HookFacts.

Section EngineFacts.
Import FaceSwapEngine.

(** One event changes the options only by [setOptions], and the target
    only by a decoded image or a clear. *)
Lemma step_options (pg : Page) (ev : Event) :
  options (engine (step pg ev))
  = fold_left spread (optionUpdates [ev]) (options (engine pg)).
Proof.
  destruct ev as [face| |opts|k img|k]; cbn; try reflexivity.
  - unfold onload. destruct (requests pg !! k); reflexivity.
  - unfold onerror. destruct (requests pg !! k); reflexivity.
Qed.

Lemma step_target (pg : Page) (ev : Event) (img : Canvas.Bitmap) :
  targetFaceImage (engine (step pg ev)) = Some img ->
  targetFaceImage (engine pg) = Some img \/
  exists k face, ev = ImageLoaded k img /\ requests pg !! k = Some face.
Proof.
  destruct ev as [face| |opts|k img'|k]; cbn [step].
  - intros H. left. exact H.
  - cbn. discriminate.
  - intros H. left. exact H.
  - unfold onload. destruct (requests pg !! k) as [face|] eqn:Ek.
    + cbn. intros [= ->]. right. exists k, face. split; [reflexivity|exact Ek].
    + intros H. left. exact H.
  - unfold onerror. destruct (requests pg !! k); intros H; left; exact H.
Qed.

End EngineFacts.

(** X14: the options are what the [setOptions] calls made of them,
    whatever was loaded, cleared or failed in between. *)
Theorem options_follow_setOptions_only
  (pg : FaceSwapEngine.Page) (evs : list FaceSwapEngine.Event) :
  FaceSwapEngine.options (FaceSwapEngine.engine (FaceSwapEngine.run pg evs))
  = fold_left FaceSwapEngine.spread (optionUpdates evs)
      (FaceSwapEngine.options (FaceSwapEngine.engine pg)).
Proof.
  revert pg. induction evs as [|ev rest IH]; intros pg; [reflexivity|].
  change (FaceSwapEngine.run pg (ev :: rest))
    with (FaceSwapEngine.run (FaceSwapEngine.step pg ev) rest).
  rewrite IH, step_options.
  assert (Hcons : optionUpdates (ev :: rest) = optionUpdates [ev] ++ optionUpdates rest)
    by (unfold optionUpdates; cbn [flat_map]; rewrite app_nil_r; reflexivity).
  rewrite Hcons, fold_left_app. reflexivity.
Qed.

(** X15: the target of an engine is an image that was decoded for one of
    its own requests. *)
Theorem target_is_a_requested_image
  (opts : FaceSwapEngine.PartialOptions) (evs : list FaceSwapEngine.Event)
  (img : Canvas.Bitmap) :
  FaceSwapEngine.targetFaceImage
    (FaceSwapEngine.engine
       (FaceSwapEngine.run (FaceSwapEngine.newPage (FaceSwapEngine.constructor opts)) evs))
  = Some img ->
  exists (before after : list FaceSwapEngine.Event) (k : nat)
         (face : FaceSwapEngine.PresetFace),
    evs = before ++ FaceSwapEngine.ImageLoaded k img :: after /\
    FaceSwapEngine.requests
      (FaceSwapEngine.run (FaceSwapEngine.newPage (FaceSwapEngine.constructor opts)) before)
    !! k = Some face.
Proof.
  induction evs as [|ev rest IH] using rev_ind; [discriminate|].
  rewrite run_app. cbn [FaceSwapEngine.run fold_left]. intros H.
  destruct (step_target _ _ _ H) as [Hold|(k & face & -> & Hk)].
  - destruct (IH Hold) as (before & after & k & face & -> & Hk).
    exists before, (after ++ [ev]), k, face. split; [|exact Hk].
    rewrite <- app_assoc. reflexivity.
  - exists rest, [], k, face. split; [reflexivity|exact Hk].
Qed.


(** X17: a selection whose image is still loading lands when the image is
    decoded, whatever the user did in between. *)
Theorem pending_selection_lands
  (h : UseFaceSwap.Hook) (k : nat) (face : FaceSwapEngine.PresetFace)
  (actions : list UseFaceSwap.Action) (img : Canvas.Bitmap) :
  numbered (UseFaceSwap.page h) ->
  FaceSwapEngine.requests (UseFaceSwap.page h) !! k = Some face ->
  forallb (fun a => negb (completes k a)) actions = true ->
  let h' := UseFaceSwap.perform h (actions ++ [UseFaceSwap.Decoded k img]) in
  UseFaceSwap.selectedFace h' = Some face /\
  UseFaceSwap.isFaceSwapEnabled h' = true /\
  FaceSwapEngine.targetFaceImage (FaceSwapEngine.engine (UseFaceSwap.page h')) = Some img.
Proof.
  intros Hn Hk Hall. cbv zeta. rewrite perform_app.
  cbn [UseFaceSwap.perform fold_left UseFaceSwap.act].
  apply selectResolved_lands.
  apply perform_keeps_request; assumption.
Qed.

(** X18: a failed load tells the user which image failed and leaves the
    selection, the switch and the engine alone. *)
Theorem failed_selection_is_reported
  (h : UseFaceSwap.Hook) (k : nat) (face : FaceSwapEngine.PresetFace) :
  FaceSwapEngine.requests (UseFaceSwap.page h) !! k = Some face ->
  let h' := UseFaceSwap.selectRejected h k in
  UseFaceSwap.error h'
  = Some (String.append "Failed to load face: Error: Failed to load face image: "
            (FaceSwapEngine.imageUrl face)) /\
  UseFaceSwap.selectedFace h' = UseFaceSwap.selectedFace h /\
  UseFaceSwap.isFaceSwapEnabled h' = UseFaceSwap.isFaceSwapEnabled h /\
  FaceSwapEngine.engine (UseFaceSwap.page h') = FaceSwapEngine.engine (UseFaceSwap.page h) /\
  FaceSwapEngine.requests (UseFaceSwap.page h') !! k = None.
Proof.
  intros Hk. cbv zeta. unfold UseFaceSwap.selectRejected. rewrite Hk. cbv zeta.
  unfold FaceSwapEngine.onerror. rewrite Hk. cbn [FaceSwapEngine.promises].
  rewrite lookup_insert_eq.
  cbn [UseFaceSwap.error UseFaceSwap.selectedFace UseFaceSwap.isFaceSwapEnabled
       UseFaceSwap.page FaceSwapEngine.engine FaceSwapEngine.requests].
  split; [reflexivity|]. split; [reflexivity|]. split; [reflexivity|].
  split; [reflexivity|]. apply lookup_delete_eq.
Qed.

(** X19: the hook never changes the options of its engine: every
    composite it asks for blends at 0.95, feathers over 20 pixels and
    skips colour correction. *)
Theorem hook_options_are_fixed (actions : list UseFaceSwap.Action) :
  FaceSwapEngine.options
    (FaceSwapEngine.engine (UseFaceSwap.page (UseFaceSwap.perform UseFaceSwap.mounted actions)))
  = {| FaceSwapEngine.blendAmount := 0.95; FaceSwapEngine.featherAmount := 20;
       FaceSwapEngine.colorCorrection := false |}.
Proof.
  induction actions as [|a rest IH] using rev_ind; [reflexivity|].
  rewrite perform_app. cbn [UseFaceSwap.perform fold_left]. rewrite act_page.
  destruct a as [face| | |k img|k]; cbn [pageEvent]; try exact IH;
    rewrite step_options; exact IH.
Qed.

(** ** The render loop *)

Section RenderFacts.
Context {M : MathLib} {R : Canvas.Rasterizer}.
Import Canvas FaceSwapEngine UseFaceSwap.

Lemma conforms_box (v : MediaPipe.FaceDetectionValue) (fd : MediaPipe.FaceDetection) :
  MediaPipe.conforms v = Some fd -> MediaPipe.boundingBox fd = MediaPipe.v_boundingBox v.
Proof.
  unfold MediaPipe.conforms.
  destruct (JsArray.defined (MediaPipe.v_landmarks v)); [|discriminate].
  destruct (JsArray.defined (MediaPipe.v_faceOval v)); [|discriminate].
  destruct (JsArray.defined (MediaPipe.v_leftEye v)); [|discriminate].
  destruct (JsArray.defined (MediaPipe.v_rightEye v)); [|discriminate].
  destruct (JsArray.defined (MediaPipe.v_lips v)); [|discriminate].
  destruct (MediaPipe.v_noseTip v); [|discriminate].
  intros [= <-]. reflexivity.
Qed.

(** The geometry [render] hands to the engine. *)
Lemma render_geometry :
  exists fd : MediaPipe.FaceDetection,
    MediaPipe.conforms generateFaceDetection = Some fd /\
    MediaPipe.boundingBox fd = MediaPipe.v_boundingBox generateFaceDetection.
Proof.
  change generateFaceDetection with MediaPipe.generateSimpleFaceDetection.
  destruct generated_conforms as (fd & Hfd & _).
  exists fd. split; [exact Hfd|]. apply conforms_box. exact Hfd.
Qed.

Lemma fallback_positive (n d : nat) : (0 < d)%nat -> (0 < if (n =? 0)%nat then d else n)%nat.
Proof. intros Hd. destruct (Nat.eqb_spec n 0); lia. Qed.

End RenderFacts.

(** X20: with readable face images the render loop never throws and
    always schedules its next frame. *)
Theorem render_keeps_running
  (M : MathLib) (R : Canvas.Rasterizer) (h : UseFaceSwap.Hook)
  (video originalCanvas swappedCanvas : option Canvas.Bitmap) :
  (forall img,
     FaceSwapEngine.targetFaceImage (FaceSwapEngine.engine (UseFaceSwap.page h)) = Some img ->
     Canvas.originClean img = true) ->
  let r := UseFaceSwap.render h video originalCanvas swappedCanvas in
  UseFaceSwap.thrown r = None /\ UseFaceSwap.scheduled r = true.
Proof.
  intros Hclean. cbv zeta. unfold UseFaceSwap.render. cbv zeta.
  destruct video as [video|]; [|split; reflexivity].
  destruct originalCanvas as [originalCanvas|]; [|split; reflexivity].
  destruct swappedCanvas as [swappedCanvas|]; [|split; reflexivity].
  destruct (UseFaceSwap.isFaceSwapEnabled h
            && FaceSwapEngine.hasTargetFace
                 (FaceSwapEngine.engine (UseFaceSwap.page h)))%bool eqn:Eswap;
    [|split; reflexivity].
  apply andb_true_iff in Eswap as [_ Ht]. unfold FaceSwapEngine.hasTargetFace in Ht.
  destruct (FaceSwapEngine.targetFaceImage (FaceSwapEngine.engine (UseFaceSwap.page h)))
    as [target|] eqn:Etarget; [|discriminate Ht].
  destruct (@render_geometry M) as (fd & -> & Hbox).
  cbn [UseFaceSwap.thrown UseFaceSwap.scheduled].
  rewrite (composite_with_target_completes _ _ _ target fd Etarget (Hclean target eq_refl)).
  - split; reflexivity.
  - cbn [Canvas.width Canvas.blank]. apply fallback_positive. lia.
  - cbn [Canvas.height Canvas.blank]. apply fallback_positive. lia.
  - rewrite Hbox. discriminate.
  - rewrite Hbox. discriminate.
Qed.

(** X21: the two canvases of a rendered frame have the size of the video
    frame (640 by 480 where the video has none), and the swapped canvas
    shows the original frame wherever the clip region has no coverage. *)
Theorem render_swaps_inside_the_clip_only
  (M : MathLib) (R : Canvas.Rasterizer) (h : UseFaceSwap.Hook)
  (video originalCanvas swappedCanvas : Canvas.Bitmap) (x y : nat) :
  let width := if (Canvas.width video =? 0)%nat then 640%nat else Canvas.width video in
  let height := if (Canvas.height video =? 0)%nat then 480%nat else Canvas.height video in
  let r := UseFaceSwap.render h (Some video) (Some originalCanvas) (Some swappedCanvas) in
  (x < width)%nat -> (y < height)%nat ->
  Canvas.clipCoverage
    (faceClip (MediaPipe.v_boundingBox UseFaceSwap.generateFaceDetection) width height)
    x y == 0 ->
  exists original swapped : Canvas.Bitmap,
    UseFaceSwap.originalCanvas r = Some original /\
    UseFaceSwap.swappedCanvas r = Some swapped /\
    Canvas.width original = width /\ Canvas.height original = height /\
    Canvas.width swapped = width /\ Canvas.height swapped = height /\
    Canvas.pixelAt swapped x y = Canvas.pixelAt original x y.
Proof.
  intros width height r Hx Hy Hcov. subst r. unfold UseFaceSwap.render. cbv zeta.
  fold width. fold height.
  set (original := Canvas.drawImage 1 None (Canvas.blank width height) video
                     0 0 (JS.num width) (JS.num height)).
  assert (Hwo : Canvas.width original = width) by apply drawImage_width.
  assert (Hho : Canvas.height original = height) by apply drawImage_height.
  destruct (_ && _)%bool.
  2:{ exists original, original. repeat split; assumption. }
  destruct (@render_geometry M) as (fd & -> & Hbox).
  cbn [UseFaceSwap.originalCanvas UseFaceSwap.swappedCanvas].
  eexists _, _. split; [reflexivity|]. split; [reflexivity|].
  split; [exact Hwo|]. split; [exact Hho|].
  set (e := FaceSwapEngine.engine (UseFaceSwap.page h)).
  destruct (processFrame_output_size e video (Canvas.blank width height) (Some fd))
    as (Hws & Hhs).
  split; [exact Hws|]. split; [exact Hhs|].
  change original with (passThrough video (Canvas.blank width height)).
  destruct (FaceSwapEngine.targetFaceImage e) as [target|] eqn:Ht;
    [|unfold FaceSwapEngine.processFrame; cbv zeta; rewrite Ht; reflexivity].
  destruct (processFrame_stages e video (Canvas.blank width height) target fd Ht)
    as [[-> _]|(_ & _ & dx & dy & dw & dh & _ & ->)]; [reflexivity|].
  cbn [Canvas.width Canvas.height Canvas.blank].
  apply overlaid_pixel; try assumption.
  - exact (drawImage_width _ _ (Canvas.blank _ _) _ _ _ _ _).
  - exact (drawImage_height _ _ (Canvas.blank _ _) _ _ _ _ _).
  - apply clipped_target_transparent; [exact Hx|exact Hy|].
    rewrite Hbox. exact Hcov.
Qed.

(** ** The further properties on explicit inputs *)

(** The composite of the red target over the black frame runs through. *)
Lemma composite_completes_witness :
  FaceSwapEngine.thrown
    (@FaceSwapEngine.processFrame Reference.math Reference.raster
       Examples.engineB Examples.blackFrame (Some Examples.diamondFace) (Canvas.blank 2 2))
  = None.
Proof.
  apply (composite_completes Reference.math Reference.raster
           Examples.engineB Examples.blackFrame (Canvas.blank 2 2)
           (Some Examples.diamondFace)).
  - cbn. lia.
  - cbn. lia.
  - intros face [= <-]. split; discriminate.
  - intros img H. vm_compute in H. injection H as <-. reflexivity.
Defined.

(** A box of negative width: the output is the black frame. *)
Lemma composite_failure_leaves_pass_through_witness :
  FaceSwapEngine.output
    (@FaceSwapEngine.processFrame Reference.math Reference.raster
       Examples.engineB Examples.blackFrame (Some Scenes.invertedFace) (Canvas.blank 2 2))
  = @passThrough Reference.raster Examples.blackFrame (Canvas.blank 2 2).
Proof.
  apply (composite_failure_leaves_pass_through Reference.math Reference.raster
           Examples.engineB Examples.blackFrame (Canvas.blank 2 2)
           (Some Scenes.invertedFace)).
  vm_compute. discriminate.
Defined.


(** An output canvas of width 0. *)
Lemma composite_needs_pixels_witness :
  FaceSwapEngine.thrown
    (@FaceSwapEngine.processFrame Reference.math Reference.raster
       Examples.engineB Examples.blackFrame (Some Examples.diamondFace) (Canvas.blank 0 2))
  <> None.
Proof.
  apply (composite_needs_pixels Reference.math Reference.raster
           Examples.engineB Examples.blackFrame (Canvas.blank 0 2) Examples.imageB
           Examples.diamondFace).
  - reflexivity.
  - left. reflexivity.
Defined.

(** The corner of a 4 x 4 frame with a face in its middle. *)
Lemma overlay_confined_to_clip_witness :
  Canvas.pixelAt
    (FaceSwapEngine.output
       (@FaceSwapEngine.processFrame Reference.math Reference.raster
          Examples.engineB Examples.greyFrame (Some Scenes.smallFace) (Canvas.blank 4 4)))
    0 0
  = Canvas.pixelAt (@passThrough Reference.raster Examples.greyFrame (Canvas.blank 4 4)) 0 0.
Proof.
  apply (overlay_confined_to_clip Reference.math Reference.raster
           Examples.engineB Examples.greyFrame (Canvas.blank 4 4) Scenes.smallFace 0 0).
  - cbn. lia.
  - cbn. lia.
  - vm_compute. reflexivity.
Defined.



(** Landmark 0 is in no region. *)
Lemma generated_views_hold_their_regions_witness :
  MediaPipe.v_landmarks (@MediaPipe.generateSimpleFaceDetection Reference.math) !! 0%nat
  = Some (Some (@placeholderPoint Reference.math 0)).
Proof.
  destruct (generated_views_hold_their_regions Reference.math)
    as (_ & _ & _ & _ & _ & H).
  apply H.
  - lia.
  - cbn. intros Hin. repeat (destruct Hin as [Hin|Hin]; [discriminate Hin|]). exact Hin.
Defined.

Lemma unit_bounds (v : Q) : -1 <= Saturated.unit v <= 1.
Proof.
  unfold Saturated.unit. split.
  - apply Q.le_max_l.
  - apply Q.max_lub; [discriminate|apply Q.le_min_l].
Qed.

(** The nose tip, with sine and cosine cut off at -1 and 1. *)
Lemma generated_landmarks_in_box_witness :
  inBox (MediaPipe.v_boundingBox (@MediaPipe.generateSimpleFaceDetection Saturated.math))
        (@nosePoint).
Proof.
  apply (generated_landmarks_in_box Saturated.math 1 nosePoint).
  - intros v. apply unit_bounds.
  - intros v. apply unit_bounds.
  - rewrite generated_landmarks_assigned. reflexivity.
Defined.

Lemma target_is_a_requested_image_witness :
  exists (before after : list FaceSwapEngine.Event) (k : nat)
         (face : FaceSwapEngine.PresetFace),
    [FaceSwapEngine.CallLoadTargetFace Examples.faceB;
     FaceSwapEngine.ImageLoaded 0 Examples.imageB]
    = before ++ FaceSwapEngine.ImageLoaded k Examples.imageB :: after /\
    FaceSwapEngine.requests
      (FaceSwapEngine.run
         (FaceSwapEngine.newPage (FaceSwapEngine.constructor Examples.noOptions)) before)
    !! k = Some face.
Proof.
  apply (target_is_a_requested_image Examples.noOptions
           [FaceSwapEngine.CallLoadTargetFace Examples.faceB;
            FaceSwapEngine.ImageLoaded 0 Examples.imageB] Examples.imageB).
  reflexivity.
Defined.

(** Face A is selected; before its image arrives the user clears the
    selection, toggles, and selects face B. *)
Lemma pending_selection_lands_witness :
  let h' :=
    UseFaceSwap.perform Scenes.selecting
      ([UseFaceSwap.ClearFace; UseFaceSwap.ToggleFaceSwap;
        UseFaceSwap.SelectFace Examples.faceB]
       ++ [UseFaceSwap.Decoded 0 Examples.imageA]) in
  UseFaceSwap.selectedFace h' = Some Examples.faceA /\
  UseFaceSwap.isFaceSwapEnabled h' = true /\
  FaceSwapEngine.targetFaceImage (FaceSwapEngine.engine (UseFaceSwap.page h'))
  = Some Examples.imageA.
Proof.
  apply (pending_selection_lands Scenes.selecting 0 Examples.faceA
           [UseFaceSwap.ClearFace; UseFaceSwap.ToggleFaceSwap;
            UseFaceSwap.SelectFace Examples.faceB] Examples.imageA).
  - apply numbered_perform. apply numbered_mounted.
  - reflexivity.
  - reflexivity.
Defined.

Lemma failed_selection_is_reported_witness :
  UseFaceSwap.error (UseFaceSwap.selectRejected Scenes.selecting 0)
  = Some "Failed to load face: Error: Failed to load face image: data:image/png;base64,QQ=="%string.
Proof.
  destruct (failed_selection_is_reported Scenes.selecting 0 Examples.faceA) as (H & _).
  - reflexivity.
  - exact H.
Defined.

(** A frame rendered with face A selected. *)
Lemma render_keeps_running_witness :
  UseFaceSwap.scheduled
    (@UseFaceSwap.render Reference.math Reference.raster Scenes.selected
       (Some Examples.greyFrame) (Some (Canvas.blank 1 1)) (Some (Canvas.blank 1 1)))
  = true.
Proof.
  destruct (render_keeps_running Reference.math Reference.raster Scenes.selected
              (Some Examples.greyFrame) (Some (Canvas.blank 1 1)) (Some (Canvas.blank 1 1)))
    as (_ & H).
  - intros img Himg. vm_compute in Himg. injection Himg as <-. reflexivity.
  - exact H.
Defined.

Lemma render_swaps_inside_the_clip_only_witness :
  exists original swapped : Canvas.Bitmap,
    UseFaceSwap.originalCanvas
      (@UseFaceSwap.render Reference.math Reference.raster Scenes.selected
         (Some Examples.greyFrame) (Some (Canvas.blank 1 1)) (Some (Canvas.blank 1 1)))
    = Some original /\
    UseFaceSwap.swappedCanvas
      (@UseFaceSwap.render Reference.math Reference.raster Scenes.selected
         (Some Examples.greyFrame) (Some (Canvas.blank 1 1)) (Some (Canvas.blank 1 1)))
    = Some swapped /\
    Canvas.width swapped = 2%nat /\
    Canvas.pixelAt swapped 0 0 = Canvas.pixelAt original 0 0.
Proof.
  destruct (render_swaps_inside_the_clip_only Reference.math Reference.raster
              Scenes.selected Examples.greyFrame (Canvas.blank 1 1) (Canvas.blank 1 1) 0 0)
    as (original & swapped & Ho & Hs & _ & _ & Hw & _ & Hp).
  - cbn. lia.
  - cbn. lia.
  - lazy. reflexivity.
  - exists original, swapped.
    split; [exact Ho|]. split; [exact Hs|]. split; [exact Hw|exact Hp].
Defined.

(** A blend amount of -0.2 composites as a blend amount of 1. *)
Lemma out_of_range_blend_is_full_opacity_witness :
  observable
    (@FaceSwapEngine.processFrame Reference.math Reference.raster
       (FaceSwapEngine.setOptions Examples.engineB Scenes.negativeBlend)
       Examples.blackFrame (Some Examples.diamondFace) (Canvas.blank 2 2))
  = observable
      (@FaceSwapEngine.processFrame Reference.math Reference.raster
         (FaceSwapEngine.setOptions
            (FaceSwapEngine.setOptions Examples.engineB Scenes.negativeBlend)
            Scenes.fullBlend)
         Examples.blackFrame (Some Examples.diamondFace) (Canvas.blank 2 2)).
Proof.
  apply (out_of_range_blend_is_full_opacity Reference.math Reference.raster
           (FaceSwapEngine.setOptions Examples.engineB Scenes.negativeBlend)
           Examples.blackFrame (Canvas.blank 2 2) (Some Examples.diamondFace)).
  left. reflexivity.
Defined.

(** The red target over the black frame: the corner pixel turns red. *)
Lemma overlay_shows_target_inside_clip_witness :
  Canvas.pixelAt
    (FaceSwapEngine.output
       (@FaceSwapEngine.processFrame Reference.math Reference.raster
          (FaceSwapEngine.setOptions Examples.engineB Scenes.plainOverlay)
          Examples.blackFrame (Some Examples.bareFace) (Canvas.blank 2 2))) 0 0
  = Examples.opaque 255 0 0.
Proof.
  rewrite (overlay_shows_target_inside_clip Reference.math Reference.raster
             (FaceSwapEngine.setOptions Examples.engineB Scenes.plainOverlay)
             Examples.blackFrame (Canvas.blank 2 2) Examples.imageB Examples.bareFace 0 0
             (fst (fst (fst (targetRect (MediaPipe.boundingBox Examples.bareFace)
                               Examples.imageB 2 2))))
             (snd (fst (fst (targetRect (MediaPipe.boundingBox Examples.bareFace)
                               Examples.imageB 2 2))))
             (snd (fst (targetRect (MediaPipe.boundingBox Examples.bareFace)
                          Examples.imageB 2 2)))
             (snd (targetRect (MediaPipe.boundingBox Examples.bareFace)
                     Examples.imageB 2 2))).
  - vm_compute. reflexivity.
  - reflexivity.
  - cbn. lia.
  - cbn. lia.
  - discriminate.
  - discriminate.
  - reflexivity.
  - discriminate.
  - reflexivity.
  - cbn. lia.
  - cbn. lia.
  - vm_compute. reflexivity.
  - vm_compute. reflexivity.
  - vm_compute. reflexivity.
Defined.
